(** * tinysh: a shallow embedding of [tinysh.c] and the properties of its
    line parser, job table and session loop.

    The C program is modelled function by function.  C [int]s and [pid_t]s
    are [Z]; C strings are [string]s (the bytes before the terminating NUL);
    the arrays [args], [redir] and [backgroundPIDs] are lists indexed with
    stdpp's lookup and insert, every access guarded by the array bound, an
    access outside it being undefined behaviour; [char *] values are the
    small pointer type [ptr], so that the aliasing of [pidString] is kept.
    System calls are the operations of an abstract operating system. *)

From Stdlib Require Import ZArith Ascii String Lia.
From stdpp Require Import base tactics option list sets numbers strings pretty.

Local Open Scope Z_scope.

(** ** Outcomes of a C function *)

(** The ways in which the C program leaves the behaviour the standard
    defines. *)
Inductive ub : Type :=
  | OutOfBounds      (* an array indexed outside its bounds *)
  | NullDeref        (* a null or indeterminate pointer read as a string *)
  | BufferOverflow.  (* [sprintf]/[strcpy] past the end of the destination *)

Inductive outcome (A : Type) : Type :=
  | Ok (a : A)               (* the function returns *)
  | Undefined (why : ub)     (* undefined behaviour *)
  | Exited (code : Z)        (* [exit(code)] *)
  | Replaced                 (* [execvp] has replaced the process image *)
  | NoFuel.                  (* the loop bound of the model is used up *)
Arguments Ok {A} a.
Arguments Undefined {A} why.
Arguments Exited {A} code.
Arguments Replaced {A}.
Arguments NoFuel {A}.

(** The error monad of outcomes, with stdpp's [x ← y; z] notation. *)
Global Instance outcome_bind : MBind outcome := λ A B f x,
  match x with
  | Ok a => f a
  | Undefined why => Undefined why
  | Exited c => Exited c
  | Replaced => Replaced
  | NoFuel => NoFuel
  end.

(** ** C strings *)

Module CString.

(** [strcmp(a, b) == 0] *)
Definition streq (a b : string) : bool := String.eqb a b.

(** The string [s] begins with the characters of [needle]. *)
Fixpoint starts_with (needle s : string) : bool :=
  match needle, s with
  | EmptyString, _ => true
  | String _ _, EmptyString => false
  | String a needle', String b s' => Ascii.eqb a b && starts_with needle' s'
  end.

(** [strstr(hay, needle)]: the offset of the first occurrence, [None] for
    the null pointer. *)
Fixpoint strstr (hay needle : string) : option nat :=
  if starts_with needle hay then Some 0%nat
  else match hay with
       | EmptyString => None
       | String _ hay' => S <$> strstr hay' needle
       end.

(** The string left in a buffer holding [s] once a NUL is written at
    offset [k]. *)
Fixpoint cut (k : nat) (s : string) : string :=
  match k, s with
  | S k', String c s' => String c (cut k' s')
  | _, _ => EmptyString
  end.

(** [strtok] with the one delimiter [" "].  The library keeps a saved
    pointer between calls; here the string at that pointer is an argument
    and the string at the new saved pointer is returned with the token. *)
Definition is_delim (c : ascii) : bool := Ascii.eqb c " ".

Fixpoint skip_delims (s : string) : string :=
  match s with
  | EmptyString => EmptyString
  | String c s' => if is_delim c then skip_delims s' else s
  end.

Fixpoint span_token (s : string) : string * string :=
  match s with
  | EmptyString => (EmptyString, EmptyString)
  | String c s' =>
      if is_delim c then (EmptyString, s')
      else let '(t, r) := span_token s' in (String c t, r)
  end.

(** [None] is the null pointer; the saved pointer then stays at the end
    of the string, so every later call returns null again. *)
Definition strtok (s : string) : option string * string :=
  match skip_delims s with
  | EmptyString => (None, EmptyString)
  | s' => let '(t, r) := span_token s' in (Some t, r)
  end.

(** The tokens that successive [strtok] calls return. *)
Fixpoint strtok_all (fuel : nat) (s : string) : list string :=
  match fuel with
  | O => []
  | S fuel' =>
      match strtok s with
      | (None, _) => []
      | (Some t, r) => t :: strtok_all fuel' r
      end
  end.

Definition tokens (s : string) : list string :=
  strtok_all (S (String.length s)) s.

End CString.
Import CString.
Global Arguments tokens : simpl never.

(** ** Memory: globals, pointers and arrays *)

(** The four global variables of the program.  The three flags are C [int]s;
    [pidString] is the content of the 50-byte buffer. *)
Record globals : Type := Globals {
  pidString : string;
  background : Z;
  disallow_background : Z;
  background_inform : Z
}.

Definition set_pidString (s : string) (g : globals) : globals :=
  Globals s (background g) (disallow_background g) (background_inform g).
Definition set_background (v : Z) (g : globals) : globals :=
  Globals (pidString g) v (disallow_background g) (background_inform g).
Definition set_disallow_background (v : Z) (g : globals) : globals :=
  Globals (pidString g) (background g) v (background_inform g).
Definition set_background_inform (v : Z) (g : globals) : globals :=
  Globals (pidString g) (background g) (disallow_background g) v.

(** The values of the program's zero-initialised globals at start-up. *)
Definition globals_init : globals := Globals "" 0 0 0.

(** A [char *] of the program.  A pointer to [pidString] is kept apart from
    a pointer to a string that no one overwrites, so that what it designates
    follows the content of the buffer. *)
Inductive ptr : Type :=
  | Undef                 (* never assigned: an indeterminate value *)
  | NULL
  | Tok (s : string)      (* to the string [s]: a token of the input line *)
  | PidStringPtr.         (* the address of the global [pidString] *)

Global Instance ptr_eq_dec : EqDecision ptr.
Proof. solve_decision. Defined.

(** [char *redir[2]], indexed only by the constants 0 and 1. *)
Record redirs : Type := Redirs { redir0 : ptr; redir1 : ptr }.

Definition BGPID_ARR_SIZE : Z := 20.
Definition NUM_ARGS : Z := 513.
Definition PATH_STR_SZ : Z := 100.
Definition PIDSTRING_SZ : Z := 50.

(** [a[i]] read and written, for an array whose size is the list's length. *)
Definition load {A} (a : list A) (i : Z) : outcome A :=
  if bool_decide (0 ≤ i) then
    match a !! Z.to_nat i with
    | Some x => Ok x
    | None => Undefined OutOfBounds
    end
  else Undefined OutOfBounds.

Definition store {A} (a : list A) (i : Z) (x : A) : outcome (list A) :=
  if bool_decide (0 ≤ i < Z.of_nat (length a)) then Ok (<[Z.to_nat i := x]> a)
  else Undefined OutOfBounds.

(** The C string a pointer designates, as [strcmp], [strcpy] or [execvp]
    read it. *)
Definition string_at (g : globals) (p : ptr) : outcome string :=
  match p with
  | Tok s => Ok s
  | PidStringPtr => Ok (pidString g)
  | NULL | Undef => Undefined NullDeref
  end.

(** The argument vector as [execvp(args[0], args)] reads it: the strings
    designated by [args[0]], [args[1]], ... up to the first null pointer. *)
Fixpoint argv (g : globals) (a : list ptr) : outcome (list string) :=
  match a with
  | [] => Undefined OutOfBounds
  | NULL :: _ => Ok []
  | p :: a' => s ← string_at g p ; l ← argv g a' ; Ok (s :: l)
  end.

(** [sprintf(pidString, "%s%ld", s, pid)] *)
Definition sprintf_pidString (s : string) (pid : Z) (g : globals)
  : outcome globals :=
  let text := s +:+ pretty pid in
  if bool_decide (Z.of_nat (String.length text) < PIDSTRING_SZ)
  then Ok (set_pidString text g)
  else Undefined BufferOverflow.

(** ** The line parser *)

(** What [parseCommand] reads and writes: its local [argCount], the caller's
    arrays [args] and [redir], and the globals. *)
Record parser : Type := Parser {
  argCount : Z;
  args : list ptr;
  redir : redirs;
  glob : globals
}.

Definition ptr_of_token (t : option string) : ptr :=
  match t with Some s => Tok s | None => NULL end.

(** The [while (token)] loop.  [token] is the local variable, [save] the
    string at [strtok]'s saved pointer, [pid] the value of [getpid()].  In
    the two redirection branches [argCount - 1 + 1] is the [argCount--] of
    the branch followed by the [argCount++] that ends the loop body. *)
Fixpoint parse_loop (pid : Z) (fuel : nat) (token : option string)
    (save : string) (m : parser) : outcome parser :=
  match token with
  | None => Ok m
  | Some tok =>
      match fuel with
      | O => NoFuel
      | S fuel' =>
          match strstr tok "$$" with
          | Some k =>
              g' ← sprintf_pidString (cut k tok) pid (glob m) ;
              a' ← store (args m) (argCount m) PidStringPtr ;
              let '(token', save') := strtok save in
              parse_loop pid fuel' token' save'
                (Parser (argCount m + 1) a' (redir m) g')
          | None =>
              if streq tok "<" then
                let '(token1, save1) := strtok save in
                let r' := Redirs (ptr_of_token token1) (redir1 (redir m)) in
                let '(token2, save2) := strtok save1 in
                parse_loop pid fuel' token2 save2
                  (Parser (argCount m - 1 + 1) (args m) r' (glob m))
              else if streq tok ">" then
                let '(token1, save1) := strtok save in
                let r' := Redirs (redir0 (redir m)) (ptr_of_token token1) in
                let '(token2, save2) := strtok save1 in
                parse_loop pid fuel' token2 save2
                  (Parser (argCount m - 1 + 1) (args m) r' (glob m))
              else
                a' ← store (args m) (argCount m) (Tok tok) ;
                let '(token', save') := strtok save in
                parse_loop pid fuel' token' save'
                  (Parser (argCount m + 1) a' (redir m) (glob m))
          end
      end
  end.

(** The statements after the loop: the terminating null pointer and the
    test of the last argument against ["&"]. *)
Definition parse_finish (m : parser) : outcome parser :=
  a1 ← store (args m) (argCount m) NULL ;
  last ← load a1 (argCount m - 1) ;
  s ← string_at (glob m) last ;
  if streq s "&" then
    let g' := if disallow_background (glob m) =? 0
              then set_background 1 (glob m) else glob m in
    a2 ← store a1 (argCount m - 1) NULL ;
    Ok (Parser (argCount m) a2 (redir m) g')
  else Ok (Parser (argCount m) a1 (redir m) (glob m)).

(** [parseCommand(userInput, args, redir)]; its return value is the
    [argCount] field of the result. *)
Definition parseCommand (pid : Z) (userInput : string) (args0 : list ptr)
    (redir0 : redirs) (g : globals) : outcome parser :=
  let '(token, save) := strtok userInput in
  m ← parse_loop pid (S (String.length userInput)) token save
        (Parser 0 args0 redir0 g) ;
  parse_finish m.

(** ** The operating system and the trace of observable events *)

(** The ways the program opens a file: [O_RDONLY], [O_RDWR], [O_WRONLY]
    and [O_WRONLY | O_CREAT | O_TRUNC] with permission bits. *)
Inductive open_mode : Type :=
  | RdOnly | RdWr | WrOnly | WrCreatTrunc (perm : Z).

(** What the process does that can be observed from outside: its output and
    the system calls that matter for the job table.  [Printf] keeps the
    format string as the source writes it, with the integer arguments. *)
Inductive event : Type :=
  | Printf (fmt : string) (ints : list Z)
  | Fflush
  | Perror (msg : string)
  | Getline (result : option string)
  | Waitpid (pid options ret stat : Z)
  | Kill (pid sig : Z)
  | Fork (ret : Z)
  | Chdir (path : string)
  | Open (path : string) (mode : open_mode) (fd : Z)
  | Dup2 (fd target : Z)
  | Close (fd : Z)
  | SigintDefault
  | Execvp (file : string) (argv : list string).

(** The system calls of the program, as the operations of an operating
    system with a state of type [W].  [os_getline] answers [None] where
    [getline] returns -1, and else the characters read, whose number is the
    return value.  [os_waitpid] answers the return value and the status
    word found in [*stat] afterwards.  [os_sigtstp] tells how many times
    SIGTSTP has been delivered since it was last asked: the handler is run
    that many times at the points where the program reads the mode flags.
    [os_execvp] answers [true] when the process image is replaced. *)
Class OS (W : Type) : Type := {
  os_getpid : W → Z;
  os_sigtstp : W → nat * W;
  os_getline : W → option string * W;
  os_waitpid : Z → Z → W → Z * Z * W;
  os_kill : Z → Z → W → W;
  os_fork : W → Z * W;
  os_getenv : string → W → option string;
  os_chdir : string → W → W;
  os_open : string → open_mode → W → Z * W;
  os_close : Z → W → W;
  os_execvp : string → list string → W → bool
}.

Definition WNOHANG : Z := 1.
Definition SIGKILL : Z := 9.

(** The status macros of [<sys/wait.h>], as glibc defines them. *)
Definition WTERMSIG (stat : Z) : Z := Z.land stat 127.
Definition WEXITSTATUS (stat : Z) : Z := Z.shiftr (Z.land stat 65280) 8.
Definition WIFEXITED (stat : Z) : bool := WTERMSIG stat =? 0.
Definition WIFSIGNALED (stat : Z) : bool :=
  (0 <? WTERMSIG stat) && (WTERMSIG stat <? 127).

Section Shell.
Context {W : Type} `{OS W}.

(** A computation of the shell process: from the state of the operating
    system to the events emitted and the outcome, with the new state. *)
Definition comp (A : Type) : Type := W → list event * outcome (A * W).

Definition ret {A} (a : A) : comp A := λ w, ([], Ok (a, w)).

Global Instance comp_bind : MBind comp := λ A B f c w,
  match c w with
  | (t, Ok (a, w')) => let '(t', o) := f a w' in (t ++ t', o)
  | (t, Undefined why) => (t, Undefined why)
  | (t, Exited code) => (t, Exited code)
  | (t, Replaced) => (t, Replaced)
  | (t, NoFuel) => (t, NoFuel)
  end.

Definition emit (e : event) : comp unit := λ w, ([e], Ok ((), w)).

Definition lift {A} (o : outcome A) : comp A := λ w,
  ([], a ← o; Ok (a, w)).

Definition exit {A} (code : Z) : comp A := λ w, ([], Exited code).

Definition printf (fmt : string) (ints : list Z) : comp unit :=
  emit (Printf fmt ints).
Definition fflush : comp unit := emit Fflush.
Definition perror (msg : string) : comp unit := emit (Perror msg).

Definition getline : comp (option string) := λ w,
  let '(r, w') := os_getline w in ([Getline r], Ok (r, w')).
Definition waitpid (pid options : Z) : comp (Z * Z) := λ w,
  let '(r, stat, w') := os_waitpid pid options w in
  ([Waitpid pid options r stat], Ok ((r, stat), w')).
Definition kill (pid sig : Z) : comp unit := λ w,
  ([Kill pid sig], Ok ((), os_kill pid sig w)).
Definition fork : comp Z := λ w,
  let '(r, w') := os_fork w in ([Fork r], Ok (r, w')).
Definition getpid : comp Z := λ w, ([], Ok (os_getpid w, w)).
Definition getenv (name : string) : comp ptr := λ w,
  ([], Ok (ptr_of_token (os_getenv name w), w)).
Definition chdir (path : string) : comp unit := λ w,
  ([Chdir path], Ok ((), os_chdir path w)).
Definition open (path : string) (mode : open_mode) : comp Z := λ w,
  let '(fd, w') := os_open path mode w in
  ([Open path mode fd], Ok (fd, w')).
Definition execvp (file : string) (av : list string) : comp Z := λ w,
  ([Execvp file av],
   if os_execvp file av w then Replaced else Ok (-1, w)).
Definition signal_SIGINT_default : comp unit := emit SigintDefault.
Definition close (fd : Z) : comp unit := λ w,
  ([Close fd], Ok ((), os_close fd w)).
Definition dup2 (fd target : Z) : comp unit := emit (Dup2 fd target).

(** *** The mode controller *)

Definition catchSIGTSTP (g : globals) : globals :=
  let g1 := if disallow_background g =? 0
            then set_disallow_background 1 g
            else set_disallow_background 0 g in
  set_background_inform 1 g1.

(** The handler runs once for every SIGTSTP delivered so far. *)
Definition deliver_signals (g : globals) : comp globals := λ w,
  let '(n, w') := os_sigtstp w in ([], Ok (Nat.iter n catchSIGTSTP g, w')).

Definition backgroundInform (g : globals) : comp globals :=
  (if negb (background_inform g =? 0) && negb (disallow_background g =? 0)
   then printf "Entering foreground-only mode (& is now ignored)\n" []
   else if negb (background_inform g =? 0) && (disallow_background g =? 0)
   then printf "Exiting foreground-only mode\n" []
   else ret ());;
  fflush;;
  ret (set_background_inform 0 g).

(** [backgroundInform] as the shell process runs it.  SIGTSTP can be
    delivered between any two of its statements, and the handler writes
    the two flags that the function reads and the one that it writes.  The
    deliveries are taken at the points where they make a difference: before
    each read of a flag in the two tests, which the operator [&&] makes in
    turn (the second operand is read only when the first is not 0), and
    before the assignment that ends the function; a delivery during
    [printf] or [fflush] is taken at this last point, since no flag is read
    in between.  With no delivery at these points this is
    [backgroundInform]. *)
Definition inform_entering (g : globals) : comp (bool * globals) :=
  g1 ← deliver_signals g;              (* [background_inform &&] *)
  if background_inform g1 =? 0 then ret (false, g1)
  else
    g2 ← deliver_signals g1;           (* [&& disallow_background] *)
    ret (negb (disallow_background g2 =? 0), g2).

Definition inform_exiting (g : globals) : comp (bool * globals) :=
  g1 ← deliver_signals g;              (* [background_inform &&] *)
  if background_inform g1 =? 0 then ret (false, g1)
  else
    g2 ← deliver_signals g1;           (* [&& !disallow_background] *)
    ret (disallow_background g2 =? 0, g2).

Definition backgroundInform_signals (g : globals) : comp globals :=
  '(entering, g1) ← inform_entering g;
  g2 ← (if (entering : bool)
        then printf "Entering foreground-only mode (& is now ignored)\n" [];;
             ret g1
        else
          '(exiting, g2) ← inform_exiting g1;
          if (exiting : bool)
          then printf "Exiting foreground-only mode\n" [];; ret g2
          else ret g2);
  fflush;;
  g3 ← deliver_signals g2;             (* [background_inform = 0] *)
  ret (set_background_inform 0 g3).

(** *** The job table *)

(** One pass of the loop body of [resolveBGPID], at index [i]. *)
Definition resolve_slot (i : Z) (pids : list Z) : comp (list Z) :=
  p ← lift (load pids i);
  if p =? 0 then ret pids
  else
    '(r, stat) ← waitpid p WNOHANG;
    if r =? 0 then ret pids
    else
      printf "background pid %d is done: " [p];;
      (if WIFEXITED stat
       then printf "exit value %d\n" [WEXITSTATUS stat]
       else printf "terminated by signal %d\n" [WTERMSIG stat]);;
      fflush;;
      lift (store pids i 0).

(** [for (i = start; i < BGPID_ARR_SIZE; i++)], [n] iterations left. *)
Fixpoint resolveBGPID_from (n : nat) (i : Z) (pids : list Z)
  : comp (list Z) :=
  match n with
  | O => ret pids
  | S n' => pids' ← resolve_slot i pids;
            resolveBGPID_from n' (i + 1) pids'
  end.

Definition resolveBGPID (pids : list Z) : comp (list Z) :=
  resolveBGPID_from (Z.to_nat BGPID_ARR_SIZE) 0 pids.

(** The search loop of [placePID]; the second component is [placed]. *)
Fixpoint placePID_from (n : nat) (i : Z) (bgPIDs : list Z) (addPID : Z)
  : outcome (list Z * Z) :=
  match n with
  | O => Ok (bgPIDs, 0)
  | S n' =>
      p ← load bgPIDs i;
      if p =? 0 then a ← store bgPIDs i addPID; Ok (a, 1)
      else placePID_from n' (i + 1) bgPIDs addPID
  end.

Definition placePID (bgPIDs : list Z) (addPID : Z) : comp (list Z) :=
  '(a, placed) ←
    lift (placePID_from (Z.to_nat BGPID_ARR_SIZE) 0 bgPIDs addPID);
  if placed =? 0
  then perror "Couldn't track background process.";; exit 1
  else ret a.

Fixpoint scrubPIDArray_from (n : nat) (i : Z) (pids : list Z)
  : outcome (list Z) :=
  match n with
  | O => Ok pids
  | S n' => a ← store pids i 0; scrubPIDArray_from n' (i + 1) a
  end.

Definition scrubPIDArray (pids : list Z) : outcome (list Z) :=
  scrubPIDArray_from (Z.to_nat BGPID_ARR_SIZE) 0 pids.

Fixpoint killChildren_from (n : nat) (i : Z) (pids : list Z)
  : comp (list Z) :=
  match n with
  | O => ret pids
  | S n' =>
      p ← lift (load pids i);
      pids' ← (if p =? 0 then ret pids
                   else kill p SIGKILL;; lift (store pids i 0));
      killChildren_from n' (i + 1) pids'
  end.

Definition killChildren (pids : list Z) : comp (list Z) :=
  killChildren_from (Z.to_nat BGPID_ARR_SIZE) 0 pids.


(** *** Input acquisition *)

(** The value of an [int] that is assigned a wider integer: [numChars]
    is an [int] and [getline] returns a [ssize_t]. *)
Definition to_int (z : Z) : Z := (z + 2 ^ 31) `mod` 2 ^ 32 - 2 ^ 31.

(** The test of [getCommand] on the line read, [s] being the bytes that
    [getline] stored: the first byte is not the comment sign and
    [numChars > 1].  (A length that wraps to -1 takes the [clearerr]
    branch instead, and the loop goes on all the same.) *)
Definition accepted (s : string) : bool :=
  negb (starts_with "#" s) && (1 <? to_int (Z.of_nat (String.length s))).

(** [strlen]: the number of bytes before the first NUL. *)
Fixpoint strlen (s : string) : nat :=
  match s with
  | EmptyString => O
  | String c s' => if Ascii.eqb c "000" then O else S (strlen s')
  end.

(** The assignment that ends [getCommand], a NUL stored at the index
    [strlen - 1] of the line, on the bytes [s] that [getline] stored: the
    byte before the first NUL is overwritten, and the result is the C
    string then in the buffer.  When the first byte is itself NUL the index
    is [(size_t) -1], outside the buffer. *)
Definition chop (s : string) : outcome string :=
  match strlen s with
  | O => Undefined OutOfBounds
  | S k => Ok (cut k s)
  end.

(** One pass of the [while (1)] loop of [getCommand]; the last component
    is the line read when the loop is left by [break]. *)
Definition getCommand_cycle (g : globals) (pids : list Z)
  : comp (globals * list Z * option string) :=
  g2 ← backgroundInform_signals g;
  pids' ← resolveBGPID pids;
  printf ": " [];;
  fflush;;
  r ← getline;
  match r with
  | None => ret (g2, pids', None)        (* [clearerr(stdin)] *)
  | Some s => ret (g2, pids', if accepted s then Some s else None)
  end.

Fixpoint getCommand (fuel : nat) (g : globals) (pids : list Z)
  : comp (globals * list Z * string) :=
  match fuel with
  | O => λ _, ([], NoFuel)
  | S fuel' =>
      '(g', pids', r) ← getCommand_cycle g pids;
      match r with
      | Some s => userInput ← lift (chop s); ret (g', pids', userInput)
      | None => getCommand fuel' g' pids'
      end
  end.

(** *** Built-in commands, execution and clean-up *)

Definition exitShell (bgPIDs : list Z) (g : globals)
  : comp (list Z * globals) :=
  pids' ← killChildren bgPIDs;
  ret (pids', set_background 0 g).       (* after [free(userInput)] *)

Definition statusShell (lastStat : Z) (g : globals) : comp globals :=
  (if WIFEXITED lastStat
   then printf "exit value %d\n" [WEXITSTATUS lastStat]
   else printf "terminated by signal %d\n" [WTERMSIG lastStat]);;
  fflush;;
  ret (set_background 0 g).

(** [strcpy(path, src)] into [char path[PATH_STR_SZ]] *)
Definition strcpy_path (src : string) : outcome string :=
  if bool_decide (Z.of_nat (String.length src) < PATH_STR_SZ) then Ok src
  else Undefined BufferOverflow.

Definition cdShell (a : list ptr) (n : Z) (g : globals) : comp globals :=
  p ← (if n =? 1 then getenv "HOME" else lift (load a 1));
  src ← lift (string_at g p);
  path ← lift (strcpy_path src);
  chdir path;;
  ret (set_background 0 g).

(** The child after [fork]: it never returns to the loop. *)
Definition execChild (r : redirs) (a : list ptr) (g : globals)
    (inputFile outputFile : Z) : comp unit :=
  inputFile' ←
    match redir0 r with
    | NULL =>
        if negb (background g =? 0)
        then fd ← open "/dev/null" RdWr; dup2 fd 0;; ret fd
        else ret inputFile
    | p =>
        path ← lift (string_at g p);
        fd ← open path RdOnly;
        (if fd =? -1 then perror path;; exit 1 else ret ());;
        dup2 fd 0;; ret fd
    end;
  match redir1 r with
  | NULL =>
      if negb (background g =? 0) then
        fd ← match redir0 r with
             | NULL => ret inputFile'
             | _ => open "/dev/null" WrOnly
             end;
        dup2 fd 1
      else ret ()
  | p =>
      path ← lift (string_at g p);
      fd ← open path (WrCreatTrunc 420);        (* 0644 *)
      (if fd =? -1 then perror path;; exit 1 else ret ());;
      dup2 fd 1
  end;;
  (if background g =? 0 then signal_SIGINT_default else ret ());;
  a0 ← lift (load a 0);
  file ← lift (string_at g a0);
  av ← lift (argv g a);
  e ← execvp file av;
  if e <? 0 then perror file;; exit 1 else ret ().

(** The parent after [fork]; the result is the job table and [*lastStat]. *)
Definition execParent (spawnpid : Z) (pids : list Z) (lastStat : Z)
    (g : globals) : comp (list Z * Z) :=
  if background g =? 0 then
    '(_, stat) ← waitpid spawnpid 0;
    (if WIFSIGNALED stat
     then printf "terminated by signal %d\n" [WTERMSIG stat];; fflush
     else ret ());;
    ret (pids, stat)
  else
    pids' ← placePID pids spawnpid;
    printf "background pid is %d\n" [spawnpid];;
    fflush;;
    ret (pids', lastStat).

Definition scrubIO (inputFile outputFile : Z) : comp (redirs * Z * Z) :=
  inputFile' ← (if inputFile =? -5 then ret inputFile
                else close inputFile;; ret (-5));
  outputFile' ← (if outputFile =? -5 then ret outputFile
                 else close outputFile;; ret (-5));
  ret (Redirs NULL NULL, inputFile', outputFile').

Fixpoint cleanup_from (n : nat) (i : Z) (a : list ptr)
  : outcome (list ptr) :=
  match n with
  | O => Ok a
  | S n' => a' ← store a i NULL; cleanup_from n' (i + 1) a'
  end.

(** [cleanup(&userInput, args, argCount)]: the flag is reset, the line
    freed, the arguments set to null and [pidString] zeroed. *)
Definition cleanup (a : list ptr) (n : Z) (g : globals)
  : outcome (list ptr * globals) :=
  let g1 := set_background 0 g in
  a' ← cleanup_from (Z.to_nat n) 0 a;
  Ok (a', set_pidString "" g1).

End Shell.

(** ** The session loop *)

Section Session.
Context {W : Type} `{OS W}.

(** The globals and the local variables of [main]. *)
Record shell : Type := Shell {
  sh_glob : globals;
  sh_args : list ptr;
  sh_redir : redirs;
  sh_argCount : Z;
  sh_lastStat : Z;
  sh_outputFile : Z;
  sh_inputFile : Z;
  sh_spawnpid : Z;
  sh_pids : list Z
}.

(** The control points of [main]: at the head of its [while (1)]; at the
    head of the [while (1)] of [getCommand]; back from [getCommand] with
    the line in [userInput], about to call [parseCommand]; after
    [return]. *)
Inductive config : Type :=
  | AtLoop (s : shell)
  | Prompting (s : shell)
  | Parsing (s : shell) (userInput : string)
  | Returned (code : Z).

(** From [parseCommand] to [cleanup]: one line parsed and dispatched. *)
Definition dispatch (s : shell) (userInput : string) : comp config :=
  g ← deliver_signals (sh_glob s);
  pid ← getpid;
  m ← lift (parseCommand pid userInput (sh_args s) (sh_redir s) g);
  a0 ← lift (load (args m) 0);
  name ← lift (string_at (glob m) a0);
  if streq name "exit" then
    exitShell (sh_pids s) (glob m);;
    ret (Returned 0)
  else
    '(g', pids', lastStat', spawnpid') ←
      (if streq name "status" then
         g' ← statusShell (sh_lastStat s) (glob m);
         ret (g', sh_pids s, sh_lastStat s, sh_spawnpid s)
       else if streq name "cd" then
         g' ← cdShell (args m) (argCount m) (glob m);
         ret (g', sh_pids s, sh_lastStat s, sh_spawnpid s)
       else
         spawnpid ← fork;
         if spawnpid =? -1 then perror "Fork() problem!";; exit 1
         else if spawnpid =? 0 then
           execChild (redir m) (args m) (glob m)
             (sh_inputFile s) (sh_outputFile s);;
           ret (glob m, sh_pids s, sh_lastStat s, spawnpid)
         else
           '(pids', lastStat') ←
             execParent spawnpid (sh_pids s) (sh_lastStat s) (glob m);
           ret (glob m, pids', lastStat', spawnpid));
    '(a', g'') ← lift (cleanup (args m) (argCount m) g');
    ret (AtLoop (Shell g'' a' (redir m) (argCount m) lastStat'
                   (sh_outputFile s) (sh_inputFile s) spawnpid' pids')).

(** One move of [main] from a control point to the next. *)
Definition step (c : config) : comp config :=
  match c with
  | AtLoop s =>
      '(r, i, o) ← scrubIO (sh_inputFile s) (sh_outputFile s);
      ret (Prompting (Shell (sh_glob s) (sh_args s) r (sh_argCount s)
                        (sh_lastStat s) o i (sh_spawnpid s) (sh_pids s)))
  | Prompting s =>
      '(g, pids, r) ← getCommand_cycle (sh_glob s) (sh_pids s);
      let s' := Shell g (sh_args s) (sh_redir s) (sh_argCount s)
                  (sh_lastStat s) (sh_outputFile s) (sh_inputFile s)
                  (sh_spawnpid s) pids in
      match r with
      | Some line => userInput ← lift (chop line); ret (Parsing s' userInput)
      | None => ret (Prompting s')
      end
  | Parsing s userInput => dispatch s userInput
  | Returned code => ret (Returned code)
  end.

(** [main] up to its loop: the locals hold their initialisers, the arrays
    [args], [redir] and [backgroundPIDs] whatever the stack held, and
    [scrubPIDArray] has run. *)
Definition main_start (args0 : list ptr) (redir_junk : redirs)
    (pids_junk : list Z) : outcome config :=
  pids ← scrubPIDArray pids_junk;
  Ok (AtLoop (Shell globals_init args0 redir_junk 0 (-5) (-5) (-5) (-5)
                pids)).

(** A move that emits the events [t]. *)
Definition moves (cw : config * W) (t : list event) (cw' : config * W)
  : Prop :=
  step cw.1 cw.2 = (t, Ok cw').

(** The control points a run of [main] passes through. *)
Inductive reachable : config * W → Prop :=
  | reach_start args0 rj pj c w :
      length args0 = Z.to_nat NUM_ARGS →
      length pj = Z.to_nat BGPID_ARR_SIZE →
      main_start args0 rj pj = Ok c →
      reachable (c, w)
  | reach_step cw t cw' :
      reachable cw → moves cw t cw' → reachable cw'.

End Session.

(** ** A scripted operating system

    An operating system that answers from a script: the lines typed, the
    answers of [waitpid], the process identifiers [fork] hands out and the
    SIGTSTP deliveries.  It gives the programs above something to run on. *)

Record script : Type := Script {
  sc_pid : Z;
  sc_lines : list string;
  sc_waits : list (Z * Z);
  sc_forks : list Z;
  sc_signals : list nat
}.

Global Instance script_os : OS script := {|
  os_getpid w := sc_pid w;
  os_sigtstp w :=
    match sc_signals w with
    | [] => (0%nat, w)
    | n :: l => (n, Script (sc_pid w) (sc_lines w) (sc_waits w) (sc_forks w) l)
    end;
  os_getline w :=
    match sc_lines w with
    | [] => (None, w)
    | s :: l =>
        (Some s, Script (sc_pid w) l (sc_waits w) (sc_forks w) (sc_signals w))
    end;
  os_waitpid pid options w :=
    match sc_waits w with
    | [] => (0, 0, w)
    | (r, st) :: l =>
        (r, st, Script (sc_pid w) (sc_lines w) l (sc_forks w) (sc_signals w))
    end;
  os_kill _ _ w := w;
  os_fork w :=
    match sc_forks w with
    | [] => (-1, w)
    | p :: l =>
        (p, Script (sc_pid w) (sc_lines w) (sc_waits w) l (sc_signals w))
    end;
  os_getenv _ _ := Some "/";
  os_chdir _ w := w;
  os_open _ _ w := (3, w);
  os_close _ w := w;
  os_execvp _ _ _ := true
|}.

(** The newline that ends a line read by [getline]. *)
Definition nl : string := String "010" EmptyString.

(** ** Notions used to state the properties of the parser *)

(** Following the specification's words, "split the line on single-space
    delimiters": the fields between spaces, of which the empty ones are
    no tokens. *)
Fixpoint fields (s : string) : list string :=
  match s with
  | EmptyString => [EmptyString]
  | String c s' =>
      if Ascii.eqb c " " then EmptyString :: fields s'
      else match fields s' with
           | f :: fs => String c f :: fs
           | [] => [String c EmptyString]
           end
  end.

Definition whitespace_split (s : string) : list string :=
  filter (λ f, f ≠ EmptyString) (fields s).

(** The loop of [parseCommand] over the list of the tokens that [strtok]
    returns one after the other (see [parse_loop_scan]). *)
Fixpoint scan (pid : Z) (toks : list string) (m : parser) : outcome parser :=
  match toks with
  | [] => Ok m
  | tok :: rest =>
      match strstr tok "$$" with
      | Some k =>
          g' ← sprintf_pidString (cut k tok) pid (glob m);
          a' ← store (args m) (argCount m) PidStringPtr;
          scan pid rest (Parser (argCount m + 1) a' (redir m) g')
      | None =>
          if streq tok "<" then
            let m' t := Parser (argCount m - 1 + 1) (args m)
                          (Redirs (ptr_of_token t) (redir1 (redir m)))
                          (glob m) in
            match rest with
            | [] => Ok (m' None)
            | t1 :: rest' => scan pid rest' (m' (Some t1))
            end
          else if streq tok ">" then
            let m' t := Parser (argCount m - 1 + 1) (args m)
                          (Redirs (redir0 (redir m)) (ptr_of_token t))
                          (glob m) in
            match rest with
            | [] => Ok (m' None)
            | t1 :: rest' => scan pid rest' (m' (Some t1))
            end
          else
            a' ← store (args m) (argCount m) (Tok tok);
            scan pid rest (Parser (argCount m + 1) a' (redir m) (glob m))
      end
  end.

(** A redirection operator. *)
Definition is_redirect (t : string) : bool := streq t "<" || streq t ">".

(** The tokens in argument position: those that are neither a redirection
    operator nor the token that follows one. *)
Fixpoint arg_tokens (toks : list string) : list string :=
  match toks with
  | [] => []
  | t :: rest =>
      if is_redirect t then
        match rest with [] => [] | _ :: rest' => arg_tokens rest' end
      else t :: arg_tokens rest
  end.

(** The token list ends on a redirection operator that is still waiting
    for its target. *)
Fixpoint awaits_target (toks : list string) : bool :=
  match toks with
  | [] => false
  | t :: rest =>
      if is_redirect t then
        match rest with [] => true | _ :: rest' => awaits_target rest' end
      else awaits_target rest
  end.

(** The token contains the marker. *)
Definition expands (t : string) : bool := bool_decide (is_Some (strstr t "$$")).

(** What [sprintf] writes for a token: its text before the first marker,
    then the decimal process identifier. *)
Definition expansion (pid : Z) (t : string) : string :=
  match strstr t "$$" with
  | Some k => cut k t +:+ pretty pid
  | None => t
  end.

(** The expansion of the token fits the 50 bytes of [pidString], the
    terminating NUL included. *)
Definition fits (pid : Z) (t : string) : Prop :=
  expands t = true →
  (Z.of_nat (String.length (expansion pid t)) < PIDSTRING_SZ).

(** The content of [pidString] after the arguments [ats] have been stored:
    the expansion of the last one that has the marker. *)
Definition pidString_after (pid : Z) (ats : list string) (old : string)
  : string :=
  foldl (λ acc t, if expands t then expansion pid t else acc) old ats.

(** The pointer stored in [args] for a token in argument position. *)
Definition cell (t : string) : ptr :=
  if expands t then PidStringPtr else Tok t.

(** The redirection targets after the tokens have been scanned. *)
Fixpoint redir_after (toks : list string) (r : redirs) : redirs :=
  match toks with
  | [] => r
  | t :: rest =>
      if streq t "<" then
        match rest with
        | [] => Redirs NULL (redir1 r)
        | t1 :: rest' => redir_after rest' (Redirs (Tok t1) (redir1 r))
        end
      else if streq t ">" then
        match rest with
        | [] => Redirs (redir0 r) NULL
        | t1 :: rest' => redir_after rest' (Redirs (redir0 r) (Tok t1))
        end
      else redir_after rest r
  end.

(** The line can be parsed within the program's arrays: it has at least
    one argument, at most 512 (the 513 entries of [args] less the null
    pointer that ends them), and every expansion fits [pidString]. *)
Definition within_capacity (pid : Z) (toks : list string) : Prop :=
  (1 ≤ length (arg_tokens toks) ≤ 512)%nat ∧
  Forall (fits pid) (arg_tokens toks).

(** The string that an argument designates once the line is parsed. *)
Definition denotes (g : globals) (t : string) : string :=
  if expands t then pidString g else t.

(** The flag after the test of the last argument against the text of the
    background marker. *)
Definition mark_background (g : globals) : globals :=
  if disallow_background g =? 0 then set_background 1 g else g.

(** The events that [resolveBGPID] can emit on the table [pids]: the poll
    and the report of a process identifier that a slot holds, and what
    follows a report. *)
Definition reconcile_event (pids : list Z) (e : event) : Prop :=
  match e with
  | Waitpid p o _ _ => p ≠ 0 ∧ p ∈ pids ∧ o = WNOHANG
  | Printf fmt ints =>
      (fmt = "background pid %d is done: " ∧
       ∃ p, ints = [p] ∧ p ≠ 0 ∧ p ∈ pids) ∨
      fmt = "exit value %d\n" ∨ fmt = "terminated by signal %d\n"
  | Fflush => True
  | _ => False
  end.

(** What a pass of [resolveBGPID] with trace [t] has done about slot [k]:
    an empty slot is left empty; the process of an occupied slot has been
    polled, and the slot either still holds it, the poll having answered 0,
    or has been reported and freed. *)
Definition slot_reconciled (t : list event) (pids pids' : list Z) (k : nat)
  : Prop :=
  match pids !! k with
  | None => True
  | Some p =>
      if p =? 0 then pids' !! k = Some 0
      else ∃ r stat,
        Waitpid p WNOHANG r stat ∈ t ∧
        if r =? 0 then pids' !! k = Some p
        else pids' !! k = Some 0 ∧
             Printf "background pid %d is done: " [p] ∈ t
  end.

(** The report printed for a finished process. *)
Definition report (p stat : Z) : list event :=
  [Printf "background pid %d is done: " [p];
   if WIFEXITED stat then Printf "exit value %d\n" [WEXITSTATUS stat]
   else Printf "terminated by signal %d\n" [WTERMSIG stat];
   Fflush].

(** What [backgroundInform] prints: the notification of the mode entered,
    when one is pending, and the flush. *)
Definition inform_trace (g : globals) : list event :=
  (if negb (background_inform g =? 0) && negb (disallow_background g =? 0)
   then [Printf "Entering foreground-only mode (& is now ignored)\n" []]
   else if negb (background_inform g =? 0) && (disallow_background g =? 0)
   then [Printf "Exiting foreground-only mode\n" []]
   else []) ++ [Fflush].

(** The prompt. *)
Definition prompt : event := Printf ": " [].

Section Answers.
Context {W : Type} `{OS W}.

(** The answers of the operating system to the calls
    [waitpid(p, &stat, WNOHANG)] for the slots of [pids] that do not hold
    0, made one after the other: the value returned and the status
    stored. *)
Fixpoint poll_answers (pids : list Z) (w : W) : list (Z * Z) * W :=
  match pids with
  | [] => ([], w)
  | p :: rest =>
      if p =? 0 then poll_answers rest w
      else
        ((os_waitpid p WNOHANG w).1
           :: (poll_answers rest (os_waitpid p WNOHANG w).2).1,
         (poll_answers rest (os_waitpid p WNOHANG w).2).2)
  end.

(** No SIGTSTP is delivered at any of the next [k] points of delivery. *)
Fixpoint quiet (k : nat) (w : W) : Prop :=
  match k with
  | O => True
  | S k' => (os_sigtstp w).1 = 0%nat ∧ quiet k' (os_sigtstp w).2
  end.
End Answers.

(** What the reconciliation of the job table [pids] prints, and the table
    it leaves, given the answers to its polls: a slot that holds 0 is
    passed over; the process of any other slot is polled once; when the
    answer is not 0 the report of that process follows at once, and the
    slot is freed. *)
Fixpoint reconciliation (pids : list Z) (answers : list (Z * Z))
  : list event * list Z :=
  match pids with
  | [] => ([], [])
  | p :: rest =>
      if p =? 0
      then ((reconciliation rest answers).1,
            0 :: (reconciliation rest answers).2)
      else
        match answers with
        | [] => ([], pids)
        | (r, stat) :: answers' =>
            (Waitpid p WNOHANG r stat
               :: (if r =? 0 then [] else report p stat)
               ++ (reconciliation rest answers').1,
             (if r =? 0 then p else 0) :: (reconciliation rest answers').2)
        end
  end.

Section Repeat.
Context {W : Type} `{OS W}.

(** [n] calls of [resolveBGPID], one after the other. *)
Fixpoint resolveBGPID_times (n : nat) (pids : list Z) : comp (list Z) :=
  match n with
  | O => ret pids
  | S n' => pids' ← resolveBGPID pids; resolveBGPID_times n' pids'
  end.
End Repeat.

Section Invariant.
Context {W : Type} `{OS W}.

(** The background flag is 0 at a control point of [main]. *)
Definition flag_clear (c : config) : Prop :=
  match c with
  | AtLoop s | Prompting s | Parsing s _ => background (sh_glob s) = 0
  | Returned _ => True
  end.
End Invariant.

Section Run.
Context {W : Type} `{OS W}.

(** [n] moves of [main] in a row, when each of them returns. *)
Fixpoint run (n : nat) (c : config) (w : W) : option (config * W) :=
  match n with
  | O => Some (c, w)
  | S n' =>
      match step c w with
      | (_, Ok (c', w')) => run n' c' w'
      | _ => None
      end
  end.
End Run.

(** ** Notions used to state further properties of the code *)

(** The string has a space. *)
Fixpoint has_space (s : string) : bool :=
  match s with
  | EmptyString => false
  | String c s' => is_delim c || has_space s'
  end.

(** A word: not empty, without space. *)
Definition word (t : string) : Prop := t ≠ EmptyString ∧ has_space t = false.

Global Instance open_mode_eq_dec : EqDecision open_mode.
Proof. solve_decision. Defined.

Global Instance event_eq_dec : EqDecision event.
Proof. solve_decision. Defined.

(** The number of prompts in a trace. *)
Definition prompts (t : list event) : nat :=
  length (filter (λ e, e = prompt) t).

(** The string holds no NUL byte. *)
Definition nul_free (s : string) : Prop := strlen s = String.length s.


(** The process identifiers the slots of a job table hold. *)
Definition jobs (pids : list Z) : list Z := filter (λ p, p ≠ 0) pids.

(** The process identifiers polled in a trace, in order. *)
Definition polled (t : list event) : list Z :=
  omap (λ e, match e with Waitpid p _ _ _ => Some p | _ => None end) t.

Section Register.
Context {W : Type} `{OS W}.

(** [placePID] called for one process identifier after the other. *)
Fixpoint placePID_all (l : list Z) (bgPIDs : list Z) : @comp W (list Z) :=
  match l with
  | [] => ret bgPIDs
  | p :: l' => bgPIDs' ← placePID bgPIDs p; placePID_all l' bgPIDs'
  end.

(** The operating system after [kill(p, SIGKILL)] for each [p] of [l]. *)
Definition killed (l : list Z) (w : W) : W :=
  foldl (λ (w' : W) (p : Z), os_kill p SIGKILL w') w l.
End Register.

Section Settled.
Context {W : Type} `{OS W}.

(** The arrays of [main] have their declared sizes and no file descriptor
    is held. *)
Definition arrays_ok (s : shell) : Prop :=
  length (sh_args s) = Z.to_nat NUM_ARGS ∧
  length (sh_pids s) = Z.to_nat BGPID_ARR_SIZE ∧
  sh_inputFile s = -5 ∧ sh_outputFile s = -5.

(** What holds of the state at each control point of [main]. *)
Definition settled (c : config) : Prop :=
  match c with
  | AtLoop s => arrays_ok s
  | Prompting s => arrays_ok s ∧ sh_redir s = Redirs NULL NULL
  | Parsing s line =>
      arrays_ok s ∧ sh_redir s = Redirs NULL NULL ∧
      nul_free line ∧ starts_with "#" line = false
  | Returned _ => True
  end.
End Settled.

Section Child.
Context {W : Type} `{OS W}.

(** The three parts of [execChild]: the [if] chain on [redir[0]], the
    [if] chain on [redir[1]], and from the [signal] call on. *)
Definition child_stdin (r : redirs) (g : globals) (inputFile : Z)
  : @comp W Z :=
  match redir0 r with
  | NULL =>
      if negb (background g =? 0)
      then fd ← open "/dev/null" RdWr; dup2 fd 0;; ret fd
      else ret inputFile
  | p =>
      path ← lift (string_at g p);
      fd ← open path RdOnly;
      (if fd =? -1 then perror path;; exit 1 else ret ());;
      dup2 fd 0;; ret fd
  end.

Definition child_stdout (r : redirs) (g : globals) (inputFile' : Z)
  : @comp W unit :=
  match redir1 r with
  | NULL =>
      if negb (background g =? 0) then
        fd ← match redir0 r with
             | NULL => ret inputFile'
             | _ => open "/dev/null" WrOnly
             end;
        dup2 fd 1
      else ret ()
  | p =>
      path ← lift (string_at g p);
      fd ← open path (WrCreatTrunc 420);
      (if fd =? -1 then perror path;; exit 1 else ret ());;
      dup2 fd 1
  end.

Definition child_exec (a : list ptr) (g : globals) : @comp W unit :=
  (if background g =? 0 then signal_SIGINT_default else ret ());;
  a0 ← lift (load a 0);
  file ← lift (string_at g a0);
  av ← lift (argv g a);
  e ← execvp file av;
  if e <? 0 then perror file;; exit 1 else ret ().

End Child.

(** No [execvp] among the events. *)
Definition no_exec (t : list event) : Prop := ∀ f av, Execvp f av ∉ t.

(** Every [open] that failed was one of "/dev/null", which [execChild]
    opens with [O_RDWR] or [O_WRONLY]; the targets of redirections are
    opened with [O_RDONLY] and with [O_WRONLY | O_CREAT | O_TRUNC]. *)
Definition targets_opened (t : list event) : Prop :=
  ∀ path mode, Open path mode (-1) ∈ t → mode = RdWr ∨ mode = WrOnly.

(** How a child can end: as the program it executes, the [execvp] being
    its last event; with [exit(1)] right after a [perror]; or in undefined
    behaviour. *)
Definition child_end {A} (t : list event) (o : outcome A) : Prop :=
  match o with
  | Replaced => ∃ f av, last t = Some (Execvp f av)
  | Exited c => c = 1 ∧ ∃ msg, last t = Some (Perror msg)
  | Undefined _ => True
  | Ok _ | NoFuel => False
  end.

(** A part of [execChild] that may hand over to the next one. *)
Definition child_part {A} (t : list event) (o : outcome A) : Prop :=
  no_exec t ∧
  match o with
  | Ok _ => targets_opened t
  | _ => child_end t o
  end.

(** The command names that [main] runs itself. *)
Definition is_builtin (name : string) : bool :=
  streq name "exit" || streq name "status" || streq name "cd".

(** No [fork] among the events. *)
Definition no_fork (t : list event) : Prop := ∀ r, Fork r ∉ t.

(** A state of [main] between two commands: the locals at their
    initialisers, [args] never assigned, the job table [pids]. *)
Definition idle_shell (pids : list Z) : shell :=
  Shell globals_init (replicate 513 Undef) (Redirs NULL NULL) 0 (-5) (-5)
    (-5) (-5) pids.


(** * Properties *)

(** ** Tokens *)

Lemma skip_delims_length s :
  (String.length (skip_delims s) ≤ String.length s)%nat.
Proof. induction s as [|c s IH]; simpl; [lia|]. destruct (is_delim c); simpl; lia. Qed.

Lemma span_token_length s t r :
  span_token s = (t, r) →
  (String.length t + String.length r ≤ String.length s)%nat.
Proof.
  revert t r. induction s as [|c s IH]; intros t r; simpl.
  - intros [= <- <-]. simpl. lia.
  - destruct (is_delim c).
    + intros [= <- <-]. simpl. lia.
    + destruct (span_token s) as [t' r'] eqn:E. intros [= <- <-].
      specialize (IH _ _ eq_refl). simpl. lia.
Qed.

Lemma strtok_None s r : strtok s = (None, r) → r = EmptyString.
Proof.
  unfold strtok. destruct (skip_delims s) as [|c s']; [by intros [= <-]|].
  destruct (span_token _). discriminate.
Qed.

Lemma skip_delims_head s c s' : skip_delims s = String c s' → is_delim c = false.
Proof.
  induction s as [|d s IH]; simpl; [discriminate|].
  destruct (is_delim d) eqn:E; [done|]. by intros [= <- <-].
Qed.

Lemma strtok_Some s t r :
  strtok s = (Some t, r) →
  t ≠ EmptyString ∧ (String.length r < String.length s)%nat.
Proof.
  unfold strtok. pose proof (skip_delims_length s) as Hl.
  destruct (skip_delims s) as [|c s'] eqn:E; [discriminate|].
  apply skip_delims_head in E. revert Hl. 
  destruct (span_token (String c s')) as [t' r'] eqn:E'.
  intros Hl [= <- <-]. pose proof (span_token_length _ _ _ E') as Hs.
  simpl in E'. rewrite E in E'. destruct (span_token s'). injection E' as <- <-.
  split; [done|]. simpl in *. lia.
Qed.

Lemma strtok_all_fuel fuel1 fuel2 s :
  (String.length s < fuel1)%nat → (String.length s < fuel2)%nat →
  strtok_all fuel1 s = strtok_all fuel2 s.
Proof.
  revert fuel2 s. induction fuel1 as [|f1 IH]; intros [|f2] s H1 H2; try lia.
  simpl. destruct (strtok s) as [[t|] r] eqn:E; [|done].
  apply strtok_Some in E as [_ Hr]. f_equal. apply IH; lia.
Qed.

(** [tokens] lists the results of the successive calls of [strtok]. *)
Lemma tokens_unfold s :
  tokens s = match strtok s with
             | (Some t, r) => t :: tokens r
             | (None, _) => []
             end.
Proof.
  unfold tokens at 1. simpl. destruct (strtok s) as [[t|] r] eqn:E; [|done].
  apply strtok_Some in E as [_ Hr]. f_equal. apply strtok_all_fuel; lia.
Qed.

Lemma tokens_empty : tokens EmptyString = [].
Proof. reflexivity. Qed.

Lemma whitespace_split_skip s : whitespace_split (skip_delims s) = whitespace_split s.
Proof.
  induction s as [|c s IH]; [done|]. simpl. unfold is_delim.
  destruct (Ascii.eqb c " ") eqn:E; [|done].
  rewrite IH. unfold whitespace_split. simpl. rewrite E. 
  by rewrite filter_cons_False by (intros ?; done).
Qed.

Lemma fields_nonempty s : fields s ≠ [].
Proof. destruct s as [|c s]; simpl; [done|]. destruct (Ascii.eqb c " "); [done|]. by destruct (fields s). Qed.

Lemma span_token_fields s t r :
  span_token s = (t, r) →
  fields s = t :: fields r ∨ (fields s = [t] ∧ r = EmptyString).
Proof.
  revert t r. induction s as [|c s IH]; intros t r; simpl.
  - intros [= <- <-]. by right.
  - unfold is_delim. destruct (Ascii.eqb c " ").
    + intros [= <- <-]. by left.
    + destruct (span_token s) as [t' r'] eqn:E. intros [= <- <-].
      destruct (IH _ _ eq_refl) as [-> | [-> ->]]; [by left | by right].
Qed.

Lemma strtok_whitespace_split s :
  whitespace_split s = match strtok s with
                       | (Some t, r) => t :: whitespace_split r
                       | (None, _) => []
                       end.
Proof.
  rewrite <- whitespace_split_skip. unfold strtok.
  destruct (skip_delims s) as [|c s'] eqn:E; [done|].
  apply skip_delims_head in E.
  destruct (span_token (String c s')) as [t r] eqn:E'.
  assert (t ≠ EmptyString) as Ht.
  { simpl in E'. rewrite E in E'. destruct (span_token s'). by injection E' as <- <-. }
  unfold whitespace_split.
  destruct (span_token_fields _ _ _ E') as [-> | [-> ->]].
  - by rewrite filter_cons_True.
  - rewrite filter_cons_True by done. reflexivity.
Qed.

(** The tokens of [strtok] are the fields between spaces that are not
    empty. *)
Lemma tokens_whitespace_split s : tokens s = whitespace_split s.
Proof.
  remember (String.length s) as n eqn:Hn. revert s Hn.
  induction (lt_wf n) as [n _ IH]. intros s ->.
  rewrite tokens_unfold, strtok_whitespace_split.
  destruct (strtok s) as [[t|] r] eqn:E; [|done].
  apply strtok_Some in E as [_ Hr]. f_equal. by eapply IH.
Qed.

(** ** The loop of [parseCommand] runs over the tokens *)

Lemma parse_loop_scan pid fuel s m :
  (String.length s < fuel)%nat →
  (let '(token, save) := strtok s in parse_loop pid fuel token save m)
  = scan pid (tokens s) m.
Proof.
  revert s m. induction fuel as [|fuel IH]; intros s m Hs; [lia|].
  rewrite (tokens_unfold s).
  destruct (strtok s) as [[tok|] save] eqn:E.
  2:{ by destruct fuel. }
  apply strtok_Some in E as [_ Hsave].
  assert (String.length save < fuel)%nat as Hf by lia.
  cbn [parse_loop scan].
  destruct (strstr tok "$$") as [k|].
  { destruct (sprintf_pidString _ _ _) as [g'| | | |]; try done. cbn.
    destruct (store _ _ _) as [a'| | | |]; try done. cbn.
    by apply IH. }
  assert (∀ m', (let '(token1, save1) := strtok save in
                 let '(token2, save2) := strtok save1 in
                 parse_loop pid fuel token2 save2 (m' token1))
                = match tokens save with
                  | [] => Ok (m' None)
                  | t1 :: rest' => scan pid rest' (m' (Some t1))
                  end) as Hredir.
  { intros m'. rewrite (tokens_unfold save).
    destruct (strtok save) as [[t1|] save1] eqn:E1.
    - apply strtok_Some in E1 as [_ H1]. apply IH. lia.
    - apply strtok_None in E1 as ->. simpl. by destruct fuel. }
  destruct (streq tok "<").
  { rewrite <- (Hredir (λ t, Parser (argCount m - 1 + 1) (args m)
                          (Redirs (ptr_of_token t) (redir1 (redir m))) (glob m))).
    by destruct (strtok save) as [t1 s1], (strtok s1). }
  destruct (streq tok ">").
  { rewrite <- (Hredir (λ t, Parser (argCount m - 1 + 1) (args m)
                          (Redirs (redir0 (redir m)) (ptr_of_token t)) (glob m))).
    by destruct (strtok save) as [t1 s1], (strtok s1). }
  destruct (store _ _ _) as [a'| | | |]; try done. cbn. by apply IH.
Qed.

(** [parseCommand] in terms of the tokens of the line. *)
Lemma parseCommand_tokens pid line a r g :
  parseCommand pid line a r g
  = (m ← scan pid (tokens line) (Parser 0 a r g); parse_finish m).
Proof.
  unfold parseCommand.
  rewrite <- (parse_loop_scan pid (S (String.length line))) by lia.
  by destruct (strtok line).
Qed.

(** ** What the loop computes *)

Lemma bind_Ok {A B} (x : A) (f : A → outcome B) : (Ok x ≫= f) = f x.
Proof. reflexivity. Qed.

Lemma store_Ok {A} (a : list A) i x :
  0 ≤ i < Z.of_nat (length a) → store a i x = Ok (<[Z.to_nat i:=x]> a).
Proof. intros Hi. unfold store. by rewrite bool_decide_true. Qed.

Lemma store_middle {A} (pre suf : list A) (x y : A) :
  store (pre ++ x :: suf) (Z.of_nat (length pre)) y = Ok (pre ++ y :: suf).
Proof.
  unfold store. rewrite bool_decide_true.
  - rewrite Nat2Z.id. f_equal. rewrite insert_app_r_alt by lia.
    by rewrite Nat.sub_diag.
  - rewrite length_app. simpl. lia.
Qed.

Lemma load_middle {A} (pre suf : list A) (x : A) :
  load (pre ++ x :: suf) (Z.of_nat (length pre)) = Ok x.
Proof.
  unfold load. rewrite bool_decide_true by lia.
  by rewrite Nat2Z.id, list_lookup_middle.
Qed.

Lemma expands_Some t : expands t = true ↔ ∃ k, strstr t "$$" = Some k.
Proof. unfold expands. by rewrite bool_decide_eq_true. Qed.

Lemma expands_None t : expands t = false ↔ strstr t "$$" = None.
Proof.
  unfold expands. rewrite bool_decide_eq_false.
  by rewrite eq_None_not_Some.
Qed.

Lemma streq_eq a b : streq a b = true ↔ a = b.
Proof. apply String.eqb_eq. Qed.

Lemma is_redirect_expands t : is_redirect t = true → expands t = false.
Proof.
  unfold is_redirect. intros [->%streq_eq | ->%streq_eq]%orb_true_iff; reflexivity.
Qed.

Lemma set_pidString_twice s1 s2 g :
  set_pidString s1 (set_pidString s2 g) = set_pidString s1 g.
Proof. by destruct g. Qed.

Lemma set_pidString_id g : set_pidString (pidString g) g = g.
Proof. by destruct g. Qed.

(** The state in which the loop leaves [argCount], [args], [redir] and
    [pidString], when the arguments fit the arrays. *)
Lemma scan_spec pid toks pre suf r g :
  (length (arg_tokens toks) ≤ length suf)%nat →
  Forall (fits pid) (arg_tokens toks) →
  scan pid toks (Parser (Z.of_nat (length pre)) (pre ++ suf) r g)
  = Ok (Parser (Z.of_nat (length pre + length (arg_tokens toks)))
          (pre ++ map cell (arg_tokens toks)
               ++ drop (length (arg_tokens toks)) suf)
          (redir_after toks r)
          (set_pidString (pidString_after pid (arg_tokens toks) (pidString g))
             g)).
Proof.
  remember (length toks) as n eqn:Hn. revert toks pre suf r g Hn.
  induction (lt_wf n) as [n _ IH]. intros toks pre suf r g -> Hlen Hfit.
  destruct toks as [|tok rest].
  { simpl. rewrite Nat.add_0_r, drop_0. by rewrite set_pidString_id. }
  cbn [scan arg_tokens redir_after].
  assert (∀ pre' suf' r' g',
    (length (arg_tokens rest) ≤ length suf')%nat →
    Forall (fits pid) (arg_tokens rest) →
    scan pid rest (Parser (Z.of_nat (length pre')) (pre' ++ suf') r' g')
    = Ok (Parser (Z.of_nat (length pre' + length (arg_tokens rest)))
          (pre' ++ map cell (arg_tokens rest)
               ++ drop (length (arg_tokens rest)) suf')
          (redir_after rest r')
          (set_pidString (pidString_after pid (arg_tokens rest) (pidString g'))
             g'))) as IH1.
  { intros. eapply IH; [|done..]. simpl. lia. }
  cbn [arg_tokens] in Hlen, Hfit. revert Hlen Hfit.
  destruct (is_redirect tok) eqn:Hredir; intros Hlen Hfit.
  - (* a redirection operator and its target *)
    pose proof (is_redirect_expands _ Hredir) as ->%expands_None.
    cbn [glob args redir argCount].
    replace (Z.of_nat (length pre) - 1 + 1) with (Z.of_nat (length pre)) by lia.
    assert (∀ r', match rest with
                  | [] => Ok (Parser (Z.of_nat (length pre)) (pre ++ suf) (r' None) g)
                  | t1 :: rest' =>
                      scan pid rest' (Parser (Z.of_nat (length pre)) (pre ++ suf) (r' (Some t1)) g)
                  end
                  = Ok (Parser
                     (Z.of_nat (length pre + length
                        match rest with [] => [] | _ :: rest' => arg_tokens rest' end))
                     (pre ++ map cell match rest with [] => [] | _ :: rest' => arg_tokens rest' end
                        ++ drop (length match rest with [] => [] | _ :: rest' => arg_tokens rest' end) suf)
                     match rest with [] => r' None | t1 :: rest' => redir_after rest' (r' (Some t1)) end
                     (set_pidString (pidString_after pid
                        match rest with [] => [] | _ :: rest' => arg_tokens rest' end (pidString g)) g)))
      as Hop.
    { intros r'. destruct rest as [|t1 rest'].
      - simpl. rewrite Nat.add_0_r, drop_0. by rewrite set_pidString_id.
      - eapply IH; [|done..]. simpl. lia. }
    clear IH IH1.
    unfold is_redirect in Hredir.
    destruct (streq tok "<") eqn:E1.
    + rewrite (Hop (λ t, Redirs (ptr_of_token t) (redir1 r))). by destruct rest.
    + simpl in Hredir. rewrite Hredir.
      rewrite (Hop (λ t, Redirs (redir0 r) (ptr_of_token t))). by destruct rest.
  - (* a token in argument position *)
    unfold is_redirect in Hredir. apply orb_false_iff in Hredir as [E1 E2].
    apply Forall_cons in Hfit as [Hfit1 Hfit].
    destruct suf as [|x suf]; [simpl in Hlen; lia|]. simpl in Hlen.
    cbn [glob args redir argCount].
    assert (Z.of_nat (length pre) + 1 = Z.of_nat (length (pre ++ [cell tok])))
      as Hidx by (rewrite length_app; simpl; lia).
    assert (∀ g', scan pid rest
              (Parser (Z.of_nat (length pre) + 1) (pre ++ cell tok :: suf) r g')
            = Ok (Parser
                (Z.of_nat (length pre + length (tok :: arg_tokens rest)))
                (pre ++ map cell (tok :: arg_tokens rest)
                   ++ drop (length (tok :: arg_tokens rest)) (x :: suf))
                (redir_after rest r)
                (set_pidString
                   (pidString_after pid (arg_tokens rest) (pidString g')) g')))
      as Hstep.
    { intros g'. rewrite Hidx.
      replace (pre ++ cell tok :: suf) with ((pre ++ [cell tok]) ++ suf)
        by (by rewrite <- app_assoc).
      rewrite IH1 by (done || lia).
      rewrite length_app. simpl. rewrite <- !app_assoc. simpl.
      do 2 f_equal. lia. }
    destruct (strstr tok "$$") as [k|] eqn:Hk.
    + assert (expands tok = true) as Hex by (apply expands_Some; eauto).
      unfold sprintf_pidString. specialize (Hfit1 Hex).
      unfold expansion in Hfit1. rewrite Hk in Hfit1.
      rewrite bool_decide_true by done. cbn.
      rewrite store_middle. cbn.
      replace PidStringPtr with (cell tok) by (unfold cell; by rewrite Hex).
      rewrite Hstep, E1, E2. do 2 f_equal.
      rewrite set_pidString_twice. f_equal.
      unfold pidString_after. cbn [foldl]. rewrite Hex.
      unfold expansion. by rewrite Hk.
    + assert (expands tok = false) as Hex by (by apply expands_None).
      rewrite E1, E2. rewrite store_middle. cbn.
      replace (Tok tok) with (cell tok) by (unfold cell; by rewrite Hex).
      rewrite Hstep. do 3 f_equal. unfold pidString_after. cbn [foldl].
      by rewrite Hex.
Qed.

(** ** The decimal text of the process identifier *)

Lemma pretty_N_go_closed (P : string → Prop) :
  (∀ n s, P s → P (String (pretty_N_char n) s)) →
  ∀ x s, P s → P (pretty_N_go x s).
Proof.
  intros Hstep x. induction (N.lt_wf_0 x) as [x _ IH]. intros s Hs.
  destruct (decide (x = 0)%N) as [->|Hx]; [by rewrite pretty_N_go_0|].
  rewrite pretty_N_go_step by lia. apply IH; [|by apply Hstep].
  apply N.div_lt; lia.
Qed.

Lemma pretty_N_char_not_amp n : pretty_N_char n ≠ "&"%char.
Proof. unfold pretty_N_char. by repeat case_match. Qed.

(** The decimal text is never empty and never the text of ["&"]. *)
Lemma pretty_Z_shape (z : Z) :
  pretty z ≠ EmptyString ∧ pretty z ≠ "&".
Proof.
  assert (∀ p, pretty (N.pos p) ≠ EmptyString ∧ pretty (N.pos p) ≠ "&") as HN.
  { intros p. unfold pretty, pretty_N. rewrite decide_False by done.
    rewrite pretty_N_go_step by lia.
    apply (pretty_N_go_closed (λ s, s ≠ EmptyString ∧ s ≠ "&")).
    - intros n s _. split; [done|]. intros [= Hc _].
      by apply pretty_N_char_not_amp in Hc.
    - split; [done|]. intros [= Hc].
      by apply pretty_N_char_not_amp in Hc. }
  destruct z as [|p|p]; [done|apply HN|done].
Qed.

Lemma string_app_length (s1 s2 : string) :
  String.length (s1 +:+ s2) = (String.length s1 + String.length s2)%nat.
Proof. induction s1; simpl; [done|]. by f_equal. Qed.

Lemma expansion_not_amp pid t : expands t = true → expansion pid t ≠ "&".
Proof.
  intros [k Hk]%expands_Some. unfold expansion. rewrite Hk.
  destruct (pretty_Z_shape pid) as [H0 H1].
  destruct (cut k t) as [|c [|c' s]]; simpl.
  - done.
  - intros [= _ E]. done.
  - done.
Qed.

(** ** The result of [parseCommand] *)

Lemma string_at_cell g t : string_at g (cell t) = Ok (denotes g t).
Proof. unfold cell, denotes. by destruct (expands t). Qed.

Lemma argv_cells g ats rest :
  argv g (map cell ats ++ NULL :: rest) = Ok (map (denotes g) ats).
Proof.
  induction ats as [|t ats IH]; [done|].
  cbn [map app argv]. rewrite IH.
  unfold cell, denotes. by destruct (expands t).
Qed.

Lemma pidString_after_snoc pid ats t old :
  pidString_after pid (ats ++ [t]) old
  = if expands t then expansion pid t else pidString_after pid ats old.
Proof. unfold pidString_after. by rewrite foldl_snoc. Qed.

(** The statements after the loop, on the state the loop leaves. *)
Lemma parse_finish_spec pid ats t old y suf r g :
  pidString g = pidString_after pid (ats ++ [t]) old →
  parse_finish (Parser (Z.of_nat (length (ats ++ [t])))
                  (map cell (ats ++ [t]) ++ y :: suf) r g)
  = Ok (if streq t "&"
        then Parser (Z.of_nat (length (ats ++ [t])))
               (map cell ats ++ NULL :: NULL :: suf) r (mark_background g)
        else Parser (Z.of_nat (length (ats ++ [t])))
               (map cell (ats ++ [t]) ++ NULL :: suf) r g).
Proof.
  intros Hpid. unfold parse_finish. cbn [argCount args glob redir].
  rewrite <- (length_map cell (ats ++ [t])) at 1. rewrite store_middle. cbn.
  rewrite map_app. cbn [map]. rewrite <- app_assoc. cbn [app].
  replace (Z.of_nat (length (ats ++ [t])) - 1)
    with (Z.of_nat (length (map cell ats)))
    by (rewrite length_app, length_map; simpl; lia).
  rewrite load_middle. cbn. rewrite string_at_cell. cbn.
  unfold denotes. rewrite Hpid, pidString_after_snoc.
  destruct (expands t) eqn:Hex.
  - destruct (streq (expansion pid t) "&") eqn:E.
    { apply streq_eq in E. by apply expansion_not_amp in E. }
    destruct (streq t "&") eqn:E'; [|done].
    apply streq_eq in E' as ->. done.
  - destruct (streq t "&"); [|done].
    rewrite store_middle. cbn. done.
Qed.

Lemma snoc_inv {A} (l : list A) : l ≠ [] → ∃ l' x, l = l' ++ [x].
Proof.
  intros Hl. destruct l using rev_ind; [done|]. eauto.
Qed.

(** [parseCommand] on a line that fits the arrays: the loop, then the
    statements after it. *)
Lemma parseCommand_spec pid line a r g ats t :
  length a = Z.to_nat NUM_ARGS →
  arg_tokens (tokens line) = ats ++ [t] →
  (length ats < 512)%nat →
  Forall (fits pid) (ats ++ [t]) →
  let g1 := set_pidString (pidString_after pid (ats ++ [t]) (pidString g)) g in
  parseCommand pid line a r g
  = Ok (if streq t "&"
        then Parser (Z.of_nat (length (ats ++ [t])))
               (map cell ats ++ NULL :: NULL :: drop (S (S (length ats))) a)
               (redir_after (tokens line) r) (mark_background g1)
        else Parser (Z.of_nat (length (ats ++ [t])))
               (map cell (ats ++ [t]) ++ NULL :: drop (S (S (length ats))) a)
               (redir_after (tokens line) r) g1).
Proof.
  intros Ha Hats Hlen Hfit g1. rewrite parseCommand_tokens.
  change (Parser 0 a r g)
    with (Parser (Z.of_nat (length (@nil ptr))) ([] ++ a) r g).
  rewrite scan_spec; rewrite Hats;
    [|rewrite length_app, Ha; unfold NUM_ARGS; simpl; lia|done].
  rewrite length_app. cbn.
  assert (∃ y, drop (length ats + 1) a = y :: drop (S (S (length ats))) a)
    as [y Hy].
  { destruct (drop (length ats + 1) a) as [|y suf] eqn:E.
    - apply (f_equal length) in E. rewrite length_drop, Ha in E.
      unfold NUM_ARGS in E. simpl in E. lia.
    - exists y. f_equal.
      replace (S (S (length ats))) with ((length ats + 1) + 1)%nat by lia.
      by rewrite <- drop_drop, E. }
  rewrite Hy. replace (length ats + 1)%nat with (length (ats ++ [t]))
    by (rewrite length_app; simpl; lia).
  rewrite (parse_finish_spec pid ats t (pidString g)); [|done].
  by destruct (streq t "&").
Qed.

Lemma mark_background_pidString g :
  pidString (mark_background g) = pidString g.
Proof. unfold mark_background. by destruct (_ =? _), g. Qed.

Lemma denotes_mark_background g t :
  denotes (mark_background g) t = denotes g t.
Proof. unfold denotes. by rewrite mark_background_pidString. Qed.

(** The result of [parseCommand] on a line that fits the arrays, field by
    field; [t] is the last token in argument position. *)
Lemma parseCommand_result pid line a r g :
  length a = Z.to_nat NUM_ARGS →
  within_capacity pid (tokens line) →
  ∃ m init t,
    arg_tokens (tokens line) = init ++ [t] ∧
    parseCommand pid line a r g = Ok m ∧
    argCount m = Z.of_nat (S (length init)) ∧
    redir m = redir_after (tokens line) r ∧
    glob m = (if streq t "&" then mark_background else id)
               (set_pidString
                  (pidString_after pid (init ++ [t]) (pidString g)) g) ∧
    (∀ i x, init !! i = Some x → args m !! i = Some (cell x)) ∧
    args m !! length init = Some (if streq t "&" then NULL else cell t) ∧
    argv (glob m) (args m)
    = Ok (map (denotes (glob m)) (if streq t "&" then init else init ++ [t])).
Proof.
  intros Ha [[Hlo Hhi] Hfit].
  destruct (snoc_inv (arg_tokens (tokens line))) as (init & t & Hats).
  { intros E. rewrite E in Hlo. simpl in Hlo. lia. }
  rewrite Hats in Hhi, Hfit. rewrite length_app in Hhi. simpl in Hhi.
  pose proof (parseCommand_spec pid line a r g init t Ha Hats) as Hspec.
  cbv zeta in Hspec. rewrite Hspec by (done || lia). clear Hspec.
  eexists _, init, t. split; [done|]. split; [done|].
  assert (∀ i x suf, init !! i = Some x →
            (map cell init ++ suf) !! i = Some (cell x)) as Hinit.
  { intros i x suf Hi. rewrite lookup_app_l.
    - by rewrite list_lookup_fmap, Hi.
    - rewrite length_map. by eapply lookup_lt_Some. }
  destruct (streq t "&") eqn:Et; cbn [argCount redir glob args].
  - rewrite length_app. simpl.
    split; [f_equal; lia|]. split; [done|]. split; [done|].
    split; [intros; by apply Hinit|].
    split.
    + rewrite <- (length_map cell init) at 1. by rewrite list_lookup_middle.
    + by rewrite argv_cells.
  - rewrite length_app. simpl.
    split; [f_equal; lia|]. split; [done|]. split; [done|].
    split; [|split].
    + intros i x Hi. rewrite map_app, <- app_assoc. by apply Hinit.
    + rewrite map_app, <- app_assoc. cbn [map app].
      rewrite <- (length_map cell init) at 1. by rewrite list_lookup_middle.
    + by rewrite argv_cells.
Qed.

(** ** Lines without redirection operators or markers *)

(** Closes [x ∉ l] for a list [l] of literals. *)
Ltac not_in_list :=
  let Hin := fresh "Hin" in
  intros Hin;
  repeat (apply elem_of_cons in Hin as [Hin|Hin]; [discriminate|]);
  by apply elem_of_nil in Hin.

Lemma is_redirect_false t : t ≠ "<" → t ≠ ">" → is_redirect t = false.
Proof.
  intros H1 H2. unfold is_redirect. apply orb_false_iff.
  split; apply not_true_iff_false; by rewrite streq_eq.
Qed.

Lemma arg_tokens_no_redirect toks :
  "<" ∉ toks → ">" ∉ toks → arg_tokens toks = toks.
Proof.
  induction toks as [|t toks IH]; [done|].
  intros [H1 H1']%not_elem_of_cons [H2 H2']%not_elem_of_cons. simpl.
  rewrite is_redirect_false by done. f_equal. by apply IH.
Qed.

Lemma redir_after_no_redirect toks r :
  "<" ∉ toks → ">" ∉ toks → redir_after toks r = r.
Proof.
  induction toks as [|t toks IH]; [done|].
  intros [H1 H1']%not_elem_of_cons [H2 H2']%not_elem_of_cons. simpl.
  pose proof (is_redirect_false t) as Hr. unfold is_redirect in Hr.
  apply orb_false_iff in Hr as [-> ->]; [|done..]. by apply IH.
Qed.

Lemma pidString_after_no_marker pid ats old :
  Forall (λ t, expands t = false) ats → pidString_after pid ats old = old.
Proof.
  unfold pidString_after. induction 1 as [|t ats Ht _ IH]; [done|].
  cbn [foldl]. by rewrite Ht.
Qed.

Lemma denotes_no_marker g ats :
  Forall (λ t, expands t = false) ats → map (denotes g) ats = ats.
Proof.
  induction 1 as [|t ats Ht _ IH]; [done|].
  cbn [map]. unfold denotes at 1. rewrite Ht. by f_equal.
Qed.

Lemma fits_no_marker pid ats :
  Forall (λ t, expands t = false) ats → Forall (fits pid) ats.
Proof.
  intros Hno. eapply Forall_impl; [exact Hno|].
  intros t Ht. unfold fits. by rewrite Ht.
Qed.

(** C3 (as amended): for every command line with between 1 and 512 tokens,
    none of them the operator "<" or ">", none containing the marker "$$",
    and the last one not "&", [parseCommand] returns, and the argument
    list it leaves is the list obtained by splitting the line at the space
    character, every token verbatim and in order; the redirection targets
    and the globals are untouched. *)
Theorem parseCommand_plain_line pid line a r g :
  length a = Z.to_nat NUM_ARGS →
  whitespace_split line ≠ [] →
  (length (whitespace_split line) ≤ 512)%nat →
  "<" ∉ whitespace_split line →
  ">" ∉ whitespace_split line →
  Forall (λ t, strstr t "$$" = None) (whitespace_split line) →
  last (whitespace_split line) ≠ Some "&" →
  ∃ m, parseCommand pid line a r g = Ok m ∧
       argv (glob m) (args m) = Ok (whitespace_split line) ∧
       argCount m = Z.of_nat (length (whitespace_split line)) ∧
       redir m = r ∧ glob m = g.
Proof.
  rewrite <- tokens_whitespace_split.
  intros Ha Hne Hlen Hin Hout Hplain Hlast.
  assert (Forall (λ t, expands t = false) (tokens line)) as Hno.
  { eapply Forall_impl; [exact Hplain|]. intros t. by rewrite expands_None. }
  pose proof (arg_tokens_no_redirect _ Hin Hout) as Hargs.
  destruct (parseCommand_result pid line a r g Ha)
    as (m & init & t & Hats & Hm & Hcount & Hredir & Hglob & _ & _ & Hargv).
  { split; rewrite Hargs; [|by apply fits_no_marker].
    destruct (tokens line); [done|simpl in *; lia]. }
  rewrite Hargs in Hats.
  assert (streq t "&" = false) as Hamp.
  { apply not_true_iff_false. rewrite streq_eq. intros ->.
    apply Hlast. rewrite Hats. apply last_snoc. }
  rewrite Hamp in Hglob, Hargv. rewrite <- Hats in Hglob, Hargv.
  exists m. split; [done|].
  assert (glob m = g) as Hg.
  { rewrite Hglob. simpl. rewrite pidString_after_no_marker by done.
    apply set_pidString_id. }
  split; [by rewrite Hargv, denotes_no_marker|].
  split; [rewrite Hcount, Hats, length_app; simpl; f_equal; lia|].
  split; [by rewrite Hredir, redir_after_no_redirect|done].
Qed.

Lemma parseCommand_plain_line_witness :
  ∃ m, parseCommand 4242 "ls  -la /tmp" (replicate 513 Undef)
         (Redirs NULL NULL) globals_init = Ok m ∧
       argv (glob m) (args m) = Ok ["ls"; "-la"; "/tmp"] ∧
       argCount m = 3 ∧
       redir m = Redirs NULL NULL ∧ glob m = globals_init.
Proof.
  apply (parseCommand_plain_line 4242 "ls  -la /tmp" (replicate 513 Undef)
           (Redirs NULL NULL) globals_init).
  - reflexivity.
  - vm_compute. discriminate.
  - vm_compute. lia.
  - vm_compute. not_in_list.
  - vm_compute. not_in_list.
  - vm_compute. repeat constructor.
  - vm_compute. discriminate.
Defined.

(** The marker is expanded even when the line has no redirection and no
    background sign: the argument is not the token. *)
Lemma expansion_is_not_verbatim :
  ("<" ∉ whitespace_split "echo $$") ∧
  (">" ∉ whitespace_split "echo $$") ∧
  last (whitespace_split "echo $$") ≠ Some "&" ∧
  ∃ m, parseCommand 4242 "echo $$" (replicate 513 Undef)
         (Redirs NULL NULL) globals_init = Ok m ∧
       argv (glob m) (args m) = Ok ["echo"; "4242"] ∧
       argv (glob m) (args m) ≠ Ok (whitespace_split "echo $$").
Proof.
  split; [|split; [|split]].
  - vm_compute. not_in_list.
  - vm_compute. not_in_list.
  - vm_compute. discriminate.
  - eexists. split; [vm_compute; reflexivity|]. split; [vm_compute; reflexivity|].
    vm_compute. discriminate.
Qed.

(** ** Lines put together from two token lists *)

Lemma arg_tokens_app ts us :
  awaits_target ts = false →
  arg_tokens (ts ++ us) = arg_tokens ts ++ arg_tokens us.
Proof.
  remember (length ts) as n eqn:Hn. revert ts Hn.
  induction (lt_wf n) as [n _ IH]. intros ts -> Hts.
  destruct ts as [|t ts]; [done|]. cbn [app arg_tokens awaits_target] in *.
  destruct (is_redirect t).
  - destruct ts as [|t1 ts]; [done|]. cbn [app].
    eapply IH; [|done..]. simpl. lia.
  - cbn [app]. f_equal. eapply IH; [|done..]. simpl. lia.
Qed.

Lemma strstr_redirect t k :
  strstr t "$$" = Some k → streq t "<" = false ∧ streq t ">" = false.
Proof.
  intros Hk. split; apply not_true_iff_false; rewrite streq_eq; by intros ->.
Qed.

(** Scanning a token list that does not end on an operator awaiting its
    target, then more tokens. *)
Lemma scan_app pid ts us m :
  awaits_target ts = false →
  scan pid (ts ++ us) m = (m' ← scan pid ts m; scan pid us m').
Proof.
  remember (length ts) as n eqn:Hn. revert ts m Hn.
  induction (lt_wf n) as [n _ IH]. intros ts m -> Hts.
  destruct ts as [|t ts]; [done|].
  cbn [app scan awaits_target] in *. unfold is_redirect in Hts.
  destruct (strstr t "$$") as [k|] eqn:Hk.
  { apply strstr_redirect in Hk as [E1 E2]. rewrite E1, E2 in Hts.
    destruct (sprintf_pidString _ _ _) as [g'| | | |]; try done. cbn.
    destruct (store _ _ _) as [a'| | | |]; try done. cbn.
    eapply IH; [|done..]. simpl. lia. }
  destruct (streq t "<").
  { destruct ts as [|t1 ts]; [done|]. cbn [app].
    eapply IH; [|done..]. simpl. lia. }
  destruct (streq t ">").
  { destruct ts as [|t1 ts]; [done|]. cbn [app].
    eapply IH; [|done..]. simpl. lia. }
  destruct (store _ _ _) as [a'| | | |]; try done. cbn.
  eapply IH; [|done..]. simpl. lia.
Qed.

(** ** The marker and its expansion *)

Lemma cut_app pre s : cut (String.length pre) (pre +:+ s) = pre.
Proof.
  induction pre as [|c pre IH]; [done|].
  change (String c pre +:+ s) with (String c (pre +:+ s)).
  cbn [String.length cut]. by f_equal.
Qed.

Lemma starts_with_marker_head c s1 s2 :
  starts_with "$$" (String c (s1 +:+ "$" +:+ s2))
  = starts_with "$$" (String c (s1 +:+ "$")).
Proof.
  cbn [starts_with]. destruct (Ascii.eqb "$" c); [|done].
  by destruct s1 as [|d s1].
Qed.

(** The first marker of the token [pre ++ "$$" ++ post] is at the length of
    [pre] when no marker starts inside [pre]. *)
Lemma strstr_first_marker pre post :
  strstr (pre +:+ "$") "$$" = None →
  strstr (pre +:+ "$$" +:+ post) "$$" = Some (String.length pre).
Proof.
  induction pre as [|c pre IH]; [done|].
  change (String c pre +:+ "$$" +:+ post)
    with (String c (pre +:+ "$" +:+ ("$" +:+ post))).
  change (String c pre +:+ "$") with (String c (pre +:+ "$")).
  cbn [strstr]. rewrite starts_with_marker_head.
  destruct (starts_with "$$" (String c (pre +:+ "$"))); [done|].
  destruct (strstr (pre +:+ "$") "$$") eqn:E; [done|]. intros _.
  change (pre +:+ "$" +:+ "$" +:+ post) with (pre +:+ "$$" +:+ post).
  by rewrite IH.
Qed.

Lemma expansion_first_marker pid pre post :
  strstr (pre +:+ "$") "$$" = None →
  expands (pre +:+ "$$" +:+ post) = true ∧
  expansion pid (pre +:+ "$$" +:+ post) = pre +:+ pretty pid.
Proof.
  intros H%(strstr_first_marker pre post). split.
  - apply expands_Some. eauto.
  - unfold expansion. by rewrite H, cut_app.
Qed.

Lemma pidString_after_last pid l1 t l2 old :
  expands t = true →
  Forall (λ u, expands u = false) l2 →
  pidString_after pid (l1 ++ t :: l2) old = expansion pid t.
Proof.
  intros Ht Hl2. unfold pidString_after. rewrite foldl_app. cbn [foldl].
  rewrite Ht. by apply pidString_after_no_marker.
Qed.

(** ** When [parseCommand] returns, the line was within capacity *)

Lemma store_Ok_inv {A} (a a' : list A) i x :
  store a i x = Ok a' → 0 ≤ i < Z.of_nat (length a).
Proof. unfold store. by case_bool_decide. Qed.

Lemma load_Ok_inv {A} (a : list A) i x : load a i = Ok x → 0 ≤ i.
Proof. unfold load. by case_bool_decide. Qed.

Lemma scan_Ok_capacity pid toks pre suf r g m' :
  scan pid toks (Parser (Z.of_nat (length pre)) (pre ++ suf) r g) = Ok m' →
  (length (arg_tokens toks) ≤ length suf)%nat ∧
  Forall (fits pid) (arg_tokens toks).
Proof.
  remember (length toks) as n eqn:Hn. revert toks pre suf r g Hn.
  induction (lt_wf n) as [n _ IH]. intros toks pre suf r g -> Hscan.
  destruct toks as [|tok rest]; [simpl; split; [lia|done]|].
  cbn [scan arg_tokens] in *. cbn [argCount args redir glob] in Hscan.
  replace (Z.of_nat (length pre) - 1 + 1) with (Z.of_nat (length pre))
    in Hscan by lia.
  assert (∀ x g', scan pid rest
            (Parser (Z.of_nat (length pre) + 1)
               (<[Z.to_nat (Z.of_nat (length pre)):=x]> (pre ++ suf)) r g')
            = Ok m' →
          0 ≤ Z.of_nat (length pre) < Z.of_nat (length (pre ++ suf)) →
          (length (tok :: arg_tokens rest) ≤ length suf)%nat ∧
          Forall (fits pid) (arg_tokens rest)) as Harg.
  { intros x g' Hrest Hidx. rewrite length_app in Hidx.
    destruct suf as [|y suf]; [simpl in Hidx; lia|].
    rewrite Nat2Z.id, insert_app_r_alt, Nat.sub_diag in Hrest by lia.
    cbn [insert list_insert] in Hrest.
    replace (Z.of_nat (length pre) + 1)
      with (Z.of_nat (length (pre ++ [x]))) in Hrest
      by (rewrite length_app; simpl; lia).
    replace (pre ++ x :: suf) with ((pre ++ [x]) ++ suf) in Hrest
      by (by rewrite <- app_assoc).
    destruct (IH (length rest) ltac:(simpl; lia) rest (pre ++ [x]) suf r g'
                eq_refl Hrest) as [Hlen Hfit].
    split; [simpl; lia|done]. }
  destruct (strstr tok "$$") as [k|] eqn:Hk.
  - destruct (strstr_redirect _ _ Hk) as [E1 E2].
    unfold is_redirect. rewrite E1, E2. cbn [orb].
    unfold sprintf_pidString in Hscan.
    case_bool_decide as Hfit; [|done]. rewrite bind_Ok in Hscan.
    destruct (store _ _ _) as [a'| | | |] eqn:Hstore; try done.
    rewrite bind_Ok in Hscan.
    pose proof (store_Ok_inv _ _ _ _ Hstore) as Hidx.
    unfold store in Hstore. rewrite bool_decide_true in Hstore by done.
    injection Hstore as <-.
    destruct (Harg _ _ Hscan Hidx) as [Hlen Hfits].
    split; [done|]. constructor; [|done].
    intros _. unfold expansion. by rewrite Hk.
  - unfold is_redirect.
    destruct (streq tok "<").
    { cbn [orb]. destruct rest as [|t1 rest]; [simpl; split; [lia|done]|].
      exact (IH (length rest) ltac:(simpl; lia) rest pre suf _ g eq_refl Hscan). }
    destruct (streq tok ">").
    { cbn [orb]. destruct rest as [|t1 rest]; [simpl; split; [lia|done]|].
      exact (IH (length rest) ltac:(simpl; lia) rest pre suf _ g eq_refl Hscan). }
    cbn [orb].
    destruct (store _ _ _) as [a'| | | |] eqn:Hstore; try done.
    rewrite bind_Ok in Hscan.
    pose proof (store_Ok_inv _ _ _ _ Hstore) as Hidx.
    unfold store in Hstore. rewrite bool_decide_true in Hstore by done.
    injection Hstore as <-.
    destruct (Harg _ _ Hscan Hidx) as [Hlen Hfits].
    split; [done|]. constructor; [|done].
    intros Hex. apply expands_Some in Hex as [k' Hex]. congruence.
Qed.

(** [parseCommand] returns only on the lines that are within capacity. *)
Lemma parseCommand_Ok_capacity pid line a r g m :
  length a = Z.to_nat NUM_ARGS →
  parseCommand pid line a r g = Ok m →
  within_capacity pid (tokens line).
Proof.
  intros Ha Hparse. rewrite parseCommand_tokens in Hparse.
  change (Parser 0 a r g)
    with (Parser (Z.of_nat (length (@nil ptr))) ([] ++ a) r g) in Hparse.
  destruct (scan pid (tokens line) _) as [m1| | | |] eqn:Hscan; try done.
  rewrite bind_Ok in Hparse.
  pose proof (scan_Ok_capacity _ _ _ _ _ _ _ Hscan) as [Hlen Hfit].
  rewrite scan_spec in Hscan by done. injection Hscan as <-.
  unfold parse_finish in Hparse. cbn [argCount args redir glob] in Hparse.
  destruct (store _ _ NULL) as [a1| | | |] eqn:Hstore; try done.
  rewrite bind_Ok in Hparse.
  destruct (load a1 _) as [p| | | |] eqn:Hload; try done.
  apply store_Ok_inv in Hstore. apply load_Ok_inv in Hload.
  rewrite !length_app, length_map, length_drop in Hstore.
  cbn [length app] in *. rewrite Ha in *. unfold NUM_ARGS in *.
  split; [lia|done].
Qed.

(** ** Expansion of the marker *)

Lemma amp_no_marker t : streq t "&" = true → expands t = false.
Proof. by intros ->%streq_eq. Qed.

(** The entries of [args] for the tokens that contain the marker, and the
    content of [pidString], after [parseCommand]. *)
Lemma parseCommand_marker_entries pid line a r g :
  length a = Z.to_nat NUM_ARGS →
  within_capacity pid (tokens line) →
  ∃ m, parseCommand pid line a r g = Ok m ∧
    (∀ i t, arg_tokens (tokens line) !! i = Some t →
            expands t = true →
            args m !! i = Some PidStringPtr ∧
            string_at (glob m) PidStringPtr = Ok (pidString (glob m))) ∧
    (∀ l1 t l2, arg_tokens (tokens line) = l1 ++ t :: l2 →
                expands t = true →
                Forall (λ u, expands u = false) l2 →
                pidString (glob m) = expansion pid t).
Proof.
  intros Ha Hcap.
  destruct (parseCommand_result pid line a r g Ha Hcap)
    as (m & init & tl & Hats & Hm & _ & _ & Hglob & Hinit & Hlast & _).
  exists m. split; [done|]. split.
  - intros i t Hi Ht. split; [|done]. rewrite Hats in Hi.
    apply lookup_app_Some in Hi as [Hi | [Hge Hi]].
    + rewrite (Hinit _ _ Hi). unfold cell. by rewrite Ht.
    + apply list_lookup_singleton_Some in Hi as [Hi ->].
      replace i with (length init) by lia. rewrite Hlast.
      destruct (streq t "&") eqn:E.
      * apply amp_no_marker in E. congruence.
      * unfold cell. by rewrite Ht.
  - intros l1 t l2 Hsplit Ht Hl2.
    assert (pidString (glob m)
            = pidString_after pid (init ++ [tl]) (pidString g)) as ->.
    { rewrite Hglob. destruct (streq tl "&"); [rewrite mark_background_pidString|];
        by destruct g. }
    rewrite <- Hats, Hsplit. by apply pidString_after_last.
Qed.

(** C6: on every command line, whenever [parseCommand] returns (and it
    does on every line that fits the arrays), the entries of [args] for all
    the tokens that contain the marker "$$" are one and the same pointer,
    the address of [pidString]; the buffer holds the expansion of the last
    such token, so that is what every one of these entries reads, and the
    text of every earlier expansion is gone. *)
Theorem expansions_share_pidString pid line a r g :
  length a = Z.to_nat NUM_ARGS →
  (within_capacity pid (tokens line) →
   ∃ m, parseCommand pid line a r g = Ok m) ∧
  ∀ m, parseCommand pid line a r g = Ok m →
    (∀ i t, arg_tokens (tokens line) !! i = Some t →
            expands t = true →
            args m !! i = Some PidStringPtr) ∧
    (∀ l1 last l2, arg_tokens (tokens line) = l1 ++ last :: l2 →
                   expands last = true →
                   Forall (λ u, expands u = false) l2 →
       ∀ i t, arg_tokens (tokens line) !! i = Some t →
              expands t = true →
              ∃ p, args m !! i = Some p ∧
                   string_at (glob m) p = Ok (expansion pid last)).
Proof.
  intros Ha. split.
  { intros Hcap.
    destruct (parseCommand_marker_entries pid line a r g Ha Hcap)
      as (m & Hm & _). eauto. }
  intros m Hparse.
  pose proof (parseCommand_Ok_capacity _ _ _ _ _ _ Ha Hparse) as Hcap.
  destruct (parseCommand_marker_entries pid line a r g Ha Hcap)
    as (m' & Hm & Hptr & Hlast).
  assert (m' = m) as -> by congruence.
  split.
  - intros i t Hi Ht. by destruct (Hptr i t Hi Ht).
  - intros l1 last l2 Hsplit Hex Hl2 i t Hi Ht.
    exists PidStringPtr. destruct (Hptr i t Hi Ht) as [-> ->].
    split; [done|]. f_equal. by eapply Hlast.
Qed.

Lemma expansions_share_pidString_witness :
  ∃ m, parseCommand 4242 "echo a$$ b$$ c" (replicate 513 Undef)
         (Redirs NULL NULL) globals_init = Ok m ∧
       args m !! 1%nat = Some PidStringPtr ∧
       args m !! 2%nat = Some PidStringPtr ∧
       ∃ p, args m !! 1%nat = Some p ∧
            string_at (glob m) p = Ok "b4242".
Proof.
  destruct (expansions_share_pidString 4242 "echo a$$ b$$ c"
              (replicate 513 Undef) (Redirs NULL NULL) globals_init eq_refl)
    as [Hret Hshare].
  destruct Hret as [m Hm].
  { split; [vm_compute; lia|].
    vm_compute. repeat constructor; intros _; reflexivity. }
  destruct (Hshare m Hm) as [Hptr Hlast].
  exists m. split; [exact Hm|].
  split; [exact (Hptr 1%nat "a$$" eq_refl eq_refl)|].
  split; [exact (Hptr 2%nat "b$$" eq_refl eq_refl)|].
  exact (Hlast ["echo"; "a$$"] "b$$" ["c"] eq_refl eq_refl
           ltac:(repeat constructor) 1%nat "a$$" eq_refl eq_refl).
Defined.

(** On this line both expanded entries read ["b4242"]. *)
Example two_expansions :
  ∃ m, parseCommand 4242 "echo a$$ b$$ c" (replicate 513 Undef)
         (Redirs NULL NULL) globals_init = Ok m ∧
       take 5 (args m) = [Tok "echo"; PidStringPtr; PidStringPtr; Tok "c"; NULL] ∧
       argv (glob m) (args m) = Ok ["echo"; "b4242"; "b4242"; "c"].
Proof. eexists. split; [vm_compute; reflexivity|]. by vm_compute. Qed.

(** C5 (as amended): on every command line that fits the arrays, the last
    token in argument position that contains the marker "$$" yields the
    argument made of the token's text before its first "$$" followed by the
    decimal process identifier, the rest of the token being dropped; for
    the token "hi$$there" the argument is "hi" followed by the decimal
    identifier. *)
Theorem parseCommand_last_expansion pid line a r g ts1 ts2 pre post :
  length a = Z.to_nat NUM_ARGS →
  within_capacity pid (tokens line) →
  tokens line = ts1 ++ (pre +:+ "$$" +:+ post) :: ts2 →
  strstr (pre +:+ "$") "$$" = None →
  awaits_target ts1 = false →
  Forall (λ u, expands u = false) (arg_tokens ts2) →
  ∃ m, parseCommand pid line a r g = Ok m ∧
       args m !! length (arg_tokens ts1) = Some PidStringPtr ∧
       string_at (glob m) PidStringPtr = Ok (pre +:+ pretty pid).
Proof.
  intros Ha Hcap Hline Hfirst Hts1 Hts2.
  destruct (expansion_first_marker pid pre post Hfirst) as [Hex Hexp].
  assert (arg_tokens (tokens line)
          = arg_tokens ts1 ++ (pre +:+ "$$" +:+ post) :: arg_tokens ts2)
    as Hargs.
  { rewrite Hline, arg_tokens_app by done. f_equal. cbn [arg_tokens].
    destruct (is_redirect _) eqn:E; [|done].
    apply is_redirect_expands in E. congruence. }
  destruct (parseCommand_marker_entries pid line a r g Ha Hcap)
    as (m & Hm & Hptr & Hlast).
  exists m. split; [done|]. split.
  - eapply Hptr; [|done]. rewrite Hargs. apply list_lookup_middle. done.
  - cbn [string_at]. f_equal. rewrite <- Hexp. by eapply Hlast.
Qed.

Lemma parseCommand_last_expansion_witness :
  ∃ m, parseCommand 4242 "echo hi$$there" (replicate 513 Undef)
         (Redirs NULL NULL) globals_init = Ok m ∧
       args m !! 1%nat = Some PidStringPtr ∧
       string_at (glob m) PidStringPtr = Ok "hi4242".
Proof.
  apply (parseCommand_last_expansion 4242 "echo hi$$there"
           (replicate 513 Undef) (Redirs NULL NULL) globals_init
           ["echo"] [] "hi" "there").
  - reflexivity.
  - split; [vm_compute; lia|].
    vm_compute. repeat constructor; intros _; reflexivity.
  - reflexivity.
  - reflexivity.
  - reflexivity.
  - constructor.
Defined.

(** With two tokens that contain the marker, the argument left for the
    first one is not its own expansion. *)
Lemma earlier_expansion_overwritten :
  tokens "echo a$$ b$$" = ["echo"; "a$$"; "b$$"] ∧
  ∃ m p, parseCommand 4242 "echo a$$ b$$" (replicate 513 Undef)
           (Redirs NULL NULL) globals_init = Ok m ∧
         args m !! 1%nat = Some p ∧
         string_at (glob m) p = Ok "b4242" ∧
         string_at (glob m) p ≠ Ok ("a" +:+ pretty 4242).
Proof.
  split; [reflexivity|]. eexists _, _.
  split; [vm_compute; reflexivity|]. split; [reflexivity|].
  split; [reflexivity|]. vm_compute. discriminate.
Qed.

(** ** The background marker *)

(** C4 (as amended): for every command line that fits the arrays and whose
    last token is "&" in argument position (not taken as the target of a
    redirection operator before it), [parseCommand] returns; the "&" is not
    in the argument list it leaves, which holds the other arguments in
    order; and the background flag is set to 1 exactly when
    [disallow_background] is 0, being left as it was otherwise. *)
Theorem parseCommand_background_marker pid line ts a r g :
  length a = Z.to_nat NUM_ARGS →
  tokens line = ts ++ ["&"] →
  awaits_target ts = false →
  (length (arg_tokens ts) < 512)%nat →
  Forall (fits pid) (arg_tokens ts) →
  ∃ m, parseCommand pid line a r g = Ok m ∧
       argv (glob m) (args m) = Ok (map (denotes (glob m)) (arg_tokens ts)) ∧
       background (glob m)
       = (if disallow_background g =? 0 then 1 else background g) ∧
       (background g = 0 →
        background (glob m) = 1 ↔ disallow_background g = 0) ∧
       disallow_background (glob m) = disallow_background g.
Proof.
  intros Ha Hline Hts Hlen Hfit.
  assert (arg_tokens (tokens line) = arg_tokens ts ++ ["&"]) as Hargs.
  { by rewrite Hline, arg_tokens_app. }
  destruct (parseCommand_result pid line a r g Ha)
    as (m & init & t & Hats & Hm & _ & _ & Hglob & _ & _ & Hargv).
  { split; rewrite Hargs.
    - rewrite length_app. simpl. lia.
    - apply Forall_app. split; [done|]. by repeat constructor. }
  rewrite Hargs in Hats. apply app_inj_tail in Hats as [<- <-].
  change (streq "&" "&") with true in Hglob, Hargv.
  exists m. split; [done|]. split; [done|].
  assert (background (glob m)
          = (if disallow_background g =? 0 then 1 else background g)) as Hbg.
  { rewrite Hglob. unfold mark_background. destruct g as [ps bg db bi]. simpl.
    by destruct (db =? 0). }
  split; [done|]. split.
  - intros Hclear. rewrite Hbg, Hclear.
    destruct (Z.eqb_spec (disallow_background g) 0); split; (done || lia).
  - rewrite Hglob. unfold mark_background. destruct g as [ps bg db bi]. simpl.
    by destruct (db =? 0).
Qed.

Lemma parseCommand_background_marker_witness :
  ∃ m, parseCommand 4242 "sleep 5 &" (replicate 513 Undef)
         (Redirs NULL NULL) (Globals "" 0 1 0) = Ok m ∧
       argv (glob m) (args m) = Ok ["sleep"; "5"] ∧
       background (glob m) = 0 ∧
       (0 = 0 → background (glob m) = 1 ↔ 1 = 0) ∧
       disallow_background (glob m) = 1.
Proof.
  destruct (parseCommand_background_marker 4242 "sleep 5 &" ["sleep"; "5"]
              (replicate 513 Undef) (Redirs NULL NULL) (Globals "" 0 1 0))
    as (m & Hm & Hargv & Hrest).
  - reflexivity.
  - reflexivity.
  - reflexivity.
  - vm_compute. lia.
  - vm_compute. repeat constructor; intros _; reflexivity.
  - exists m. split; [exact Hm|]. split; [|exact Hrest].
    rewrite Hargv. reflexivity.
Defined.

(** "sleep 5 &" in both modes: the arguments are the same, the flag is set
    only when background execution is allowed. *)
Example sleep_5_background :
  ∃ m1 m2,
    parseCommand 4242 "sleep 5 &" (replicate 513 Undef) (Redirs NULL NULL)
      (Globals "" 0 0 0) = Ok m1 ∧
    parseCommand 4242 "sleep 5 &" (replicate 513 Undef) (Redirs NULL NULL)
      (Globals "" 0 1 0) = Ok m2 ∧
    argv (glob m1) (args m1) = Ok ["sleep"; "5"] ∧
    argv (glob m2) (args m2) = Ok ["sleep"; "5"] ∧
    background (glob m1) = 1 ∧ background (glob m2) = 0.
Proof. eexists _, _. do 2 (split; [vm_compute; reflexivity|]). by vm_compute. Qed.

(** A last token "&" that is the target of a redirection is no background
    request, although background execution is allowed. *)
Lemma ampersand_target_not_background :
  last (tokens "cat < &") = Some "&" ∧
  disallow_background globals_init = 0 ∧
  ∃ m, parseCommand 4242 "cat < &" (replicate 513 Undef)
         (Redirs NULL NULL) globals_init = Ok m ∧
       redir0 (redir m) = Tok "&" ∧
       argv (glob m) (args m) = Ok ["cat"] ∧
       background (glob m) = 0.
Proof.
  split; [reflexivity|]. split; [reflexivity|].
  eexists. split; [vm_compute; reflexivity|]. by vm_compute.
Qed.

(** ** A redirection operator without target *)

Lemma parse_finish_redir m r' :
  parse_finish (Parser (argCount m - 1 + 1) (args m) r' (glob m))
  = (m' ← parse_finish m;
     Ok (Parser (argCount m') (args m') r' (glob m'))).
Proof.
  unfold parse_finish. cbn [argCount args redir glob].
  replace (argCount m - 1 + 1) with (argCount m) by lia.
  destruct (store (args m) (argCount m) NULL) as [a1| | | |]; try done. cbn.
  destruct (load a1 (argCount m - 1)) as [p| | | |]; try done. cbn.
  destruct (string_at (glob m) p) as [s| | | |]; try done. cbn.
  destruct (streq s "&"); [|done].
  destruct (store a1 (argCount m - 1) NULL) as [a2| | | |]; done.
Qed.

Lemma parse_finish_keeps_redir m m' :
  parse_finish m = Ok m' → redir m' = redir m.
Proof.
  unfold parse_finish.
  destruct (store (args m) (argCount m) NULL) as [a1| | | |]; try done. cbn.
  destruct (load a1 (argCount m - 1)) as [p| | | |]; try done. cbn.
  destruct (string_at (glob m) p) as [s| | | |]; try done. cbn.
  destruct (streq s "&"); [|by intros [= <-]].
  destruct (store a1 (argCount m - 1) NULL) as [a2| | | |]; try done. cbn.
  by intros [= <-].
Qed.

(** C2 (as amended): for every input line whose last token is "<" (or ">")
    standing as an operator, that is, not itself taken as the target of an
    operator before it, [parseCommand] has no parse error to fail with and
    reads no token past the end: it does exactly what it does on the line
    without that token, and then leaves the input (or output) redirection
    target null; a Command is built whenever the shorter line builds
    one. *)
Theorem parseCommand_operator_without_target pid line line' op a r g :
  awaits_target (tokens line') = false →
  is_redirect op = true →
  tokens line = tokens line' ++ [op] →
  parseCommand pid line a r g
  = (m ← parseCommand pid line' a r g;
     Ok (Parser (argCount m) (args m)
           (if streq op "<" then Redirs NULL (redir1 (redir m))
            else Redirs (redir0 (redir m)) NULL)
           (glob m))).
Proof.
  intros Hts Hop Hline.
  rewrite !parseCommand_tokens, Hline, scan_app by done.
  destruct (scan pid (tokens line') (Parser 0 a r g)) as [m| | | |];
    try done.
  pose proof (is_redirect_expands _ Hop) as Hno%expands_None.
  unfold is_redirect in Hop.
  rewrite !bind_Ok. cbn [scan]. rewrite Hno.
  destruct (streq op "<"); [|simpl in Hop; rewrite Hop];
    rewrite !bind_Ok;
    rewrite parse_finish_redir;
    (destruct (parse_finish m) as [m'| | | |] eqn:E; try done);
    apply parse_finish_keeps_redir in E; cbn; by rewrite E.
Qed.

Lemma parseCommand_operator_without_target_witness :
  parseCommand 4242 "ls <" (replicate 513 Undef) (Redirs (Tok "old") NULL)
    globals_init
  = Ok (Parser 1 (<[1%nat:=NULL]> (<[0%nat:=Tok "ls"]> (replicate 513 Undef)))
          (Redirs NULL NULL) globals_init).
Proof.
  rewrite (parseCommand_operator_without_target 4242 "ls <" "ls" "<"
             (replicate 513 Undef) (Redirs (Tok "old") NULL) globals_init);
    reflexivity.
Defined.

(** The line "ls <" is parsed into a command without redirection. *)
Lemma operator_without_target_accepted :
  last (tokens "ls <") = Some "<" ∧
  ∃ m, parseCommand 4242 "ls <" (replicate 513 Undef) (Redirs NULL NULL)
         globals_init = Ok m ∧
       argCount m = 1 ∧
       argv (glob m) (args m) = Ok ["ls"] ∧
       redir m = Redirs NULL NULL.
Proof.
  split; [reflexivity|].
  eexists. split; [vm_compute; reflexivity|]. by vm_compute.
Qed.

(** ** Lines that leave [parseCommand] without a command name *)

(** C1: the line "< in.txt" passes the test of [getCommand] (it is not
    empty and does not begin with the comment sign), yet [parseCommand]
    ends its loop with [argCount] 0 and then reads [args[argCount - 1]],
    outside the array; and on the line "&" it returns [argCount] 1 with
    [args[0]] null, which [main] then reads as the command name.  The code
    has no guard for either line, so the invariant that a command name is
    present does not hold of it. *)
Theorem parseCommand_without_command_name pid a r g :
  length a = Z.to_nat NUM_ARGS →
  (accepted ("< in.txt" +:+ nl) = true ∧
   chop ("< in.txt" +:+ nl) = Ok "< in.txt" ∧
   parseCommand pid "< in.txt" a r g = Undefined OutOfBounds) ∧
  (accepted ("&" +:+ nl) = true ∧
   chop ("&" +:+ nl) = Ok "&" ∧
   ∃ m, parseCommand pid "&" a r g = Ok m ∧
        argCount m = 1 ∧
        load (args m) 0 = Ok NULL ∧
        string_at (glob m) NULL = Undefined NullDeref).
Proof.
  intros Ha. unfold NUM_ARGS in Ha.
  destruct a as [|x [|y a]]; [simpl in Ha; lia..|].
  split; (split; [reflexivity|]); (split; [reflexivity|]).
  - reflexivity.
  - exists (Parser 1 (NULL :: NULL :: a) r (mark_background g)).
    split; [|done].
    rewrite parseCommand_tokens. change (tokens "&") with ["&"].
    cbn [scan]. change (strstr "&" "$$") with (@None nat).
    change (streq "&" "<") with false. change (streq "&" ">") with false.
    cbv beta iota. cbn [argCount args redir glob].
    rewrite store_Ok, !bind_Ok by (simpl; lia).
    unfold parse_finish. cbn [argCount args redir glob].
    rewrite store_Ok, !bind_Ok by (simpl; lia).
    change (load _ (0 + 1 - 1)) with (Ok (Tok "&")).
    rewrite !bind_Ok. cbn [string_at]. rewrite !bind_Ok.
    change (streq "&" "&") with true. cbv beta iota.
    by rewrite store_Ok by (simpl; lia).
Qed.

Lemma parseCommand_without_command_name_witness :
  parseCommand 4242 "< in.txt" (replicate 513 Undef) (Redirs NULL NULL)
    globals_init = Undefined OutOfBounds.
Proof.
  apply (parseCommand_without_command_name 4242 (replicate 513 Undef)
           (Redirs NULL NULL) globals_init).
  reflexivity.
Defined.

(** The first of these lines typed at the prompt: [getCommand] hands it
    to [main], whose call of [parseCommand] is undefined. *)
Example redirect_only_line_session :
  getCommand 1 globals_init (replicate 20 0)
    (Script 4242 ["< in.txt" +:+ nl] [] [] [])
  = ([Fflush; Printf ": " []; Fflush; Getline (Some ("< in.txt" +:+ nl))],
     Ok (globals_init, replicate 20 0, "< in.txt", Script 4242 [] [] [] [])) ∧
  dispatch (Shell globals_init (replicate 513 Undef) (Redirs NULL NULL) 0
              (-5) (-5) (-5) (-5) (replicate 20 0))
    "< in.txt" (Script 4242 [] [] [] [])
  = ([], Undefined OutOfBounds).
Proof. split; reflexivity. Qed.

(** ** The job table *)

Lemma load_Ok {A} (a : list A) (i : nat) x :
  a !! i = Some x → load a (Z.of_nat i) = Ok x.
Proof.
  intros Hi. unfold load. rewrite bool_decide_true by lia.
  by rewrite Nat2Z.id, Hi.
Qed.

Lemma store_nat {A} (a : list A) (i : nat) x :
  (i < length a)%nat → store a (Z.of_nat i) x = Ok (<[i:=x]> a).
Proof. intros Hi. rewrite store_Ok by lia. by rewrite Nat2Z.id. Qed.

Section JobTable.
Context {W : Type} `{OS W}.

Lemma placePID_from_found n (i k : nat) (pids : list Z) pid :
  (i + n = length pids)%nat →
  (i ≤ k)%nat →
  pids !! k = Some 0 →
  (∀ j, (i ≤ j < k)%nat → pids !! j ≠ Some 0) →
  placePID_from n (Z.of_nat i) pids pid = Ok (<[k:=pid]> pids, 1).
Proof.
  revert i. induction n as [|n IH]; intros i Hn Hik Hk Hfirst.
  { apply lookup_lt_Some in Hk. lia. }
  cbn [placePID_from].
  destruct (decide (i = k)) as [->|Hne].
  - rewrite (load_Ok _ _ _ Hk), bind_Ok. cbn.
    rewrite store_nat by (by eapply lookup_lt_Some). done.
  - destruct (lookup_lt_is_Some_2 pids i) as [p Hp]; [lia|].
    rewrite (load_Ok _ _ _ Hp), bind_Ok.
    destruct (Z.eqb_spec p 0) as [->|_].
    { exfalso. apply (Hfirst i); [lia|done]. }
    replace (Z.of_nat i + 1) with (Z.of_nat (S i)) by lia.
    apply IH; [lia|lia|done|]. intros j Hj. apply Hfirst. lia.
Qed.

Lemma placePID_from_full n (i : nat) (pids : list Z) pid :
  (i + n = length pids)%nat →
  (∀ j, pids !! j ≠ Some 0) →
  placePID_from n (Z.of_nat i) pids pid = Ok (pids, 0).
Proof.
  revert i. induction n as [|n IH]; intros i Hn Hfull; [done|].
  cbn [placePID_from].
  destruct (lookup_lt_is_Some_2 pids i) as [p Hp]; [lia|].
  rewrite (load_Ok _ _ _ Hp), bind_Ok.
  destruct (Z.eqb_spec p 0) as [->|_]; [by destruct (Hfull i)|].
  replace (Z.of_nat i + 1) with (Z.of_nat (S i)) by lia.
  apply IH; [lia|done].
Qed.

(** C7: on a job table with an empty slot, [placePID] stores the process
    identifier in the first slot that holds 0, changes no other slot and
    returns without output; on the table whose 20 slots are all occupied
    it prints its diagnostic with [perror] and ends the shell with
    [exit(1)]. *)
Theorem placePID_first_empty_or_exit (bgPIDs : list Z) (addPID : Z) (w : W) :
  length bgPIDs = Z.to_nat BGPID_ARR_SIZE →
  (∀ i, bgPIDs !! i = Some 0 →
        (∀ j, (j < i)%nat → bgPIDs !! j ≠ Some 0) →
        placePID bgPIDs addPID w = ([], Ok (<[i:=addPID]> bgPIDs, w)) ∧
        (<[i:=addPID]> bgPIDs) !! i = Some addPID ∧
        ∀ j, j ≠ i → (<[i:=addPID]> bgPIDs) !! j = bgPIDs !! j) ∧
  ((∀ i, bgPIDs !! i ≠ Some 0) →
   placePID bgPIDs addPID w
   = ([Perror "Couldn't track background process."], Exited 1)).
Proof.
  intros Hlen. split.
  - intros i Hi Hfirst. split; [|split].
    + unfold placePID, mbind, comp_bind, lift.
      rewrite (placePID_from_found _ 0 i); [done|done|lia|done|].
      intros j [_ Hj]. by apply Hfirst.
    + apply list_lookup_insert_eq. by eapply lookup_lt_Some.
    + intros j Hj. by apply list_lookup_insert_ne.
  - intros Hfull. unfold placePID, mbind, comp_bind, lift.
    by rewrite (placePID_from_full _ 0).
Qed.

End JobTable.

Lemma placePID_first_empty_or_exit_witness :
  placePID (replicate 3 7 ++ replicate 17 0) 99 (Script 1 [] [] [] [])
  = ([], Ok (replicate 3 7 ++ 99 :: replicate 16 0, Script 1 [] [] [] [])) ∧
  placePID (replicate 20 7) 99 (Script 1 [] [] [] [])
  = ([Perror "Couldn't track background process."], Exited 1).
Proof.
  split.
  - destruct (placePID_first_empty_or_exit (replicate 3 7 ++ replicate 17 0)
                99 (Script 1 [] [] [] []) eq_refl) as [Hplace _].
    destruct (Hplace 3%nat) as [-> _]; [reflexivity| |reflexivity].
    intros j Hj. do 3 (destruct j as [|j]; [discriminate|]). lia.
  - destruct (placePID_first_empty_or_exit (replicate 20 7) 99
                (Script 1 [] [] [] []) eq_refl) as [_ Hfull].
    apply Hfull.
    intros i. do 20 (destruct i as [|i]; [discriminate|]). discriminate.
Defined.

(** ** Reconciliation *)

Section Reconcile.
Context {W : Type} `{OS W}.

Lemma resolve_slot_spec (i : nat) (pids : list Z) p (w : W) :
  pids !! i = Some p →
  resolve_slot (Z.of_nat i) pids w
  = if p =? 0 then ([], Ok (pids, w))
    else let '(r, stat, w') := os_waitpid p WNOHANG w in
         if r =? 0 then ([Waitpid p WNOHANG r stat], Ok (pids, w'))
         else (Waitpid p WNOHANG r stat :: report p stat,
               Ok (<[i:=0]> pids, w')).
Proof.
  intros Hp. unfold resolve_slot, mbind, comp_bind, lift.
  rewrite (load_Ok _ _ _ Hp). cbn.
  destruct (p =? 0); [done|].
  unfold waitpid. destruct (os_waitpid p WNOHANG w) as [[r stat] w'].
  destruct (r =? 0); [done|].
  unfold printf, fflush, emit, report. cbn.
  rewrite store_nat by (by eapply lookup_lt_Some).
  by destruct (WIFEXITED stat).
Qed.

End Reconcile.

Section ReconcileLoop.
Context {W : Type} `{OS W}.

Lemma comp_bind_Ok {A B} (c : comp A) (f : A → comp B) (w : W) t a w1 :
  c w = (t, Ok (a, w1)) →
  (c ≫= f) w = (t ++ (f a w1).1, (f a w1).2).
Proof.
  intros Hc. unfold mbind, comp_bind. rewrite Hc. by destruct (f a w1).
Qed.

Lemma slot_reconciled_mono t1 t2 pids1 pids pids' k :
  slot_reconciled t2 pids1 pids' k →
  pids1 !! k = pids !! k →
  slot_reconciled (t1 ++ t2) pids pids' k.
Proof.
  unfold slot_reconciled. intros Hs <-.
  destruct (pids1 !! k) as [p|]; [|done].
  destruct (p =? 0); [done|]. destruct Hs as (r & stat & Hin & Hs).
  exists r, stat. split; [set_solver|].
  destruct (r =? 0); [done|]. destruct Hs as [Hk Hin']. set_solver.
Qed.

Lemma elem_of_insert_zero (pids : list Z) i p :
  p ∈ <[i:=0]> pids → p ≠ 0 → p ∈ pids.
Proof.
  intros [j Hj]%list_elem_of_lookup Hp.
  apply list_lookup_insert_Some in Hj as [(-> & <- & _) | [_ Hj]]; [done|].
  by eapply list_elem_of_lookup_2.
Qed.

Lemma reconcile_event_insert pids i e :
  reconcile_event (<[i:=0]> pids) e → reconcile_event pids e.
Proof.
  destruct e; try done; simpl.
  - intros [(-> & p & -> & Hp & Hin) | Hr]; [left|by right].
    split; [done|]. exists p. eauto using elem_of_insert_zero.
  - intros (Hp & Hin & ->). eauto using elem_of_insert_zero.
Qed.

(** The loop of [resolveBGPID] from index [i]: it returns, leaves the
    slots below [i] alone and reconciles the others. *)
Lemma resolveBGPID_from_spec n (i : nat) (pids : list Z) (w : W) :
  (i + n = length pids)%nat →
  ∃ t pids' w',
    resolveBGPID_from n (Z.of_nat i) pids w = (t, Ok (pids', w')) ∧
    length pids' = length pids ∧
    (∀ k, (k < i)%nat → pids' !! k = pids !! k) ∧
    (∀ k, (i ≤ k)%nat → slot_reconciled t pids pids' k) ∧
    Forall (reconcile_event pids) t.
Proof.
  revert i pids w. induction n as [|n IH]; intros i pids w Hn.
  { exists [], pids, w. split; [done|]. split; [done|]. split; [done|].
    split; [|done]. intros k Hk. unfold slot_reconciled.
    by rewrite lookup_ge_None_2 by lia. }
  destruct (lookup_lt_is_Some_2 pids i) as [p Hp]; [lia|].
  cbn [resolveBGPID_from].
  pose proof (resolve_slot_spec i pids p w Hp) as Hslot.
  replace (Z.of_nat i + 1) with (Z.of_nat (S i)) by lia.
  destruct (Z.eqb_spec p 0) as [->|Hp0].
  - (* an empty slot *)
    destruct (IH (S i) pids w) as (t & pids' & w' & Hrun & Hlen & Hlow & Hhigh & Hev);
      [lia|].
    exists t, pids', w'.
    rewrite (comp_bind_Ok _ _ _ _ _ _ Hslot), Hrun.
    split; [done|]. split; [done|].
    split; [intros k Hk; apply Hlow; lia|].
    split; [|done]. intros k Hk.
    destruct (decide (k = i)) as [->|Hne]; [|apply Hhigh; lia].
    unfold slot_reconciled. rewrite Hp. simpl. rewrite Hlow by lia. done.
  - destruct (os_waitpid p WNOHANG w) as [[r stat] w1] eqn:Hwait.
    destruct (Z.eqb_spec r 0) as [->|Hr].
    + (* still running *)
      destruct (IH (S i) pids w1)
        as (t & pids' & w' & Hrun & Hlen & Hlow & Hhigh & Hev); [lia|].
      exists ([Waitpid p WNOHANG 0 stat] ++ t), pids', w'.
      rewrite (comp_bind_Ok _ _ _ _ _ _ Hslot), Hrun.
      split; [done|]. split; [done|].
      split; [intros k Hk; apply Hlow; lia|].
      split.
      * intros k Hk. destruct (decide (k = i)) as [->|Hne].
        -- unfold slot_reconciled. rewrite Hp.
           rewrite (proj2 (Z.eqb_neq p 0)) by done.
           exists 0, stat. split; [set_solver|]. simpl.
           rewrite Hlow by lia. done.
        -- apply (slot_reconciled_mono _ _ pids); [apply Hhigh; lia|done].
      * apply Forall_app. split; [|done].
        repeat constructor; [done|]. by eapply list_elem_of_lookup_2.
    + (* finished: reported and freed *)
      destruct (IH (S i) (<[i:=0]> pids) w1)
        as (t & pids' & w' & Hrun & Hlen & Hlow & Hhigh & Hev).
      { rewrite length_insert. lia. }
      rewrite length_insert in Hlen.
      exists ((Waitpid p WNOHANG r stat :: report p stat) ++ t), pids', w'.
      rewrite (comp_bind_Ok _ _ _ _ _ _ Hslot), Hrun.
      split; [done|]. split; [done|].
      split.
      { intros k Hk. rewrite Hlow by lia.
        apply list_lookup_insert_ne. lia. }
      split.
      * intros k Hk. destruct (decide (k = i)) as [->|Hne].
        -- unfold slot_reconciled. rewrite Hp.
           rewrite (proj2 (Z.eqb_neq p 0)) by done.
           exists r, stat. split; [set_solver|].
           rewrite (proj2 (Z.eqb_neq r 0)) by done.
           rewrite Hlow by lia.
           split; [|unfold report; set_solver].
           apply list_lookup_insert_eq. by eapply lookup_lt_Some.
        -- apply (slot_reconciled_mono _ _ (<[i:=0]> pids));
             [apply Hhigh; lia|].
           apply list_lookup_insert_ne. lia.
      * apply Forall_app. split.
        -- assert (p ∈ pids) by (by eapply list_elem_of_lookup_2).
           unfold report. repeat constructor; simpl; eauto 10.
           destruct (WIFEXITED stat); simpl; auto.
        -- eapply Forall_impl; [exact Hev|].
           intros e. apply reconcile_event_insert.
Qed.

End ReconcileLoop.

Section JobTableClaims.
Context {W : Type} `{OS W}.

Lemma scrubPIDArray_from_spec n (i : nat) (pids : list Z) :
  (i + n = length pids)%nat →
  scrubPIDArray_from n (Z.of_nat i) pids
  = Ok (take i pids ++ replicate n 0).
Proof.
  revert i pids. induction n as [|n IH]; intros i pids Hn.
  { simpl. rewrite app_nil_r, take_ge by lia. done. }
  cbn [scrubPIDArray_from]. rewrite store_nat, bind_Ok by lia.
  replace (Z.of_nat i + 1) with (Z.of_nat (S i)) by lia.
  rewrite IH by (rewrite length_insert; lia).
  f_equal. rewrite (take_S_r _ _ 0).
  - rewrite take_insert_ge by lia. by rewrite <- app_assoc.
  - apply list_lookup_insert_eq. lia.
Qed.

Lemma resolveBGPID_empty (w : W) :
  resolveBGPID (replicate (Z.to_nat BGPID_ARR_SIZE) 0) w
  = ([], Ok (replicate (Z.to_nat BGPID_ARR_SIZE) 0, w)).
Proof. reflexivity. Qed.

(** C8: [scrubPIDArray] leaves every slot of the job table holding 0;
    any number of calls of [resolveBGPID] on the empty table emit nothing
    (no output, no system call) and leave it empty; and on any table
    [resolveBGPID] returns with every slot that held 0 still holding 0,
    having polled and reported only process identifiers other than 0
    that the table held. *)
Theorem reconcile_ignores_empty_slots (pids : list Z) (w : W) :
  length pids = Z.to_nat BGPID_ARR_SIZE →
  scrubPIDArray pids = Ok (replicate (Z.to_nat BGPID_ARR_SIZE) 0) ∧
  (∀ n, resolveBGPID_times n (replicate (Z.to_nat BGPID_ARR_SIZE) 0) w
        = ([], Ok (replicate (Z.to_nat BGPID_ARR_SIZE) 0, w))) ∧
  ∃ t pids' w',
    resolveBGPID pids w = (t, Ok (pids', w')) ∧
    (∀ k, pids !! k = Some 0 → pids' !! k = Some 0) ∧
    Forall (reconcile_event pids) t.
Proof.
  intros Hlen. split; [|split].
  - unfold scrubPIDArray. by rewrite (scrubPIDArray_from_spec _ 0).
  - intros n. induction n as [|n IH]; [done|].
    cbn [resolveBGPID_times].
    rewrite (comp_bind_Ok _ _ _ _ _ _ (resolveBGPID_empty w)), IH. done.
  - destruct (resolveBGPID_from_spec (Z.to_nat BGPID_ARR_SIZE) 0 pids w)
      as (t & pids' & w' & Hrun & _ & _ & Hslots & Hev); [by rewrite Hlen|].
    exists t, pids', w'. split; [done|]. split; [|done].
    intros k Hk. specialize (Hslots k (Nat.le_0_l k)).
    unfold slot_reconciled in Hslots. by rewrite Hk in Hslots.
Qed.

End JobTableClaims.

Lemma reconcile_ignores_empty_slots_witness :
  scrubPIDArray (replicate 20 7) = Ok (replicate 20 0) ∧
  (∀ n, resolveBGPID_times n (replicate 20 0) (Script 1 [] [(8, 256)] [] [])
        = ([], Ok (replicate 20 0, Script 1 [] [(8, 256)] [] []))) ∧
  ∃ t pids' w',
    resolveBGPID (replicate 20 7) (Script 1 [] [(8, 256)] [] [])
    = (t, Ok (pids', w')) ∧
    (∀ k, replicate 20 7 !! k = Some 0 → pids' !! k = Some 0) ∧
    Forall (reconcile_event (replicate 20 7)) t.
Proof.
  apply (reconcile_ignores_empty_slots (replicate 20 7)
           (Script 1 [] [(8, 256)] [] [])).
  reflexivity.
Defined.

(** A pass over a table with two jobs, the first of which has exited with
    status 1: it is reported, its slot freed, the other job and the empty
    slots left as they are. *)
Example reconcile_one_finished :
  resolveBGPID ([0; 8; 9] ++ replicate 17 0)
    (Script 1 [] [(8, 256); (0, 0)] [] [])
  = ([Waitpid 8 WNOHANG 8 256;
      Printf "background pid %d is done: " [8];
      Printf "exit value %d\n" [1]; Fflush;
      Waitpid 9 WNOHANG 0 0],
     Ok ([0; 0; 9] ++ replicate 17 0, Script 1 [] [] [] [])).
Proof. reflexivity. Qed.

(** ** One cycle of the prompt *)

Section Cycle.
Context {W : Type} `{OS W}.

Lemma backgroundInform_spec (g : globals) (w : W) :
  backgroundInform g w
  = (inform_trace g, Ok (set_background_inform 0 g, w)).
Proof.
  unfold backgroundInform, inform_trace, mbind, comp_bind, printf, fflush,
    emit, ret.
  destruct (negb (background_inform g =? 0) && negb (disallow_background g =? 0));
    [done|].
  by destruct (negb (background_inform g =? 0) && (disallow_background g =? 0)).
Qed.

Lemma inform_trace_pending g :
  background_inform g ≠ 0 →
  Printf "Entering foreground-only mode (& is now ignored)\n" []
    ∈ inform_trace g ∧ disallow_background g ≠ 0
  ∨ Printf "Exiting foreground-only mode\n" [] ∈ inform_trace g
    ∧ disallow_background g = 0.
Proof.
  intros Hbi. unfold inform_trace.
  rewrite (proj2 (Z.eqb_neq _ 0) Hbi).
  destruct (Z.eqb_spec (disallow_background g) 0) as [E|E]; simpl.
  - right. split; [set_solver|done].
  - left. split; [set_solver|done].
Qed.

Lemma prompt_not_in_inform g : prompt ∉ inform_trace g.
Proof.
  unfold inform_trace, prompt.
  destruct (_ && _); [|destruct (_ && _)]; simpl; not_in_list.
Qed.

Lemma prompt_not_in_reconcile pids t :
  Forall (reconcile_event pids) t → prompt ∉ t.
Proof.
  intros Hev Hin. rewrite Forall_forall in Hev. apply Hev in Hin.
  simpl in Hin. destruct Hin as [[? _]|[?|?]]; discriminate.
Qed.

Lemma comp_bind_silent {A B} (c : comp A) (f : A → comp B) (w : W) a w1 :
  c w = ([], Ok (a, w1)) → (c ≫= f) w = f a w1.
Proof.
  intros Hc. unfold mbind, comp_bind. rewrite Hc. by destruct (f a w1).
Qed.

Lemma deliver_signals_eq g (w w1 : W) n :
  os_sigtstp w = (n, w1) →
  deliver_signals g w = ([], Ok (Nat.iter n catchSIGTSTP g, w1)).
Proof. intros Hsig. unfold deliver_signals. by rewrite Hsig. Qed.

Lemma signals_add n m g :
  Nat.iter m catchSIGTSTP (Nat.iter n catchSIGTSTP g)
  = Nat.iter (m + n) catchSIGTSTP g.
Proof. by rewrite Nat.iter_add. Qed.

(** The first test of [backgroundInform]: it returns, after some
    deliveries. *)
Lemma inform_entering_spec g (w : W) :
  ∃ b n w', inform_entering g w = ([], Ok (b, Nat.iter n catchSIGTSTP g, w')).
Proof.
  unfold inform_entering.
  destruct (os_sigtstp w) as [n1 w1] eqn:H1.
  rewrite (comp_bind_silent _ _ _ _ _ (deliver_signals_eq g w w1 n1 H1)).
  destruct (background_inform _ =? 0); [by eexists _, n1, _|].
  destruct (os_sigtstp w1) as [n2 w2] eqn:H2.
  rewrite (comp_bind_silent _ _ _ _ _ (deliver_signals_eq _ w1 w2 n2 H2)).
  rewrite signals_add. by eexists _, _, _.
Qed.

Lemma inform_exiting_spec g (w : W) :
  ∃ b n w', inform_exiting g w = ([], Ok (b, Nat.iter n catchSIGTSTP g, w')).
Proof.
  unfold inform_exiting.
  destruct (os_sigtstp w) as [n1 w1] eqn:H1.
  rewrite (comp_bind_silent _ _ _ _ _ (deliver_signals_eq g w w1 n1 H1)).
  destruct (background_inform _ =? 0); [by eexists _, n1, _|].
  destruct (os_sigtstp w1) as [n2 w2] eqn:H2.
  rewrite (comp_bind_silent _ _ _ _ _ (deliver_signals_eq _ w1 w2 n2 H2)).
  rewrite signals_add. by eexists _, _, _.
Qed.

Lemma inform_end_spec g (w : W) :
  ∃ n w',
    (fflush;; g3 ← deliver_signals g; ret (set_background_inform 0 g3)) w
    = ([Fflush], Ok (set_background_inform 0 (Nat.iter n catchSIGTSTP g), w')).
Proof.
  destruct (os_sigtstp w) as [n w'] eqn:Hs. exists n, w'.
  unfold mbind, comp_bind, fflush, emit, deliver_signals, ret.
  by rewrite Hs.
Qed.

(** [backgroundInform] always returns, whatever is delivered meanwhile: it
    has printed at most one notification, has flushed, and leaves the
    globals as the handler runs left them, with [background_inform] 0. *)
Lemma backgroundInform_signals_spec g (w : W) :
  ∃ t n w',
    backgroundInform_signals g w
    = (t, Ok (set_background_inform 0 (Nat.iter n catchSIGTSTP g), w')) ∧
    (t = [Fflush] ∨
     t = [Printf "Entering foreground-only mode (& is now ignored)\n" [];
          Fflush] ∨
     t = [Printf "Exiting foreground-only mode\n" []; Fflush]).
Proof.
  unfold backgroundInform_signals.
  destruct (inform_entering_spec g w) as (b1 & n1 & w1 & H1).
  rewrite (comp_bind_silent _ _ _ _ _ H1). cbv beta iota.
  destruct b1.
  - destruct (inform_end_spec (Nat.iter n1 catchSIGTSTP g) w1)
      as (n & w' & Hend).
    rewrite signals_add in Hend.
    eexists _, (n + n1)%nat, w'. split; [|by right; left].
    rewrite (comp_bind_Ok _ _ w1
               [Printf "Entering foreground-only mode (& is now ignored)\n" []]
               (Nat.iter n1 catchSIGTSTP g) w1) by done.
    by rewrite Hend.
  - destruct (inform_exiting_spec (Nat.iter n1 catchSIGTSTP g) w1)
      as (b2 & n2 & w2 & H2).
    rewrite signals_add in H2.
    destruct (inform_end_spec (Nat.iter (n2 + n1) catchSIGTSTP g) w2)
      as (n & w' & Hend).
    rewrite signals_add in Hend.
    destruct b2.
    + eexists _, (n + (n2 + n1))%nat, w'. split; [|by right; right].
      rewrite (comp_bind_Ok _ _ w1
                 [Printf "Exiting foreground-only mode\n" []]
                 (Nat.iter (n2 + n1) catchSIGTSTP g) w2)
        by (by rewrite (comp_bind_silent _ _ _ _ _ H2)).
      by rewrite Hend.
    + eexists _, (n + (n2 + n1))%nat, w'. split; [|by left].
      rewrite (comp_bind_silent _ _ w1
                 (Nat.iter (n2 + n1) catchSIGTSTP g) w2)
        by (by rewrite (comp_bind_silent _ _ _ _ _ H2)).
      by rewrite Hend.
Qed.

(** One pass of the loop of [getCommand], event by event. *)
Lemma getCommand_cycle_spec (g : globals) (pids : list Z) (w : W) :
  length pids = Z.to_nat BGPID_ARR_SIZE →
  ∃ tI g' w1 tR pids' w2 r w3,
    backgroundInform_signals g w = (tI, Ok (g', w1)) ∧
    resolveBGPID pids w1 = (tR, Ok (pids', w2)) ∧
    os_getline w2 = (r, w3) ∧
    (∀ k, slot_reconciled tR pids pids' k) ∧
    Forall (reconcile_event pids) tR ∧
    getCommand_cycle g pids w
    = (tI ++ tR ++ [prompt; Fflush; Getline r],
       Ok (g', pids',
           match r with
           | Some s => if accepted s then Some s else None
           | None => None
           end, w3)) ∧
    (prompt ∉ tI) ∧ (∀ fd, Close fd ∉ tI).
Proof.
  intros Hlen.
  destruct (backgroundInform_signals_spec g w) as (tI & n & w1 & Hinf & HtI).
  destruct (resolveBGPID_from_spec (Z.to_nat BGPID_ARR_SIZE) 0 pids w1)
    as (tR & pids' & w2 & Hrun & _ & _ & Hslots & Hev); [by rewrite Hlen|].
  destruct (os_getline w2) as [r w3] eqn:Hget.
  exists tI, (set_background_inform 0 (Nat.iter n catchSIGTSTP g)), w1, tR,
    pids', w2, r, w3.
  split; [done|]. split; [done|]. split; [done|].
  split; [intros k; apply Hslots; lia|]. split; [done|].
  split; [|split; [|intros fd]; destruct HtI as [->|[->| ->]]; not_in_list].
  unfold getCommand_cycle.
  rewrite (comp_bind_Ok _ _ _ _ _ _ Hinf).
  rewrite (comp_bind_Ok _ _ _ _ _ _ Hrun).
  unfold mbind, comp_bind, printf, fflush, emit, getline, ret, prompt.
  rewrite Hget. by destruct r as [s|].
Qed.

(** With nothing pending, and nothing delivered before the two tests, a
    SIGTSTP delivered before the assignment that ends [backgroundInform]
    is wiped out by it. *)
Lemma backgroundInform_late_signal g (w w1 w2 w3 : W) :
  background_inform g = 0 →
  os_sigtstp w = (0%nat, w1) →
  os_sigtstp w1 = (0%nat, w2) →
  os_sigtstp w2 = (1%nat, w3) →
  backgroundInform_signals g w
  = ([Fflush], Ok (set_background_inform 0 (catchSIGTSTP g), w3)).
Proof.
  intros Hbi H1 H2 H3. unfold backgroundInform_signals.
  rewrite (comp_bind_silent _ _ w (false, g) w1).
  2:{ unfold inform_entering.
      rewrite (comp_bind_silent _ _ _ _ _ (deliver_signals_eq g _ _ _ H1)).
      cbn [Nat.iter nat_rect]. by rewrite Hbi. }
  cbv beta iota.
  rewrite (comp_bind_silent _ _ w1 g w2).
  2:{ rewrite (comp_bind_silent _ _ w1 (false, g) w2); [done|].
      unfold inform_exiting.
      rewrite (comp_bind_silent _ _ _ _ _ (deliver_signals_eq g _ _ _ H2)).
      cbn [Nat.iter nat_rect]. by rewrite Hbi. }
  unfold mbind, comp_bind, fflush, emit, ret.
  by rewrite (deliver_signals_eq g _ _ _ H3).
Qed.

(** With the notification of the return to the normal mode pending, a
    SIGTSTP delivered between the two tests leaves both of them false. *)
Lemma backgroundInform_signal_between_tests g (w w1 w2 w3 w4 w5 : W) :
  background_inform g ≠ 0 →
  disallow_background g = 0 →
  os_sigtstp w = (0%nat, w1) →
  os_sigtstp w1 = (0%nat, w2) →
  os_sigtstp w2 = (1%nat, w3) →
  os_sigtstp w3 = (0%nat, w4) →
  os_sigtstp w4 = (0%nat, w5) →
  backgroundInform_signals g w
  = ([Fflush], Ok (set_background_inform 0 (catchSIGTSTP g), w5)).
Proof.
  intros Hbi Hdb H1 H2 H3 H4 H5. unfold backgroundInform_signals.
  apply Z.eqb_neq in Hbi.
  rewrite (comp_bind_silent _ _ w (false, g) w2).
  2:{ unfold inform_entering.
      rewrite (comp_bind_silent _ _ _ _ _ (deliver_signals_eq g _ _ _ H1)).
      cbn [Nat.iter nat_rect]. rewrite Hbi.
      rewrite (comp_bind_silent _ _ _ _ _ (deliver_signals_eq g _ _ _ H2)).
      cbn [Nat.iter nat_rect]. by rewrite Hdb. }
  cbv beta iota.
  rewrite (comp_bind_silent _ _ w2 (catchSIGTSTP g) w4).
  2:{ rewrite (comp_bind_silent _ _ w2 (false, catchSIGTSTP g) w4); [done|].
      unfold inform_exiting.
      rewrite (comp_bind_silent _ _ _ _ _ (deliver_signals_eq g _ _ _ H3)).
      cbn [Nat.iter nat_rect].
      assert (background_inform (catchSIGTSTP g) = 1
              ∧ disallow_background (catchSIGTSTP g) = 1) as [Hb Hd].
      { unfold catchSIGTSTP. rewrite Hdb. by destruct g. }
      rewrite Hb. cbn [Z.eqb].
      rewrite (comp_bind_silent _ _ _ _ _
                 (deliver_signals_eq (catchSIGTSTP g) _ _ _ H4)).
      cbn [Nat.iter nat_rect]. by rewrite Hd. }
  unfold mbind, comp_bind, fflush, emit, ret.
  by rewrite (deliver_signals_eq (catchSIGTSTP g) _ _ _ H5).
Qed.

Lemma resolveBGPID_from_exact n (i : nat) (pids : list Z) (w : W) :
  (i + n = length pids)%nat →
  resolveBGPID_from n (Z.of_nat i) pids w
  = ((reconciliation (drop i pids) (poll_answers (drop i pids) w).1).1,
     Ok (take i pids
           ++ (reconciliation (drop i pids) (poll_answers (drop i pids) w).1).2,
         (poll_answers (drop i pids) w).2)).
Proof.
  revert i pids w. induction n as [|n IH]; intros i pids w Hn.
  { rewrite drop_ge, take_ge by lia. cbn. by rewrite app_nil_r. }
  destruct (lookup_lt_is_Some_2 pids i) as [p Hp]; [lia|].
  cbn [resolveBGPID_from].
  pose proof (resolve_slot_spec i pids p w Hp) as Hslot.
  replace (Z.of_nat i + 1) with (Z.of_nat (S i)) by lia.
  rewrite (drop_S _ _ _ Hp).
  destruct (Z.eqb_spec p 0) as [->|Hp0].
  - rewrite (comp_bind_Ok _ _ _ _ _ _ Hslot), IH by lia.
    cbn [poll_answers reconciliation app fst snd Z.eqb].
    rewrite (take_S_r _ _ _ Hp), <- app_assoc. done.
  - cbn [poll_answers reconciliation].
    rewrite (proj2 (Z.eqb_neq p 0) Hp0). cbn [fst snd].
    destruct (os_waitpid p WNOHANG w) as [[r stat] w1]. cbn [fst snd].
    destruct (r =? 0).
    + rewrite (comp_bind_Ok _ _ _ _ _ _ Hslot), IH by lia.
      cbn [fst snd app]. rewrite (take_S_r _ _ _ Hp), <- app_assoc. done.
    + rewrite (comp_bind_Ok _ _ _ _ _ _ Hslot).
      rewrite IH by (rewrite length_insert; lia).
      rewrite drop_insert_lt by lia. cbn [fst snd].
      rewrite (take_S_r _ _ 0) by (apply list_lookup_insert_eq; lia).
      rewrite take_insert_ge by lia. rewrite <- !app_assoc. done.
Qed.

Lemma quiet_S k (w : W) :
  quiet (S k) w → ∃ w', os_sigtstp w = (0%nat, w') ∧ quiet k w'.
Proof.
  cbn [quiet]. destruct (os_sigtstp w) as [n w']. cbn [fst snd].
  intros [-> Hq]. eauto.
Qed.

(** With no delivery after the first point, [backgroundInform] does what
    it does when nothing interrupts it. *)
Lemma backgroundInform_signals_quiet g (w w0 : W) n :
  os_sigtstp w = (n, w0) →
  quiet 4 w0 →
  ∃ w',
    backgroundInform_signals g w
    = (inform_trace (Nat.iter n catchSIGTSTP g),
       Ok (set_background_inform 0 (Nat.iter n catchSIGTSTP g), w')).
Proof.
  intros H0 Hq. set (g1 := Nat.iter n catchSIGTSTP g).
  apply quiet_S in Hq as (w1 & H1 & Hq).
  apply quiet_S in Hq as (w2 & H2 & Hq).
  apply quiet_S in Hq as (w3 & H3 & Hq).
  apply quiet_S in Hq as (w4 & H4 & _).
  unfold backgroundInform_signals, inform_trace.
  destruct (Z.eqb_spec (background_inform g1) 0) as [Hbi|Hbi].
  - rewrite (comp_bind_silent _ _ w (false, g1) w0).
    2:{ unfold inform_entering.
        rewrite (comp_bind_silent _ _ _ _ _ (deliver_signals_eq g _ _ _ H0)).
        fold g1. by rewrite Hbi. }
    cbv beta iota.
    rewrite (comp_bind_silent _ _ w0 g1 w1).
    2:{ rewrite (comp_bind_silent _ _ w0 (false, g1) w1); [done|].
        unfold inform_exiting.
        rewrite (comp_bind_silent _ _ _ _ _ (deliver_signals_eq g1 _ _ _ H1)).
        cbn [Nat.iter nat_rect]. by rewrite Hbi. }
    exists w2. unfold mbind, comp_bind, fflush, emit, ret.
    by rewrite (deliver_signals_eq g1 _ _ _ H2).
  - apply Z.eqb_neq in Hbi.
    destruct (Z.eqb_spec (disallow_background g1) 0) as [Hdb|Hdb].
    + rewrite (comp_bind_silent _ _ w (false, g1) w1).
      2:{ unfold inform_entering.
          rewrite (comp_bind_silent _ _ _ _ _ (deliver_signals_eq g _ _ _ H0)).
          fold g1. rewrite Hbi.
          rewrite (comp_bind_silent _ _ _ _ _ (deliver_signals_eq g1 _ _ _ H1)).
          cbn [Nat.iter nat_rect]. by rewrite Hdb. }
      cbv beta iota.
      rewrite (comp_bind_Ok _ _ w1 [Printf "Exiting foreground-only mode\n" []]
                 g1 w3).
      2:{ rewrite (comp_bind_silent _ _ w1 (true, g1) w3); [done|].
          unfold inform_exiting.
          rewrite (comp_bind_silent _ _ _ _ _ (deliver_signals_eq g1 _ _ _ H2)).
          cbn [Nat.iter nat_rect]. rewrite Hbi.
          rewrite (comp_bind_silent _ _ _ _ _ (deliver_signals_eq g1 _ _ _ H3)).
          cbn [Nat.iter nat_rect]. by rewrite Hdb. }
      exists w4. unfold mbind, comp_bind, fflush, emit, ret.
      by rewrite (deliver_signals_eq g1 _ _ _ H4).
    + apply Z.eqb_neq in Hdb.
      rewrite (comp_bind_silent _ _ w (true, g1) w1).
      2:{ unfold inform_entering.
          rewrite (comp_bind_silent _ _ _ _ _ (deliver_signals_eq g _ _ _ H0)).
          fold g1. rewrite Hbi.
          rewrite (comp_bind_silent _ _ _ _ _ (deliver_signals_eq g1 _ _ _ H1)).
          cbn [Nat.iter nat_rect]. by rewrite Hdb. }
      cbv beta iota.
      rewrite (comp_bind_Ok _ _ w1
                 [Printf "Entering foreground-only mode (& is now ignored)\n" []]
                 g1 w1) by done.
      exists w2. unfold mbind, comp_bind, fflush, emit, ret.
      by rewrite (deliver_signals_eq g1 _ _ _ H2).
Qed.

Lemma prompt_not_in_reconciliation pids answers :
  prompt ∉ (reconciliation pids answers).1.
Proof.
  revert answers. induction pids as [|p pids IH]; intros answers;
    cbn [reconciliation]; [cbn; not_in_list|].
  destruct (p =? 0); [apply IH|].
  destruct answers as [|[r stat] answers]; [cbn; not_in_list|].
  cbn [fst]. intros [Hin|[Hin|Hin]%elem_of_app]%elem_of_cons.
  - discriminate.
  - revert Hin. destruct (r =? 0); [not_in_list|].
    unfold report. destruct (WIFEXITED stat); not_in_list.
  - by apply IH in Hin.
Qed.

(** Without any delivery, [backgroundInform] called with
    [background_inform] at 0 prints no notification. *)
Lemma backgroundInform_signals_nothing_pending g (v : W) :
  background_inform g = 0 →
  quiet 3 v →
  ∃ v', backgroundInform_signals g v
        = ([Fflush], Ok (set_background_inform 0 g, v')).
Proof.
  intros Hbi Hq.
  apply quiet_S in Hq as (v1 & Hv1 & Hq).
  apply quiet_S in Hq as (v2 & Hv2 & Hq).
  apply quiet_S in Hq as (v3 & Hv3 & _).
  exists v3. unfold backgroundInform_signals.
  rewrite (comp_bind_silent _ _ v (false, g) v1).
  2:{ unfold inform_entering.
      rewrite (comp_bind_silent _ _ _ _ _ (deliver_signals_eq g _ _ _ Hv1)).
      cbn [Nat.iter nat_rect]. by rewrite Hbi. }
  cbv beta iota.
  rewrite (comp_bind_silent _ _ v1 g v2).
  2:{ rewrite (comp_bind_silent _ _ v1 (false, g) v2); [done|].
      unfold inform_exiting.
      rewrite (comp_bind_silent _ _ _ _ _ (deliver_signals_eq g _ _ _ Hv2)).
      cbn [Nat.iter nat_rect]. by rewrite Hbi. }
  unfold mbind, comp_bind, fflush, emit, ret.
  by rewrite (deliver_signals_eq g _ _ _ Hv3).
Qed.

(** C9: every pass of the loop of [getCommand] emits what
    [backgroundInform] emits, then the reconciliation of the whole job
    table (each tracked process polled once, in slot order, the report of
    a finished one, with its disposition line and the flush, right after
    its poll, and its slot freed), then the prompt, its flush and the
    reading of the line; the prompt is printed nowhere before.  When no
    SIGTSTP is delivered while [backgroundInform] runs, what it emits is
    the pending notification, if there is one, and the flush.  But
    [backgroundInform] tests the flags and only afterwards clears
    [background_inform], and the handler can run in between, so that the
    notification can be lost.  (a) With the notification of the return to
    the normal mode pending, a SIGTSTP delivered between the first test and
    the second makes both tests false: the pass prints no notification
    before its prompt, and clears the flag although the shell is now in
    foreground-only mode.  (b) With nothing pending, a SIGTSTP delivered
    after the tests and before the assignment has its flag cleared by that
    assignment: no notification before the prompt, and the mode has
    changed.  (c) Either way [background_inform] is 0 afterwards, and a
    later call of [backgroundInform], with nothing delivered, prints no
    notification: the user is never told. *)
Theorem cycle_order_and_lost_notification (g : globals) (pids : list Z)
    (w : W) :
  length pids = Z.to_nat BGPID_ARR_SIZE →
  ∃ tI g' w1,
    backgroundInform_signals g w = (tI, Ok (g', w1)) ∧
    getCommand_cycle g pids w
    = (tI
       ++ (reconciliation pids (poll_answers pids w1).1).1
       ++ [prompt; Fflush; Getline (os_getline (poll_answers pids w1).2).1],
       Ok (g', (reconciliation pids (poll_answers pids w1).1).2,
           match (os_getline (poll_answers pids w1).2).1 with
           | Some s => if accepted s then Some s else None
           | None => None
           end,
           (os_getline (poll_answers pids w1).2).2)) ∧
    (prompt ∉ tI ++ (reconciliation pids (poll_answers pids w1).1).1) ∧
    (∀ n w0,
       os_sigtstp w = (n, w0) → quiet 4 w0 →
       tI = inform_trace (Nat.iter n catchSIGTSTP g) ∧
       g' = set_background_inform 0 (Nat.iter n catchSIGTSTP g)) ∧
    (∀ v1 v2 v3 v4 v5,
       background_inform g ≠ 0 → disallow_background g = 0 →
       os_sigtstp w = (0%nat, v1) →
       os_sigtstp v1 = (0%nat, v2) →
       os_sigtstp v2 = (1%nat, v3) →
       os_sigtstp v3 = (0%nat, v4) →
       os_sigtstp v4 = (0%nat, v5) →
       tI = [Fflush] ∧
       g' = set_background_inform 0 (catchSIGTSTP g) ∧
       disallow_background g' = 1 ∧ background_inform g' = 0) ∧
    (∀ v1 v2 v3,
       background_inform g = 0 →
       os_sigtstp w = (0%nat, v1) →
       os_sigtstp v1 = (0%nat, v2) →
       os_sigtstp v2 = (1%nat, v3) →
       tI = [Fflush] ∧
       g' = set_background_inform 0 (catchSIGTSTP g) ∧
       disallow_background g' ≠ disallow_background g ∧
       background_inform g' = 0) ∧
    (∀ v, quiet 3 v →
       ∃ v',
         backgroundInform_signals (set_background_inform 0 (catchSIGTSTP g)) v
         = ([Fflush], Ok (set_background_inform 0 (catchSIGTSTP g), v'))).
Proof.
  intros Hlen.
  destruct (getCommand_cycle_spec g pids w Hlen)
    as (tI & g' & w1 & tR & pids' & w2 & r & w3 & Hinf & Hrun & Hget & _ & _
        & Hcycle & HtI & _).
  exists tI, g', w1. split; [done|].
  unfold resolveBGPID in Hrun.
  rewrite (resolveBGPID_from_exact _ 0) in Hrun by (by rewrite Hlen).
  change (drop 0 pids) with pids in Hrun.
  change (take 0 pids) with (@nil Z) in Hrun. cbn [app] in Hrun.
  injection Hrun as <- <- <-.
  rewrite Hget. cbn [fst snd]. split; [done|].
  split; [|split; [|split; [|split]]].
  - apply not_elem_of_app. split; [done|apply prompt_not_in_reconciliation].
  - intros n w0 H0 Hq.
    destruct (backgroundInform_signals_quiet g w w0 n H0 Hq) as [w' Hq'].
    rewrite Hinf in Hq'. by injection Hq' as -> ->.
  - intros v1 v2 v3 v4 v5 Hbi Hdb H1 H2 H3 H4 H5.
    rewrite (backgroundInform_signal_between_tests g w v1 v2 v3 v4 v5
               Hbi Hdb H1 H2 H3 H4 H5) in Hinf.
    injection Hinf as <- <- <-. split; [done|]. split; [done|].
    unfold catchSIGTSTP. rewrite Hdb. by destruct g.
  - intros v1 v2 v3 Hbi H1 H2 H3.
    rewrite (backgroundInform_late_signal g w v1 v2 v3 Hbi H1 H2 H3) in Hinf.
    injection Hinf as <- <- <-. split; [done|]. split; [done|].
    split; [|by destruct g]. unfold catchSIGTSTP.
    destruct (Z.eqb_spec (disallow_background g) 0) as [E|E];
      destruct g; simpl in *; lia.
  - intros v Hq.
    assert (background_inform (set_background_inform 0 (catchSIGTSTP g)) = 0)
      as Hbi by (by destruct g).
    destruct (backgroundInform_signals_nothing_pending _ v Hbi Hq)
      as [v' Hv'].
    rewrite Hv'. exists v'. by destruct g.
Qed.

End Cycle.

(** The notification of the return to the normal mode is pending, job 8
    has exited with status 1, job 9 is running, and SIGTSTP is delivered
    between the two tests of [backgroundInform]: the job is reported and
    the prompt printed, without any notification, and the shell is in
    foreground-only mode with [background_inform] at 0. *)
Lemma cycle_order_and_lost_notification_witness :
  getCommand_cycle (Globals "" 0 0 1) ([0; 8; 9] ++ replicate 17 0)
    (Script 1 ["ls" +:+ nl] [(8, 256); (0, 0)] [] [0; 0; 1; 0; 0]%nat)
  = ([Fflush;
      Waitpid 8 WNOHANG 8 256;
      Printf "background pid %d is done: " [8];
      Printf "exit value %d\n" [1]; Fflush;
      Waitpid 9 WNOHANG 0 0;
      prompt; Fflush; Getline (Some ("ls" +:+ nl))],
     Ok (Globals "" 0 1 0, [0; 0; 9] ++ replicate 17 0, Some ("ls" +:+ nl),
         Script 1 [] [] [] [])).
Proof.
  destruct (cycle_order_and_lost_notification (Globals "" 0 0 1)
              ([0; 8; 9] ++ replicate 17 0)
              (Script 1 ["ls" +:+ nl] [(8, 256); (0, 0)] []
                 [0; 0; 1; 0; 0]%nat)
              eq_refl)
    as (tI & g' & w1 & Hinf & Hcycle & _ & _ & Hlost & _).
  destruct (Hlost
              (Script 1 ["ls" +:+ nl] [(8, 256); (0, 0)] [] [0; 1; 0; 0]%nat)
              (Script 1 ["ls" +:+ nl] [(8, 256); (0, 0)] [] [1; 0; 0]%nat)
              (Script 1 ["ls" +:+ nl] [(8, 256); (0, 0)] [] [0; 0]%nat)
              (Script 1 ["ls" +:+ nl] [(8, 256); (0, 0)] [] [0]%nat)
              (Script 1 ["ls" +:+ nl] [(8, 256); (0, 0)] [] []))
    as (-> & -> & _); [discriminate|reflexivity..|].
  assert (w1 = Script 1 ["ls" +:+ nl] [(8, 256); (0, 0)] [] []) as ->.
  { vm_compute in Hinf. by injection Hinf as <-. }
  exact Hcycle.
Defined.

(** A pass in which the one SIGTSTP is delivered before [backgroundInform]
    reads the flags: the notification comes first, then the report of job
    8, then the prompt. *)
Example cycle_trace :
  getCommand_cycle (Globals "" 0 0 0) ([0; 8; 9] ++ replicate 17 0)
    (Script 1 ["ls" +:+ nl] [(8, 256); (0, 0)] [] [1%nat])
  = ([Printf "Entering foreground-only mode (& is now ignored)\n" []; Fflush;
      Waitpid 8 WNOHANG 8 256;
      Printf "background pid %d is done: " [8];
      Printf "exit value %d\n" [1]; Fflush;
      Waitpid 9 WNOHANG 0 0;
      prompt; Fflush; Getline (Some ("ls" +:+ nl))],
     Ok (Globals "" 0 1 0, [0; 0; 9] ++ replicate 17 0, Some ("ls" +:+ nl),
         Script 1 [] [] [] [])).
Proof. reflexivity. Qed.

(** ** The background flag between commands *)

Section Flag.
Context {W : Type} `{OS W}.

Lemma comp_bind_inv {A B} (c : comp A) (f : A → comp B) (w : W) t b w' :
  (c ≫= f) w = (t, Ok (b, w')) →
  ∃ t1 a w1 t2,
    c w = (t1, Ok (a, w1)) ∧ f a w1 = (t2, Ok (b, w')) ∧ t = t1 ++ t2.
Proof.
  unfold mbind, comp_bind.
  destruct (c w) as [t1 [[a w1]| | | |]]; try discriminate.
  destruct (f a w1) as [t2 o] eqn:E. intros [= <- ->]. eauto 10.
Qed.

Lemma ret_inv {A} (a b : A) (w w' : W) t :
  ret a w = (t, Ok (b, w')) → a = b ∧ w = w'.
Proof. by intros [= _ -> ->]. Qed.

Lemma lift_inv {A} (o : outcome A) (w w' : W) t a :
  lift o w = (t, Ok (a, w')) → o = Ok a ∧ w = w'.
Proof. unfold lift. destruct o; cbn; by intros [= _ -> ->]. Qed.

Lemma catchSIGTSTP_background g :
  background (catchSIGTSTP g) = background g.
Proof. unfold catchSIGTSTP. by destruct (_ =? _), g. Qed.

Lemma signals_background n g :
  background (Nat.iter n catchSIGTSTP g) = background g.
Proof.
  induction n as [|n IH]; [done|].
  by rewrite Nat.iter_succ, catchSIGTSTP_background.
Qed.

Lemma cleanup_background a n g a' g' :
  cleanup a n g = Ok (a', g') → background g' = 0.
Proof.
  unfold cleanup. destruct (cleanup_from _ _ _); try discriminate.
  cbn. by intros [= _ <-].
Qed.

Lemma statusShell_background lastStat g (w w' : W) t g' :
  statusShell lastStat g w = (t, Ok (g', w')) → background g' = 0.
Proof.
  unfold statusShell, mbind, comp_bind, printf, fflush, emit, ret.
  destruct (WIFEXITED lastStat); by intros [= _ <- _].
Qed.

Lemma cdShell_background a n g (w w' : W) t g' :
  cdShell a n g w = (t, Ok (g', w')) → background g' = 0.
Proof.
  unfold cdShell. intros Hrun.
  apply comp_bind_inv in Hrun as (t1 & p & w1 & t2 & _ & Hrun & _).
  apply comp_bind_inv in Hrun as (t3 & src & w2 & t4 & _ & Hrun & _).
  apply comp_bind_inv in Hrun as (t5 & path & w3 & t6 & _ & Hrun & _).
  apply comp_bind_inv in Hrun as (t7 & [] & w4 & t8 & _ & Hrun & _).
  by apply ret_inv in Hrun as [<- _].
Qed.

Lemma exitShell_background pids g (w w' : W) t pids' g' :
  exitShell pids g w = (t, Ok (pids', g', w')) → background g' = 0.
Proof.
  unfold exitShell. intros Hrun.
  apply comp_bind_inv in Hrun as (t1 & p & w1 & t2 & _ & Hrun & _).
  by apply ret_inv in Hrun as [[= _ <-] _].
Qed.

Lemma dispatch_flag_clear s line (w w' : W) t c :
  dispatch s line w = (t, Ok (c, w')) → flag_clear c.
Proof.
  unfold dispatch. intros Hrun.
  apply comp_bind_inv in Hrun as (? & g & ? & ? & _ & Hrun & _).
  apply comp_bind_inv in Hrun as (? & pid & ? & ? & _ & Hrun & _).
  apply comp_bind_inv in Hrun as (? & m & ? & ? & _ & Hrun & _).
  apply comp_bind_inv in Hrun as (? & a0 & ? & ? & _ & Hrun & _).
  apply comp_bind_inv in Hrun as (? & name & ? & ? & _ & Hrun & _).
  destruct (streq name "exit").
  - apply comp_bind_inv in Hrun as (? & ? & ? & ? & _ & Hrun & _).
    by apply ret_inv in Hrun as [<- _].
  - apply comp_bind_inv in Hrun
      as (? & [[[g' pids'] lastStat'] spawnpid'] & ? & ? & _ & Hrun & _).
    apply comp_bind_inv in Hrun as (? & [a' g''] & ? & ? & Hclean & Hrun & _).
    apply lift_inv in Hclean as [Hclean _].
    apply ret_inv in Hrun as [<- _]. simpl.
    by eapply cleanup_background.
Qed.

Lemma step_flag_clear c (w w' : W) t c' :
  flag_clear c → step c w = (t, Ok (c', w')) → flag_clear c'.
Proof.
  intros Hc Hstep. destruct c as [s|s|s line|code]; cbn [step] in Hstep.
  - apply comp_bind_inv in Hstep as (? & [[r i] o] & ? & ? & _ & Hstep & _).
    by apply ret_inv in Hstep as [<- _].
  - apply comp_bind_inv in Hstep as (? & [[g pids] r] & ? & ? & Hcycle & Hstep & _).
    assert (background g = 0) as Hg.
    { unfold getCommand_cycle in Hcycle.
      apply comp_bind_inv in Hcycle as (? & g2 & ? & ? & Hinf & Hcycle & _).
      apply comp_bind_inv in Hcycle as (? & pids2 & ? & ? & _ & Hcycle & _).
      apply comp_bind_inv in Hcycle as (? & [] & ? & ? & _ & Hcycle & _).
      apply comp_bind_inv in Hcycle as (? & [] & ? & ? & _ & Hcycle & _).
      apply comp_bind_inv in Hcycle as (? & r' & ? & ? & _ & Hcycle & _).
      assert (g2 = g) as ->.
      { destruct r'; by apply ret_inv in Hcycle as [[= -> _ _] _]. }
      destruct (backgroundInform_signals_spec (sh_glob s) w)
        as (tI & n & w1 & Hspec & _).
      rewrite Hspec in Hinf. injection Hinf as _ <- _.
      change (background (set_background_inform 0 ?x)) with (background x).
      by rewrite signals_background. }
    destruct r as [line|].
    + apply comp_bind_inv in Hstep as (? & ui & ? & ? & _ & Hstep & _).
      by apply ret_inv in Hstep as [<- _].
    + by apply ret_inv in Hstep as [<- _].
  - by eapply dispatch_flag_clear.
  - by apply ret_inv in Hstep as [<- _].
Qed.

(** C10: at every control point that a run of [main] reaches, and so each
    time a line is about to be parsed, the background flag is 0, also
    after any number of SIGTSTP deliveries; and each of [statusShell],
    [cdShell], [exitShell] and [cleanup] returns with the flag 0. *)
Theorem background_clear_when_parsing :
  (∀ cw : config * W, reachable cw → flag_clear cw.1) ∧
  (∀ s line (w : W), reachable (Parsing s line, w) →
     ∀ n, background (Nat.iter n catchSIGTSTP (sh_glob s)) = 0) ∧
  (∀ lastStat g (w w' : W) t g',
     statusShell lastStat g w = (t, Ok (g', w')) → background g' = 0) ∧
  (∀ a n g (w w' : W) t g',
     cdShell a n g w = (t, Ok (g', w')) → background g' = 0) ∧
  (∀ pids g (w w' : W) t pids' g',
     exitShell pids g w = (t, Ok (pids', g', w')) → background g' = 0) ∧
  (∀ a n g a' g', cleanup a n g = Ok (a', g') → background g' = 0).
Proof.
  assert (∀ cw : config * W, reachable cw → flag_clear cw.1) as Hinv.
  { induction 1 as [args0 rj pj c w _ _ Hstart | [c w] t [c' w'] _ IH Hmove].
    - unfold main_start in Hstart.
      destruct (scrubPIDArray pj); try discriminate.
      by injection Hstart as <-.
    - by eapply step_flag_clear. }
  split; [done|]. split.
  { intros s line w Hreach n. rewrite signals_background.
    apply (Hinv _ Hreach). }
  eauto 10 using statusShell_background, cdShell_background,
    exitShell_background, cleanup_background.
Qed.

End Flag.

Lemma run_reachable {W : Type} `{OS W} n c (w : W) cw' :
  reachable (c, w) → run n c w = Some cw' → reachable cw'.
Proof.
  revert c w. induction n as [|n IH]; intros c w Hreach; cbn [run].
  - by intros [= <-].
  - destruct (step c w) as [t [[c1 w1]| | | |]] eqn:Hstep; try discriminate.
    apply IH. by eapply (reach_step (c, w) t (c1, w1)).
Qed.

(** A run that reaches the parse of "status" after the background command
    "sleep 5 &", whose process 77 is in the job table: the flag that
    command set is clear again. *)
Lemma background_clear_when_parsing_witness :
  reachable
    (Parsing (Shell (Globals "" 0 0 0)
                (replicate 4 NULL ++ replicate 509 Undef) (Redirs NULL NULL)
                3 (-5) (-5) (-5) 77 (77 :: replicate 19 0)) "status",
     Script 4242 [] [] [] []) ∧
  background (Globals "" 0 0 0) = 0.
Proof.
  assert (reachable
    (Parsing (Shell (Globals "" 0 0 0)
                (replicate 4 NULL ++ replicate 509 Undef) (Redirs NULL NULL)
                3 (-5) (-5) (-5) 77 (77 :: replicate 19 0)) "status",
     Script 4242 [] [] [] [])) as Hreach.
  { apply (run_reachable 5
             (AtLoop (Shell globals_init (replicate 513 Undef)
                        (Redirs Undef Undef) 0 (-5) (-5) (-5) (-5)
                        (replicate 20 0)))
             (Script 4242 ["sleep 5 &" +:+ nl; "status" +:+ nl] [(0, 0)]
                [77] [])).
    - apply (reach_start (replicate 513 Undef) (Redirs Undef Undef)
               (replicate 20 7)); reflexivity.
    - vm_compute. reflexivity. }
  split; [exact Hreach|].
  exact (proj1 background_clear_when_parsing _ Hreach).
Defined.

(** * Further properties of the code *)

(** ** The tokeniser *)

Lemma fields_app_space a b :
  fields (a +:+ " " +:+ b) = fields a ++ fields b.
Proof.
  induction a as [|c a IH]; [done|].
  change (String c a +:+ " " +:+ b) with (String c (a +:+ " " +:+ b)).
  cbn [fields]. rewrite IH. destruct (Ascii.eqb c " "); [done|].
  pose proof (fields_nonempty a). by destruct (fields a).
Qed.

(** X1: the tokens of two strings joined by a space are the tokens of the
    first followed by the tokens of the second: the [strtok] loop of
    [parseCommand] splits at every space, whatever stands on either side. *)
Theorem tokens_app_space a b :
  tokens (a +:+ " " +:+ b) = tokens a ++ tokens b.
Proof.
  rewrite !tokens_whitespace_split. unfold whitespace_split.
  by rewrite fields_app_space, filter_app.
Qed.

Lemma fields_word t : has_space t = false → fields t = [t].
Proof.
  induction t as [|c t IH]; [done|]. cbn [has_space fields]. unfold is_delim.
  destruct (Ascii.eqb c " "); [done|]. intros Ht. by rewrite IH.
Qed.

Lemma tokens_word t : word t → tokens t = [t].
Proof.
  intros [Hne Hsp]. rewrite tokens_whitespace_split. unfold whitespace_split.
  rewrite fields_word by done. by rewrite filter_cons_True.
Qed.

(** X2: round trip of the tokeniser: words (non-empty strings without a
    space) joined by single spaces are given back by the [strtok] loop,
    one token per word, in order. *)
Theorem tokens_concat ts :
  Forall word ts → tokens (String.concat " " ts) = ts.
Proof.
  induction 1 as [|t ts Ht Hts IH]; [done|].
  destruct ts as [|t' ts]; [by apply tokens_word|].
  change (String.concat " " (t :: t' :: ts))
    with (t +:+ " " +:+ String.concat " " (t' :: ts)).
  rewrite tokens_whitespace_split. unfold whitespace_split.
  rewrite fields_app_space, filter_app.
  change (filter _ (fields ?s)) with (whitespace_split s).
  by rewrite <- !tokens_whitespace_split, IH, tokens_word.
Qed.

Lemma span_token_word s t r : span_token s = (t, r) → has_space t = false.
Proof.
  revert t r. induction s as [|c s IH]; intros t r; simpl.
  - by intros [= <- _].
  - destruct (is_delim c) eqn:E; [by intros [= <- _]|].
    destruct (span_token s) as [t' r']. intros [= <- _]. simpl.
    rewrite E. by eapply IH.
Qed.

(** X3: for every line, each token that the [strtok] loop yields is
    non-empty and has no space in it. *)
Theorem tokens_words s : Forall word (tokens s).
Proof.
  remember (String.length s) as n eqn:Hn. revert s Hn.
  induction (lt_wf n) as [n _ IH]. intros s ->.
  rewrite tokens_unfold. destruct (strtok s) as [[t|] r] eqn:E; [|done].
  pose proof (strtok_Some _ _ _ E) as [Hne Hr].
  constructor; [|by eapply IH].
  split; [done|]. unfold strtok in E.
  destruct (skip_delims s); [done|].
  destruct (span_token _) as [t' r'] eqn:E'. injection E as <- <-.
  by eapply span_token_word.
Qed.

(** Three words joined by spaces. *)
Lemma tokens_concat_witness :
  tokens (String.concat " " ["ls"; "-la"; "/tmp"]) = ["ls"; "-la"; "/tmp"].
Proof.
  apply (tokens_concat ["ls"; "-la"; "/tmp"]).
  repeat constructor; discriminate.
Defined.

(** ** The prompt loop *)

Lemma strlen_app s t :
  nul_free s → strlen (s +:+ t) = (String.length s + strlen t)%nat.
Proof.
  unfold nul_free. induction s as [|c s IH]; [done|].
  change (String c s +:+ t) with (String c (s +:+ t)).
  cbn [strlen String.length]. destruct (Ascii.eqb c "000"); [done|].
  intros [= Hs]. by rewrite IH.
Qed.

Lemma nul_free_app_l s t : nul_free (s +:+ t) → nul_free s.
Proof.
  unfold nul_free. induction s as [|c s IH]; [done|].
  change (String c s +:+ t) with (String c (s +:+ t)).
  cbn [strlen String.length]. destruct (Ascii.eqb c "000"); [done|].
  intros [= Hs]. by rewrite IH.
Qed.

Lemma chop_snoc s c :
  nul_free s → c ≠ "000"%char →
  chop (s +:+ String c EmptyString) = Ok s.
Proof.
  intros Hs Hc. unfold chop. rewrite strlen_app by done.
  cbn [strlen]. rewrite (proj2 (Ascii.eqb_neq c "000") Hc).
  replace (String.length s + 1)%nat with (S (String.length s)) by lia.
  by rewrite cut_app.
Qed.

Lemma chop_before_nul s c rest :
  nul_free (s +:+ String c EmptyString) →
  chop (s +:+ String c (String "000" rest)) = Ok s.
Proof.
  intros Hs. pose proof (nul_free_app_l _ _ Hs) as Hs'.
  unfold chop. rewrite strlen_app by done.
  assert (Ascii.eqb c "000" = false) as Hc.
  { unfold nul_free in Hs. rewrite strlen_app, string_app_length in Hs by done.
    cbn [strlen String.length] in Hs. destruct (Ascii.eqb c "000"); [lia|done]. }
  cbn [strlen]. rewrite Hc. cbn [Ascii.eqb Bool.eqb andb].
  replace (String.length s + 1)%nat with (S (String.length s)) by lia.
  by rewrite cut_app.
Qed.

Lemma to_int_small z : 0 ≤ z < 2 ^ 31 → to_int z = z.
Proof. intros Hz. unfold to_int. rewrite Z.mod_small; lia. Qed.

Lemma to_int_wraps z : 2 ^ 31 ≤ z < 2 ^ 32 → to_int z = z - 2 ^ 32.
Proof.
  intros Hz. unfold to_int.
  replace (z + 2 ^ 31) with ((z - 2 ^ 31) + 1 * 2 ^ 32) by lia.
  rewrite Z.mod_add by lia. rewrite Z.mod_small; lia.
Qed.

Lemma accepted_short l :
  Z.of_nat (String.length l) < 2 ^ 31 →
  accepted l = true
  ↔ starts_with "#" l = false ∧ (1 < String.length l)%nat.
Proof.
  intros Hl. unfold accepted. rewrite to_int_small by lia.
  rewrite andb_true_iff, negb_true_iff, Z.ltb_lt. split; intros [? ?];
    (split; [done|lia]).
Qed.

(** X4: what [getCommand] hands over of the line read, and which lines
    make it leave its loop.  Of a line without NUL byte that ends in one
    more character [c] other than NUL (the newline, or any other character
    when the input ends without one), the last character is overwritten and
    the rest [s] is handed over.  Of a line with a NUL byte in it,
    [strlen] stops at the first one: what is handed over is the text before
    that NUL less its last character.  On a line that starts with a NUL
    byte the write is at index [strlen - 1] with [strlen] 0, outside the
    buffer.  A line shorter than 2^31 bytes is accepted exactly when it
    does not start with the comment sign and is longer than one byte; a
    line of 2^31 bytes or more, up to 2^32, gives a negative [numChars]
    and is rejected. *)
Theorem getCommand_hands_over :
  (∀ s c, nul_free s → c ≠ "000"%char →
          chop (s +:+ String c EmptyString) = Ok s) ∧
  (∀ s c rest, nul_free (s +:+ String c EmptyString) →
               chop (s +:+ String c (String "000" rest)) = Ok s) ∧
  (∀ rest, chop (String "000" rest) = Undefined OutOfBounds) ∧
  (∀ l, Z.of_nat (String.length l) < 2 ^ 31 →
        accepted l = true
        ↔ starts_with "#" l = false ∧ (1 < String.length l)%nat) ∧
  (∀ l, 2 ^ 31 ≤ Z.of_nat (String.length l) < 2 ^ 32 → accepted l = false).
Proof.
  split; [exact chop_snoc|]. split; [exact chop_before_nul|].
  split; [done|]. split; [exact accepted_short|].
  intros l Hl. unfold accepted. rewrite to_int_wraps by done.
  apply andb_false_iff. right. apply Z.ltb_ge. lia.
Qed.

Lemma prompts_app t1 t2 : prompts (t1 ++ t2) = (prompts t1 + prompts t2)%nat.
Proof. unfold prompts. by rewrite filter_app, length_app. Qed.

Lemma prompts_inform g : prompts (inform_trace g) = 0%nat.
Proof.
  unfold inform_trace. by destruct (_ && _); [|destruct (_ && _)].
Qed.

Lemma script_inform g pid ls ws forks :
  backgroundInform_signals g (Script pid ls ws forks [])
  = (inform_trace g,
     Ok (set_background_inform 0 g, Script pid ls ws forks [])).
Proof.
  unfold backgroundInform_signals, inform_entering, inform_exiting,
    inform_trace, deliver_signals, mbind, comp_bind, printf, fflush, emit, ret.
  destruct g as [ps b d bi]; cbn.
  repeat (match goal with
          | |- context [?x =? 0] => is_var x; destruct (x =? 0) eqn:?
          end; cbn);
    congruence.
Qed.

Lemma script_cycle g pid l ls forks :
  getCommand_cycle g (replicate (Z.to_nat BGPID_ARR_SIZE) 0)
    (Script pid (l :: ls) [] forks [])
  = (inform_trace g ++ [prompt; Fflush; Getline (Some l)],
     Ok (set_background_inform 0 g, replicate (Z.to_nat BGPID_ARR_SIZE) 0,
         if accepted l then Some l else None, Script pid ls [] forks [])).
Proof.
  unfold getCommand_cycle.
  rewrite (comp_bind_Ok _ _ _ _ _ _ (script_inform _ _ _ _ _)).
  rewrite (comp_bind_Ok _ _ _ _ _ _ (resolveBGPID_empty _)).
  reflexivity.
Qed.

Lemma getCommand_S {W : Type} `{OS W} fuel g pids :
  getCommand (S fuel) g pids
  = ('(g', pids', r) ← getCommand_cycle g pids;
     match r with
     | Some s => userInput ← lift (chop s); ret (g', pids', userInput)
     | None => getCommand fuel g' pids'
     end).
Proof. reflexivity. Qed.

Lemma no_getline_in_inform g l : Getline l ∉ inform_trace g.
Proof.
  unfold inform_trace.
  destruct (_ && _); [|destruct (_ && _)]; simpl; not_in_list.
Qed.

(** X5: on an input that starts with lines [getCommand] rejects (blank
    lines and comments) followed by a line it accepts, with no job tracked
    and no signal delivered, [getCommand] has printed the prompt once per
    line read and has read no other line; it returns what [chop] leaves of
    the accepted line, the input consumed up to and including that line,
    unless the accepted line starts with a NUL byte, in which case the
    write that ends [getCommand] is outside the buffer. *)
Theorem getCommand_skips_rejected g pid skipped line rest forks :
  Forall (λ l, accepted l = false) skipped →
  accepted line = true →
  ∃ t,
    getCommand (S (length skipped)) g (replicate (Z.to_nat BGPID_ARR_SIZE) 0)
      (Script pid (skipped ++ line :: rest) [] forks [])
    = (t,
       match chop line with
       | Ok userInput =>
           Ok (set_background_inform 0 g,
               replicate (Z.to_nat BGPID_ARR_SIZE) 0, userInput,
               Script pid rest [] forks [])
       | _ => Undefined OutOfBounds
       end) ∧
    prompts t = S (length skipped) ∧
    ∀ l, Getline (Some l) ∈ t → l ∈ skipped ∨ l = line.
Proof.
  intros Hskip Hline. revert g.
  induction Hskip as [|l skipped Hl _ IH]; intros g.
  - eexists. rewrite getCommand_S. cbn [app length].
    rewrite (comp_bind_Ok _ _ _ _ _ _ (script_cycle _ _ _ _ _)), Hline.
    cbv beta iota. cbn [fst snd]. split; [|split].
    + unfold chop, mbind, comp_bind, lift, ret.
      destruct (strlen line); cbn; by rewrite ?app_nil_r.
    + by rewrite prompts_app, prompts_inform.
    + intros l [Hin|Hin]%elem_of_app.
      * by apply no_getline_in_inform in Hin.
      * right. repeat (apply elem_of_cons in Hin as [Hin|Hin]; try discriminate).
        { by injection Hin as ->. } { by apply elem_of_nil in Hin. }
  - destruct (IH (set_background_inform 0 g)) as (t & Hrun & Hp & Hin).
    eexists. rewrite getCommand_S. cbn [app length].
    rewrite (comp_bind_Ok _ _ _ _ _ _ (script_cycle _ _ _ _ _)), Hl.
    cbv beta iota. rewrite Hrun. cbn [fst snd].
    replace (set_background_inform 0 (set_background_inform 0 g))
      with (set_background_inform 0 g) by (by destruct g).
    split; [reflexivity|]. split.
    + rewrite !prompts_app, prompts_inform, Hp. done.
    + intros l' [[Hi|Hi]%elem_of_app|Hi]%elem_of_app.
      * by apply no_getline_in_inform in Hi.
      * left. repeat (apply elem_of_cons in Hi as [Hi|Hi]; try discriminate).
        { injection Hi as ->. apply list_elem_of_here. }
        { by apply elem_of_nil in Hi. }
      * destruct (Hin l' Hi) as [?| ->]; [left; by apply list_elem_of_further|by right].
Qed.

(** A comment and a blank line before the command "ls". *)
Lemma getCommand_skips_rejected_witness :
  ∃ t,
    getCommand 3 globals_init (replicate (Z.to_nat BGPID_ARR_SIZE) 0)
      (Script 4242 ["# a comment" +:+ nl; nl; "ls" +:+ nl; "exit" +:+ nl]
         [] [] [])
    = (t, Ok (set_background_inform 0 globals_init,
              replicate (Z.to_nat BGPID_ARR_SIZE) 0, "ls",
              Script 4242 ["exit" +:+ nl] [] [] [])) ∧
    prompts t = 3%nat ∧
    ∀ l, Getline (Some l) ∈ t →
         l ∈ ["# a comment" +:+ nl; nl] ∨ l = "ls" +:+ nl.
Proof.
  assert (Forall (λ l, accepted l = false) ["# a comment" +:+ nl; nl])
    as Hskip by (by repeat constructor).
  exact (getCommand_skips_rejected globals_init 4242
           ["# a comment" +:+ nl; nl] ("ls" +:+ nl) ["exit" +:+ nl] []
           Hskip eq_refl).
Defined.

(** ** The mode controller *)

Section Mode.
Context {W : Type} `{OS W}.




(** X7: [backgroundInform] always returns, and called again with no signal
    in between it prints nothing (it only flushes) and changes nothing:
    a mode change is announced once. *)
Theorem backgroundInform_once g (w : W) :
  ∃ t g1,
    backgroundInform g w = (t, Ok (g1, w)) ∧
    backgroundInform g1 w = ([Fflush], Ok (g1, w)) ∧
    disallow_background g1 = disallow_background g ∧
    background g1 = background g ∧
    pidString g1 = pidString g.
Proof.
  exists (inform_trace g), (set_background_inform 0 g).
  rewrite !backgroundInform_spec. split; [done|]. split.
  - by destruct g.
  - by destruct g.
Qed.

End Mode.


(** ** The job table *)

Section JobTableMore.
Context {W : Type} `{OS W}.

Lemma jobs_cons_zero l : jobs (0 :: l) = jobs l.
Proof. unfold jobs. by rewrite filter_cons_False by (by intros ?). Qed.

Lemma jobs_cons p l : p ≠ 0 → jobs (p :: l) = p :: jobs l.
Proof. intros Hp. unfold jobs. by rewrite filter_cons_True. Qed.

Lemma killChildren_from_spec n (i : nat) (pids : list Z) (w : W) :
  (i + n = length pids)%nat →
  killChildren_from n (Z.of_nat i) pids w
  = (map (λ p, Kill p SIGKILL) (jobs (drop i pids)),
     Ok (take i pids ++ replicate n 0, killed (jobs (drop i pids)) w)).
Proof.
  revert i pids w. induction n as [|n IH]; intros i pids w Hn.
  { rewrite drop_ge, take_ge, app_nil_r by lia. done. }
  destruct (lookup_lt_is_Some_2 pids i) as [p Hp]; [lia|].
  cbn [killChildren_from].
  rewrite (comp_bind_Ok _ _ w [] p w) by (unfold lift; by rewrite (load_Ok _ _ _ Hp)).
  rewrite (drop_S _ _ _ Hp).
  replace (Z.of_nat i + 1) with (Z.of_nat (S i)) by lia.
  assert (take (S i) (<[i:=0]> pids) = take i pids ++ [0]) as Htake.
  { rewrite (take_S_r _ _ 0) by (apply list_lookup_insert_eq; lia).
    by rewrite take_insert_ge by lia. }
  destruct (Z.eqb_spec p 0) as [->|Hp0].
  - rewrite (comp_bind_Ok _ _ w [] pids w) by done.
    rewrite IH by lia. cbn [fst snd app]. rewrite jobs_cons_zero.
    rewrite (take_S_r _ _ _ Hp), <- app_assoc. done.
  - rewrite (comp_bind_Ok _ _ w [Kill p SIGKILL] (<[i:=0]> pids)
               (os_kill p SIGKILL w)).
    2:{ unfold kill, lift, mbind, comp_bind. by rewrite store_nat by lia. }
    rewrite IH by (rewrite length_insert; lia). cbn [fst snd].
    rewrite drop_insert_lt by lia. rewrite jobs_cons by done.
    rewrite Htake, <- app_assoc. done.
Qed.

(** X8: on a job table of 20 slots [killChildren] sends SIGKILL to each
    process identifier other than 0 that the table holds, once each, in
    slot order, sends nothing else, and leaves the table all zeros. *)
Theorem killChildren_kills_every_job (pids : list Z) (w : W) :
  length pids = Z.to_nat BGPID_ARR_SIZE →
  killChildren pids w
  = (map (λ p, Kill p SIGKILL) (jobs pids),
     Ok (replicate (Z.to_nat BGPID_ARR_SIZE) 0, killed (jobs pids) w)).
Proof.
  intros Hlen. unfold killChildren.
  by rewrite (killChildren_from_spec _ 0) by (by rewrite Hlen).
Qed.

Lemma placePID_next (done : list Z) k p (w : W) :
  Forall (λ q, q ≠ 0) done →
  (length done + S k = Z.to_nat BGPID_ARR_SIZE)%nat →
  placePID (done ++ replicate (S k) 0) p w
  = ([], Ok (done ++ p :: replicate k 0, w)).
Proof.
  intros Hdone Hlen. unfold placePID, mbind, comp_bind, lift.
  change (replicate (S k) 0) with (0 :: replicate k 0).
  rewrite (placePID_from_found _ 0 (length done)).
  - cbn. by rewrite insert_app_r_alt, Nat.sub_diag by lia.
  - rewrite length_app. cbn [length]. rewrite length_replicate. lia.
  - lia.
  - by rewrite list_lookup_middle.
  - intros j [_ Hj] Hz. rewrite lookup_app_l in Hz by done.
    rewrite Forall_lookup in Hdone. by apply (Hdone j 0).
Qed.

Lemma placePID_no_room (table : list Z) p (w : W) :
  Forall (λ q, q ≠ 0) table →
  length table = Z.to_nat BGPID_ARR_SIZE →
  placePID table p w
  = ([Perror "Couldn't track background process."], Exited 1).
Proof.
  intros Hfull Hlen. unfold placePID, mbind, comp_bind, lift.
  rewrite (placePID_from_full _ 0); [done|by rewrite Hlen|].
  intros j Hz. rewrite Forall_lookup in Hfull. by apply (Hfull j 0).
Qed.

Lemma placePID_all_from (done l : list Z) (w : W) :
  Forall (λ q, q ≠ 0) done →
  Forall (λ q, q ≠ 0) l →
  (length done + length l ≤ Z.to_nat BGPID_ARR_SIZE)%nat →
  placePID_all l
    (done ++ replicate (Z.to_nat BGPID_ARR_SIZE - length done) 0) w
  = ([], Ok ((done ++ l)
             ++ replicate (Z.to_nat BGPID_ARR_SIZE - length (done ++ l)) 0,
             w)).
Proof.
  intros Hdone Hl. revert done Hdone.
  induction Hl as [|p l Hp _ IH]; intros done Hdone Hlen.
  { by rewrite app_nil_r. }
  cbn [placePID_all length] in *.
  destruct (Z.to_nat BGPID_ARR_SIZE - length done)%nat as [|k] eqn:Hk; [lia|].
  assert (length done + S k = Z.to_nat BGPID_ARR_SIZE)%nat as Hroom
    by (clear IH; lia).
  rewrite (comp_bind_Ok _ _ _ _ _ _ (placePID_next done k p w Hdone Hroom)).
  cbn [fst snd app].
  specialize (IH (done ++ [p])).
  rewrite length_app in IH. cbn [length] in IH.
  replace (Z.to_nat BGPID_ARR_SIZE - (length done + 1))%nat with k in IH by lia.
  rewrite <- !app_assoc in IH. cbn [app] in IH.
  rewrite IH; [|apply Forall_app; by repeat constructor|lia].
  cbn [fst snd]. by rewrite <- app_assoc.
Qed.

(** X9: registering process identifiers other than 0 one after the other in
    an empty job table: up to 20 of them are stored in the order of
    arrival, in the first slots, without any output; the 21st finds no room
    and the shell prints the [perror] message and exits with status 1. *)
Theorem placePID_up_to_capacity (l : list Z) (w : W) :
  Forall (λ q, q ≠ 0) l →
  ((length l ≤ Z.to_nat BGPID_ARR_SIZE)%nat →
   placePID_all l (replicate (Z.to_nat BGPID_ARR_SIZE) 0) w
   = ([], Ok (l ++ replicate (Z.to_nat BGPID_ARR_SIZE - length l) 0, w))) ∧
  (length l = Z.to_nat BGPID_ARR_SIZE →
   ∀ p, placePID_all (l ++ [p]) (replicate (Z.to_nat BGPID_ARR_SIZE) 0) w
        = ([Perror "Couldn't track background process."], Exited 1)).
Proof.
  intros Hl. split.
  - intros Hlen. apply (placePID_all_from [] l w); [done|done|simpl; lia].
  - intros Hlen p.
    assert (∀ l1 l2 table (w0 : W) t table' w',
              placePID_all l1 table w0 = (t, Ok (table', w')) →
              placePID_all (l1 ++ l2) table w0
              = (t ++ (placePID_all l2 table' w').1,
                 (placePID_all l2 table' w').2)) as Happ.
    { induction l1 as [|q l1 IH]; intros l2 table w0 t table' w' Hrun.
      - injection Hrun as <- <- <-. cbn [app].
        by destruct (placePID_all l2 table w0).
      - cbn [placePID_all app] in *.
        apply comp_bind_inv in Hrun as (t1 & tb & w1 & t2 & Hq & Hrun & ->).
        rewrite (comp_bind_Ok _ _ _ _ _ _ Hq), (IH _ _ _ _ _ _ Hrun).
        cbn. by rewrite app_assoc. }
    rewrite (Happ _ _ _ _ _ _ _ (placePID_all_from [] l w ltac:(done) Hl
                                   ltac:(simpl; lia))).
    cbn [app placePID_all]. rewrite Hlen, Nat.sub_diag, app_nil_r. cbn [replicate].
    unfold mbind, comp_bind. by rewrite placePID_no_room.
Qed.

End JobTableMore.

(** Two jobs, in the slots 1 and 3. *)
Lemma killChildren_kills_every_job_witness :
  killChildren (0 :: 77 :: 0 :: 88 :: replicate 16 0) (Script 1 [] [] [] [])
  = ([Kill 77 SIGKILL; Kill 88 SIGKILL],
     Ok (replicate 20 0, Script 1 [] [] [] [])).
Proof.
  exact (killChildren_kills_every_job (0 :: 77 :: 0 :: 88 :: replicate 16 0)
           (Script 1 [] [] [] []) eq_refl).
Defined.

(** Two registrations, and a 21st one. *)
Lemma placePID_up_to_capacity_witness :
  placePID_all [77; 88] (replicate (Z.to_nat BGPID_ARR_SIZE) 0)
    (Script 1 [] [] [] [])
  = ([], Ok (77 :: 88 :: replicate 18 0, Script 1 [] [] [] [])) ∧
  placePID_all (replicate 20 77 ++ [88])
    (replicate (Z.to_nat BGPID_ARR_SIZE) 0) (Script 1 [] [] [] [])
  = ([Perror "Couldn't track background process."], Exited 1).
Proof.
  split.
  - destruct (placePID_up_to_capacity [77; 88] (Script 1 [] [] [] []))
      as [Hroom _]; [repeat constructor; discriminate|].
    apply Hroom. vm_compute. lia.
  - destruct (placePID_up_to_capacity (replicate 20 77)
                (Script 1 [] [] [] [])) as [_ Hfull].
    + apply Forall_replicate. discriminate.
    + apply Hfull. reflexivity.
Defined.

Section Polls.
Context {W : Type} `{OS W}.

Lemma polled_app t1 t2 : polled (t1 ++ t2) = polled t1 ++ polled t2.
Proof. apply omap_app. Qed.

Lemma polled_report p stat : polled (report p stat) = [].
Proof. unfold report. by destruct (WIFEXITED stat). Qed.

Lemma resolveBGPID_from_polls n (i : nat) (pids : list Z) (w : W) t pids' w' :
  (i + n = length pids)%nat →
  resolveBGPID_from n (Z.of_nat i) pids w = (t, Ok (pids', w')) →
  polled t = jobs (drop i pids).
Proof.
  revert i pids w t. induction n as [|n IH]; intros i pids w t Hn Hrun.
  { injection Hrun as <- _ _. by rewrite drop_ge by lia. }
  destruct (lookup_lt_is_Some_2 pids i) as [p Hp]; [lia|].
  cbn [resolveBGPID_from] in Hrun.
  apply comp_bind_inv in Hrun as (t1 & pids1 & w1 & t2 & Hslot & Hrun & ->).
  rewrite (resolve_slot_spec i pids p w Hp) in Hslot.
  replace (Z.of_nat i + 1) with (Z.of_nat (S i)) in Hrun by lia.
  rewrite polled_app, (drop_S _ _ _ Hp).
  destruct (decide (p = 0)) as [E|Hp0].
  - subst p. injection Hslot as <- <- <-. rewrite jobs_cons_zero.
    eapply IH; [|exact Hrun]; lia.
  - rewrite jobs_cons by done.
    rewrite (proj2 (Z.eqb_neq p 0) Hp0) in Hslot.
    destruct (os_waitpid p WNOHANG w) as [[r stat] w2].
    destruct (r =? 0).
    + injection Hslot as <- <- <-. cbn. f_equal. eapply IH; [|exact Hrun]; lia.
    + injection Hslot as <- <- <-.
      apply IH in Hrun; [|rewrite length_insert; lia].
      rewrite drop_insert_lt in Hrun by lia.
      change (Waitpid p WNOHANG r stat :: report p stat)
        with ([Waitpid p WNOHANG r stat] ++ report p stat).
      by rewrite polled_app, polled_report, Hrun.
Qed.

(** X10: on a job table of 20 slots [resolveBGPID] returns, and it has called
    [waitpid] exactly once for each process identifier other than 0 in the
    table, in slot order; the table keeps its length and every slot either
    keeps its content or is reset to 0. *)
Theorem resolveBGPID_polls_each_job (pids : list Z) (w : W) :
  length pids = Z.to_nat BGPID_ARR_SIZE →
  ∃ t pids' w',
    resolveBGPID pids w = (t, Ok (pids', w')) ∧
    polled t = jobs pids ∧
    length pids' = length pids ∧
    ∀ k, pids' !! k = pids !! k ∨ pids' !! k = Some 0.
Proof.
  intros Hlen.
  destruct (resolveBGPID_from_spec (Z.to_nat BGPID_ARR_SIZE) 0 pids w)
    as (t & pids' & w' & Hrun & Hlen' & _ & Hslots & _); [by rewrite Hlen|].
  exists t, pids', w'. split; [done|]. split.
  { apply (resolveBGPID_from_polls (Z.to_nat BGPID_ARR_SIZE) 0 pids w t
             pids' w'); [|done].
    by rewrite Hlen. }
  split; [done|]. intros k. specialize (Hslots k (Nat.le_0_l k)).
  unfold slot_reconciled in Hslots.
  destruct (pids !! k) as [p|] eqn:Hk.
  - destruct (p =? 0) eqn:Hp0.
    + apply Z.eqb_eq in Hp0 as ->. by left.
    + destruct Hslots as (r & stat & _ & Hslot).
      destruct (r =? 0); [by left|right; tauto].
  - left. apply lookup_ge_None. rewrite Hlen'. by apply lookup_ge_None.
Qed.

End Polls.

(** Two jobs, of which the first has finished. *)
Lemma resolveBGPID_polls_each_job_witness :
  ∃ t pids' w',
    resolveBGPID ([0; 8; 9] ++ replicate 17 0)
      (Script 1 [] [(8, 256); (0, 0)] [] [])
    = (t, Ok (pids', w')) ∧
    polled t = [8; 9] ∧
    length pids' = 20%nat ∧
    ∀ k, pids' !! k = ([0; 8; 9] ++ replicate 17 0) !! k ∨ pids' !! k = Some 0.
Proof.
  apply (resolveBGPID_polls_each_job ([0; 8; 9] ++ replicate 17 0)
           (Script 1 [] [(8, 256); (0, 0)] [] [])).
  reflexivity.
Defined.

(** ** Clean-up *)

Lemma cleanup_from_spec n (i : nat) (a : list ptr) :
  (i + n ≤ length a)%nat →
  cleanup_from n (Z.of_nat i) a
  = Ok (take i a ++ replicate n NULL ++ drop (i + n) a).
Proof.
  revert i a. induction n as [|n IH]; intros i a Hn.
  { cbn. by rewrite Nat.add_0_r, take_drop. }
  cbn [cleanup_from]. rewrite store_nat, bind_Ok by lia.
  replace (Z.of_nat i + 1) with (Z.of_nat (S i)) by lia.
  rewrite IH by (rewrite length_insert; lia). f_equal.
  rewrite (take_S_r _ _ NULL) by (apply list_lookup_insert_eq; lia).
  rewrite take_insert_ge, drop_insert_lt by lia.
  rewrite <- app_assoc. cbn [app replicate].
  by replace (S i + n)%nat with (i + S n)%nat by lia.
Qed.

Lemma cleanup_from_overrun n (i : nat) (a : list ptr) :
  (i ≤ length a < i + n)%nat →
  cleanup_from n (Z.of_nat i) a = Undefined OutOfBounds.
Proof.
  revert i a. induction n as [|n IH]; intros i a Hn; [lia|].
  cbn [cleanup_from]. destruct (decide (i = length a)) as [->|Hne].
  - unfold store. by rewrite bool_decide_false by lia.
  - rewrite store_nat, bind_Ok by lia.
    replace (Z.of_nat i + 1) with (Z.of_nat (S i)) by lia.
    apply IH. rewrite length_insert. lia.
Qed.

(** X11: [cleanup] with an argument count [n] that the array can hold sets
    the first [n] entries of [args] to null, keeps the others, empties
    [pidString], clears [background] and keeps the two mode flags; with a
    count beyond the end of the array it writes out of bounds. *)
Theorem cleanup_clears a n g :
  (n ≤ Z.of_nat (length a) →
   cleanup a n g
   = Ok (replicate (Z.to_nat n) NULL ++ drop (Z.to_nat n) a,
         Globals "" 0 (disallow_background g) (background_inform g))) ∧
  (Z.of_nat (length a) < n → cleanup a n g = Undefined OutOfBounds).
Proof.
  unfold cleanup. split; intros Hn.
  - rewrite (cleanup_from_spec _ 0) by lia. by destruct g.
  - by rewrite (cleanup_from_overrun _ 0) by lia.
Qed.

(** A count within the array, and one beyond it. *)
Lemma cleanup_clears_witness :
  cleanup [Tok "ls"; PidStringPtr; NULL; Undef] 2 (Globals "x77" 1 1 0)
  = Ok ([NULL; NULL; NULL; Undef], Globals "" 0 1 0) ∧
  cleanup [Tok "ls"; PidStringPtr; NULL; Undef] 5 (Globals "x77" 1 1 0)
  = Undefined OutOfBounds.
Proof.
  split.
  - apply (cleanup_clears [Tok "ls"; PidStringPtr; NULL; Undef] 2
             (Globals "x77" 1 1 0)). simpl. lia.
  - apply (cleanup_clears [Tok "ls"; PidStringPtr; NULL; Undef] 5
             (Globals "x77" 1 1 0)). simpl. lia.
Defined.

Lemma mark_background_flags g :
  disallow_background (mark_background g) = disallow_background g ∧
  background_inform (mark_background g) = background_inform g.
Proof. unfold mark_background. by destruct (_ =? _), g. Qed.

(** X12: whenever [parseCommand] returns on an array of 513 entries, the
    [cleanup] that follows returns too and leaves every entry that the
    parser wrote null again (the arguments and the terminating null
    pointer) and the entries beyond them as they were before the parse,
    with [pidString] empty, [background] 0 and the mode flags as they were. *)
Theorem cleanup_after_parseCommand pid line a r g m :
  length a = Z.to_nat NUM_ARGS →
  parseCommand pid line a r g = Ok m →
  cleanup (args m) (argCount m) (glob m)
  = Ok (replicate (S (Z.to_nat (argCount m))) NULL
          ++ drop (S (Z.to_nat (argCount m))) a,
        Globals "" 0 (disallow_background g) (background_inform g)).
Proof.
  intros Ha Hparse.
  pose proof (parseCommand_Ok_capacity _ _ _ _ _ _ Ha Hparse) as Hcap.
  destruct Hcap as [[Hlo Hhi] Hfit].
  destruct (snoc_inv (arg_tokens (tokens line))) as (init & t & Hats).
  { intros E. rewrite E in Hlo. simpl in Hlo. lia. }
  rewrite Hats in Hhi, Hfit. rewrite length_app in Hhi. simpl in Hhi.
  pose proof (parseCommand_spec pid line a r g init t Ha Hats) as Hspec.
  cbv zeta in Hspec. rewrite Hspec in Hparse by (done || lia). clear Hspec.
  assert (∀ cells rest g',
            length cells = S (length init) →
            disallow_background g' = disallow_background g →
            background_inform g' = background_inform g →
            cleanup (cells ++ NULL :: rest) (Z.of_nat (S (length init))) g'
            = Ok (replicate (S (S (length init))) NULL ++ rest,
                  Globals "" 0 (disallow_background g)
                    (background_inform g))) as Hclean.
  { intros cells rest g' Hc Hd Hb. unfold cleanup.
    rewrite Nat2Z.id, (cleanup_from_spec _ 0) by (rewrite length_app; lia).
    rewrite bind_Ok. cbn [take app Nat.add].
    rewrite <- Hc, drop_app_length, Hc.
    f_equal. f_equal; [|by destruct g'; simpl in *; subst].
    by rewrite (replicate_S_end (S (length init))), <- app_assoc. }
  destruct (streq t "&"); injection Hparse as <-;
    cbn [argCount args glob]; rewrite length_app; cbn [length];
    replace (length init + 1)%nat with (S (length init)) by lia;
    rewrite Nat2Z.id.
  - change (?x ++ NULL :: NULL :: ?y) with (x ++ [NULL] ++ NULL :: y).
    rewrite app_assoc. apply Hclean.
    + rewrite length_app, length_map. simpl. lia.
    + destruct (mark_background_flags
                  (set_pidString (pidString_after pid (init ++ [t]) (pidString g)) g))
        as [-> _]. by destruct g.
    + destruct (mark_background_flags
                  (set_pidString (pidString_after pid (init ++ [t]) (pidString g)) g))
        as [_ ->]. by destruct g.
  - apply Hclean; [|by destruct g..].
    rewrite length_map, length_app. simpl. lia.
Qed.

(** The line "echo a$$ > out &". *)
Lemma cleanup_after_parseCommand_witness :
  ∃ m, parseCommand 4242 "echo a$$ > out &" (replicate 513 Undef)
         (Redirs NULL NULL) (Globals "" 0 0 1) = Ok m ∧
       cleanup (args m) (argCount m) (glob m)
       = Ok (replicate 4 NULL ++ replicate 509 Undef, Globals "" 0 0 1).
Proof.
  eexists. split; [vm_compute; reflexivity|].
  apply (cleanup_after_parseCommand 4242 "echo a$$ > out &"
           (replicate 513 Undef) (Redirs NULL NULL) (Globals "" 0 0 1));
    [reflexivity|]. vm_compute. reflexivity.
Defined.

(** ** The arrays keep their sizes *)

Lemma nul_free_cut k l : (k ≤ strlen l)%nat → nul_free (cut k l).
Proof.
  unfold nul_free. revert l. induction k as [|k IH]; intros l Hk.
  { by destruct l. }
  destruct l as [|c l]; [done|]. cbn [strlen cut String.length] in *.
  destruct (Ascii.eqb c "000"); [lia|]. rewrite IH; [done|lia].
Qed.

Lemma starts_with_cut k l :
  starts_with "#" l = false → starts_with "#" (cut k l) = false.
Proof. destruct k, l as [|c l]; try done. Qed.

Lemma accepted_chop l userInput :
  accepted l = true →
  chop l = Ok userInput →
  nul_free userInput ∧ starts_with "#" userInput = false.
Proof.
  unfold accepted, chop. intros [Hc _]%andb_true_iff.
  apply negb_true_iff in Hc.
  destruct (strlen l) as [|k] eqn:Hk; [done|]. intros [= <-]. split.
  - apply nul_free_cut. lia.
  - by apply starts_with_cut.
Qed.

Lemma store_length {A} (a a' : list A) i x :
  store a i x = Ok a' → length a' = length a.
Proof.
  unfold store. case_bool_decide; [|done]. intros [= <-].
  apply length_insert.
Qed.

Lemma scan_length pid toks m m' :
  scan pid toks m = Ok m' → length (args m') = length (args m).
Proof.
  remember (length toks) as n eqn:Hn. revert toks m Hn.
  induction (lt_wf n) as [n _ IH]. intros toks m -> Hscan.
  destruct toks as [|tok rest]; [by injection Hscan as <-|].
  cbn [scan] in Hscan.
  assert (∀ m1, scan pid rest m1 = Ok m' →
                length (args m') = length (args m1)) as IH1.
  { intros m1. by apply (IH (length rest) ltac:(simpl; lia)). }
  destruct (strstr tok "$$").
  { destruct (sprintf_pidString _ _ _); try done. rewrite bind_Ok in Hscan.
    destruct (store _ _ _) as [a'| | | |] eqn:Hst; try done.
    rewrite bind_Ok in Hscan. apply IH1 in Hscan.
    apply store_length in Hst. by rewrite Hscan. }
  destruct (streq tok "<").
  { destruct rest as [|t1 rest]; [by injection Hscan as <-|].
    by apply (IH (length rest) ltac:(simpl; lia)) in Hscan. }
  destruct (streq tok ">").
  { destruct rest as [|t1 rest]; [by injection Hscan as <-|].
    by apply (IH (length rest) ltac:(simpl; lia)) in Hscan. }
  destruct (store _ _ _) as [a'| | | |] eqn:Hst; try done.
  rewrite bind_Ok in Hscan. apply IH1 in Hscan.
  apply store_length in Hst. by rewrite Hscan.
Qed.

Lemma parse_finish_length m m' :
  parse_finish m = Ok m' → length (args m') = length (args m).
Proof.
  unfold parse_finish.
  destruct (store (args m) _ _) as [a1| | | |] eqn:H1; try done. cbn.
  destruct (load a1 _) as [p| | | |]; try done. cbn.
  destruct (string_at _ p) as [s| | | |]; try done. cbn.
  apply store_length in H1.
  destruct (streq s "&"); [|by intros [= <-]].
  destruct (store a1 _ _) as [a2| | | |] eqn:H2; try done. cbn.
  apply store_length in H2. intros [= <-]. simpl. congruence.
Qed.

Lemma parseCommand_length pid line a r g m :
  parseCommand pid line a r g = Ok m → length (args m) = length a.
Proof.
  rewrite parseCommand_tokens.
  destruct (scan _ _ _) as [m1| | | |] eqn:Hscan; try done.
  rewrite bind_Ok. intros Hfin.
  apply scan_length in Hscan. apply parse_finish_length in Hfin.
  simpl in Hscan. congruence.
Qed.

Lemma cleanup_from_length n i a a' :
  cleanup_from n i a = Ok a' → length a' = length a.
Proof.
  revert i a. induction n as [|n IH]; intros i a; [by intros [= <-]|].
  cbn [cleanup_from]. destruct (store a i NULL) as [a1| | | |] eqn:H1; try done.
  rewrite bind_Ok. intros Hrest%IH. apply store_length in H1. congruence.
Qed.

Lemma placePID_from_length n i tbl p tbl' placed :
  placePID_from n i tbl p = Ok (tbl', placed) → length tbl' = length tbl.
Proof.
  revert i. induction n as [|n IH]; intros i; [by intros [= <- _]|].
  cbn [placePID_from]. destruct (load tbl i) as [q| | | |]; try done.
  rewrite bind_Ok. destruct (q =? 0); [|apply IH].
  destruct (store tbl i p) as [a| | | |] eqn:H1; try done.
  rewrite bind_Ok. intros [= <- _]. by eapply store_length.
Qed.

(** ** The state of the session *)

Lemma scrubPIDArray_from_length n i a a' :
  scrubPIDArray_from n i a = Ok a' → length a' = length a.
Proof.
  revert i a. induction n as [|n IH]; intros i a; [by intros [= <-]|].
  cbn [scrubPIDArray_from].
  destruct (store a i 0) as [a1| | | |] eqn:H1; try done.
  rewrite bind_Ok. intros Hrest%IH. apply store_length in H1. congruence.
Qed.

Section SettledProofs.
Context {W : Type} `{OS W}.

Lemma scrubIO_untouched (w : W) :
  scrubIO (-5) (-5) w = ([], Ok (Redirs NULL NULL, -5, -5, w)).
Proof. reflexivity. Qed.

Lemma placePID_length pids p (w w' : W) t pids' :
  placePID pids p w = (t, Ok (pids', w')) → length pids' = length pids.
Proof.
  unfold placePID. intros Hrun.
  apply comp_bind_inv in Hrun as (? & [a placed] & ? & ? & Hfrom & Hrun & _).
  apply lift_inv in Hfrom as [Hfrom _].
  apply placePID_from_length in Hfrom.
  destruct (placed =? 0).
  - apply comp_bind_inv in Hrun as (? & ? & ? & ? & _ & Hrun & _).
    discriminate.
  - apply ret_inv in Hrun as [<- _]. done.
Qed.

Lemma execParent_length p pids lastStat g (w w' : W) t pids' lastStat' :
  execParent p pids lastStat g w = (t, Ok (pids', lastStat', w')) →
  length pids' = length pids.
Proof.
  unfold execParent. intros Hrun. destruct (background g =? 0).
  - apply comp_bind_inv in Hrun as (? & [r stat] & ? & ? & _ & Hrun & _).
    apply comp_bind_inv in Hrun as (? & [] & ? & ? & _ & Hrun & _).
    by apply ret_inv in Hrun as [[= <- _] _].
  - apply comp_bind_inv in Hrun as (? & a & ? & ? & Hplace & Hrun & _).
    apply comp_bind_inv in Hrun as (? & [] & ? & ? & _ & Hrun & _).
    apply comp_bind_inv in Hrun as (? & [] & ? & ? & _ & Hrun & _).
    apply ret_inv in Hrun as [[= <- _] _].
    by eapply placePID_length.
Qed.

Lemma execChild_stops r a g i o (w : W) t x :
  execChild r a g i o w ≠ (t, Ok x).
Proof.
  destruct x as [[] w']. unfold execChild. intros Hrun.
  apply comp_bind_inv in Hrun as (? & i' & ? & ? & _ & Hrun & _).
  apply comp_bind_inv in Hrun as (? & [] & ? & ? & _ & Hrun & _).
  apply comp_bind_inv in Hrun as (? & [] & ? & ? & _ & Hrun & _).
  apply comp_bind_inv in Hrun as (? & a0 & ? & ? & _ & Hrun & _).
  apply comp_bind_inv in Hrun as (? & file & ? & ? & _ & Hrun & _).
  apply comp_bind_inv in Hrun as (? & av & ? & w1 & _ & Hrun & _).
  apply comp_bind_inv in Hrun as (? & e & ? & ? & Hexec & Hrun & _).
  unfold execvp in Hexec. destruct (os_execvp _ _ _); [discriminate|].
  injection Hexec as _ <- _. discriminate.
Qed.

Lemma dispatch_settled s line (w w' : W) t c :
  arrays_ok s → dispatch s line w = (t, Ok (c, w')) → settled c.
Proof.
  intros (Hargs & Hpids & Hin & Hout). unfold dispatch. intros Hrun.
  apply comp_bind_inv in Hrun as (? & g & ? & ? & _ & Hrun & _).
  apply comp_bind_inv in Hrun as (? & pid & ? & ? & _ & Hrun & _).
  apply comp_bind_inv in Hrun as (? & m & ? & ? & Hparse & Hrun & _).
  apply lift_inv in Hparse as [Hparse%parseCommand_length _].
  apply comp_bind_inv in Hrun as (? & a0 & ? & ? & _ & Hrun & _).
  apply comp_bind_inv in Hrun as (? & name & ? & ? & _ & Hrun & _).
  destruct (streq name "exit").
  { apply comp_bind_inv in Hrun as (? & ? & ? & ? & _ & Hrun & _).
    by apply ret_inv in Hrun as [<- _]. }
  apply comp_bind_inv in Hrun
    as (? & [[[g' pids'] lastStat'] spawnpid'] & ? & ? & Hcmd & Hrun & _).
  apply comp_bind_inv in Hrun as (? & [a' g''] & ? & ? & Hclean & Hrun & _).
  apply lift_inv in Hclean as [Hclean _].
  apply ret_inv in Hrun as [<- _].
  unfold cleanup in Hclean.
  destruct (cleanup_from _ _ _) as [a1| | | |] eqn:Hfrom; try discriminate.
  injection Hclean as <- _. apply cleanup_from_length in Hfrom.
  assert (length pids' = length (sh_pids s)) as Hlen.
  { destruct (streq name "status").
    { apply comp_bind_inv in Hcmd as (? & ? & ? & ? & _ & Hcmd & _).
      by apply ret_inv in Hcmd as [[= _ <- _ _] _]. }
    destruct (streq name "cd").
    { apply comp_bind_inv in Hcmd as (? & ? & ? & ? & _ & Hcmd & _).
      by apply ret_inv in Hcmd as [[= _ <- _ _] _]. }
    apply comp_bind_inv in Hcmd as (? & spawnpid & ? & ? & _ & Hcmd & _).
    destruct (spawnpid =? -1).
    { apply comp_bind_inv in Hcmd as (? & ? & ? & ? & _ & Hcmd & _).
      discriminate. }
    destruct (spawnpid =? 0).
    { apply comp_bind_inv in Hcmd as (? & ? & ? & ? & Hchild & _).
      by apply execChild_stops in Hchild. }
    apply comp_bind_inv in Hcmd as (? & [p l] & ? & ? & Hparent & Hcmd & _).
    apply ret_inv in Hcmd as [[= _ <- _ _] _].
    by eapply execParent_length. }
  repeat split; simpl; congruence.
Qed.

Lemma resolveBGPID_length pids (w w' : W) t pids' :
  length pids = Z.to_nat BGPID_ARR_SIZE →
  resolveBGPID pids w = (t, Ok (pids', w')) → length pids' = length pids.
Proof.
  intros Hlen Hrun.
  destruct (resolveBGPID_from_spec (Z.to_nat BGPID_ARR_SIZE) 0 pids w)
    as (t1 & pids1 & w1 & Hrun1 & Hlen1 & _); [by rewrite Hlen|].
  unfold resolveBGPID in Hrun. change (Z.of_nat 0) with 0 in Hrun1.
  rewrite Hrun1 in Hrun. by injection Hrun as _ <- _.
Qed.

Lemma getCommand_cycle_settled g pids (w w' : W) t g' pids' r :
  length pids = Z.to_nat BGPID_ARR_SIZE →
  getCommand_cycle g pids w = (t, Ok (g', pids', r, w')) →
  length pids' = length pids ∧
  ∀ line, r = Some line → accepted line = true.
Proof.
  intros Hlen Hcycle. unfold getCommand_cycle in Hcycle.
  apply comp_bind_inv in Hcycle as (? & g2 & ? & ? & _ & Hcycle & _).
  apply comp_bind_inv in Hcycle as (? & pids2 & ? & ? & Hres & Hcycle & _).
  apply comp_bind_inv in Hcycle as (? & [] & ? & ? & _ & Hcycle & _).
  apply comp_bind_inv in Hcycle as (? & [] & ? & ? & _ & Hcycle & _).
  apply comp_bind_inv in Hcycle as (? & r' & ? & ? & _ & Hcycle & _).
  apply resolveBGPID_length in Hres; [|done].
  destruct r' as [l|].
  - destruct (accepted l) eqn:Hl;
      apply ret_inv in Hcycle as [[= _ <- <-] _]; split; try done.
    by intros ? [= <-].
  - apply ret_inv in Hcycle as [[= _ <- <-] _]. by split.
Qed.

Lemma step_settled c (w w' : W) t c' :
  settled c → step c w = (t, Ok (c', w')) → settled c'.
Proof.
  intros Hc Hstep. destruct c as [s|s|s line|code]; cbn [step] in Hstep.
  - destruct Hc as (Hargs & Hpids & Hin & Hout).
    rewrite Hin, Hout in Hstep.
    apply comp_bind_inv in Hstep as (? & [[r i] o] & ? & ? & Hio & Hstep & _).
    rewrite scrubIO_untouched in Hio. injection Hio as _ <- <- <- _.
    by apply ret_inv in Hstep as [<- _].
  - destruct Hc as [(Hargs & Hpids & Hin & Hout) Hredir].
    apply comp_bind_inv in Hstep
      as (? & [[g pids] r] & ? & ? & Hcycle & Hstep & _).
    apply getCommand_cycle_settled in Hcycle as [Hlen Hacc]; [|done].
    destruct r as [line|].
    + apply comp_bind_inv in Hstep as (? & ui & ? & ? & Hchop & Hstep & _).
      apply lift_inv in Hchop as [Hchop _].
      apply ret_inv in Hstep as [<- _].
      destruct (accepted_chop line ui) as [? ?]; [by apply Hacc|done|].
      repeat split; try done; simpl; congruence.
    + apply ret_inv in Hstep as [<- _].
      repeat split; simpl; congruence.
  - destruct Hc as [Hok _]. by eapply dispatch_settled.
  - by apply ret_inv in Hstep as [<- _].
Qed.

(** X13: at every control point that a run of [main] reaches, [args] has
    513 entries, the job table 20, and [inputFile] and [outputFile] still
    hold -5; at each prompt and each parse both redirection pointers are
    null, and a line about to be parsed has no NUL byte in it and does not
    start with the comment sign.  So at the head of its loop [scrubIO]
    closes nothing and emits nothing; and one pass of the prompt loop
    prints the prompt, closes no descriptor, and returns, the one exception
    being an accepted line that starts with a NUL byte, on which the write
    that ends [getCommand] is outside the buffer. *)
Theorem session_settled :
  (∀ cw : config * W, reachable cw → settled cw.1) ∧
  (∀ s (w : W), reachable (AtLoop s, w) →
     step (AtLoop s) w
     = ([], Ok (Prompting
                  (Shell (sh_glob s) (sh_args s) (Redirs NULL NULL)
                     (sh_argCount s) (sh_lastStat s) (-5) (-5)
                     (sh_spawnpid s) (sh_pids s)), w))) ∧
  (∀ s (w : W), reachable (Prompting s, w) →
     ∃ t out,
       step (Prompting s) w = (t, out) ∧
       prompt ∈ t ∧ (∀ fd, Close fd ∉ t) ∧
       ((∃ c' w', out = Ok (c', w')) ∨
        (out = Undefined OutOfBounds ∧
         ∃ l, Getline (Some l) ∈ t ∧ accepted l = true ∧ strlen l = 0%nat))).
Proof.
  assert (∀ cw : config * W, reachable cw → settled cw.1) as Hinv.
  { induction 1
      as [args0 rj pj c w Ha Hp Hstart | [c w] t [c' w'] _ IH Hmove].
    - unfold main_start in Hstart.
      destruct (scrubPIDArray pj) as [pids| | | |] eqn:Hscrub;
        try discriminate.
      injection Hstart as <-. apply scrubPIDArray_from_length in Hscrub.
      repeat split; simpl; congruence.
    - by eapply step_settled. }
  split; [done|]. split.
  - intros s w Hreach. destruct (Hinv _ Hreach) as (_ & _ & Hin & Hout).
    cbn [step]. by rewrite Hin, Hout.
  - intros s w Hreach. destruct (Hinv _ Hreach) as [(_ & Hpids & _) _].
    destruct (getCommand_cycle_spec (sh_glob s) (sh_pids s) w Hpids)
      as (tI & g' & w1 & tR & pids' & w2 & r & w3 & _ & _ & _ & _ & Hev
          & Hcycle & HtI & HtI').
    cbn [step]. rewrite (comp_bind_Ok _ _ _ _ _ _ Hcycle). cbv beta iota.
    assert (prompt ∈ tI ++ tR ++ [prompt; Fflush; Getline r]) as Hprompt.
    { apply elem_of_app. right. apply elem_of_app. right. by left. }
    assert (∀ fd, Close fd ∉ tI ++ tR ++ [prompt; Fflush; Getline r])
      as Hclose.
    { intros fd [Hin|[Hin|Hin]%elem_of_app]%elem_of_app.
      - by apply HtI' in Hin.
      - rewrite Forall_forall in Hev. by apply Hev in Hin.
      - revert Hin. not_in_list. }
    assert (∀ c : config, ∃ t out,
              ((tI ++ tR ++ [prompt; Fflush; Getline r]) ++ (ret c w3).1,
               (ret c w3).2) = (t, out) ∧
              prompt ∈ t ∧ (∀ fd, Close fd ∉ t) ∧
              ((∃ c' w', out = Ok (c', w')) ∨
               (out = Undefined OutOfBounds ∧
                ∃ l, Getline (Some l) ∈ t ∧ accepted l = true
                     ∧ strlen l = 0%nat))) as Hret.
    { intros c. eexists _, _. split; [reflexivity|]. cbn [ret fst snd].
      rewrite app_nil_r. split; [done|]. split; [done|]. left. eauto. }
    destruct r as [l|]; [|apply Hret].
    destruct (accepted l) eqn:Hl; [|apply Hret].
    unfold chop. destruct (strlen l) as [|k] eqn:Hk.
    + eexists _, _. split; [reflexivity|]. cbn. rewrite app_nil_r.
      split; [done|]. split; [done|]. right. split; [done|].
      exists l. split; [|done].
      apply elem_of_app. right. apply elem_of_app. right.
      apply list_elem_of_further, list_elem_of_further, list_elem_of_here.
    + rewrite (comp_bind_silent _ _ w3 (cut k l) w3) by done. apply Hret.
Qed.

End SettledProofs.

(** The state in which "status" is about to be parsed, after "sleep 5 &". *)
Lemma session_settled_witness :
  settled
    (Parsing (Shell (Globals "" 0 0 0)
                (replicate 4 NULL ++ replicate 509 Undef) (Redirs NULL NULL)
                3 (-5) (-5) (-5) 77 (77 :: replicate 19 0)) "status").
Proof.
  apply (proj1 session_settled
           (Parsing (Shell (Globals "" 0 0 0)
                       (replicate 4 NULL ++ replicate 509 Undef)
                       (Redirs NULL NULL) 3 (-5) (-5) (-5) 77
                       (77 :: replicate 19 0)) "status",
            Script 4242 [] [] [] [])).
  apply (run_reachable 5
           (AtLoop (Shell globals_init (replicate 513 Undef)
                      (Redirs Undef Undef) 0 (-5) (-5) (-5) (-5)
                      (replicate 20 0)))
           (Script 4242 ["sleep 5 &" +:+ nl; "status" +:+ nl] [(0, 0)]
              [77] [])).
  - apply (reach_start (replicate 513 Undef) (Redirs Undef Undef)
             (replicate 20 7)); reflexivity.
  - vm_compute. reflexivity.
Defined.

(** ** The child *)

Section ChildProofs.
Context {W : Type} `{OS W}.

Lemma comp_bind_unfold {A B} (c : comp A) (f : A → comp B) (w : W) :
  (c ≫= f) w
  = match c w with
    | (t, Ok (a, w')) => (t ++ (f a w').1, (f a w').2)
    | (t, Undefined why) => (t, Undefined why)
    | (t, Exited code) => (t, Exited code)
    | (t, Replaced) => (t, Replaced)
    | (t, NoFuel) => (t, NoFuel)
    end.
Proof.
  unfold mbind, comp_bind. destruct (c w) as [t [[a w']| | | |]]; try done.
  by destruct (f a w').
Qed.

Lemma execChild_parts r a g i o :
  execChild r a g i o
  = (i' ← child_stdin r g i; child_stdout r g i';; child_exec a g).
Proof. reflexivity. Qed.

Ltac child_events :=
  repeat match goal with
  | H : _ ∈ [] |- _ => by apply elem_of_nil in H
  | H : _ ∈ _ :: _ |- _ => apply elem_of_cons in H as [H|H]; try done
  end.

Lemma child_stdin_part r g i (w : W) :
  child_part (child_stdin r g i w).1 (child_stdin r g i w).2.
Proof.
  unfold child_stdin.
  assert (∀ p, p ≠ NULL →
    let c := (path ← lift (string_at g p);
              fd ← open path RdOnly;
              (if fd =? -1 then perror path;; exit 1 else ret ());;
              dup2 fd 0;; ret fd) : comp Z in
    child_part (c w).1 (c w).2) as Htarget.
  { intros p Hp c. subst c.
    unfold mbind, comp_bind, lift, open, perror, emit, exit, ret, dup2.
    destruct p as [| |path|]; cbn; try done;
      try (split; [intros ?? Hin; child_events|done]);
      [|set (path := pidString g)];
      destruct (os_open path RdOnly w) as [fd w'];
      (destruct (Z.eqb_spec fd (-1)) as [->|Hfd]; cbn;
       [split; [intros ?? Hin; child_events|]; split; [done|]; by eexists
       |split; [intros ?? Hin; child_events|];
        intros ?? Hin; child_events; congruence]). }
  destruct (redir0 r); try (by apply Htarget).
  destruct (background g =? 0); cbn.
  - split; [intros ?? Hin; child_events|]. by intros ?? Hin; child_events.
  - unfold mbind, comp_bind, open, emit, ret, dup2.
    destruct (os_open _ _ w) as [fd w']. cbn.
    split; [intros ?? Hin; child_events|].
    intros ?? Hin; child_events; injection Hin as _ <- _; by left.
Qed.

Lemma child_stdout_part r g i (w : W) :
  child_part (child_stdout r g i w).1 (child_stdout r g i w).2.
Proof.
  unfold child_stdout.
  assert (∀ p, p ≠ NULL →
    let c := (path ← lift (string_at g p);
              fd ← open path (WrCreatTrunc 420);
              (if fd =? -1 then perror path;; exit 1 else ret ());;
              dup2 fd 1) : comp unit in
    child_part (c w).1 (c w).2) as Htarget.
  { intros p Hp c. subst c.
    unfold mbind, comp_bind, lift, open, perror, emit, exit, ret, dup2.
    destruct p as [| |path|]; cbn; try done;
      try (split; [intros ?? Hin; child_events|done]);
      [|set (path := pidString g)];
      destruct (os_open path (WrCreatTrunc 420) w) as [fd w'];
      (destruct (Z.eqb_spec fd (-1)) as [->|Hfd]; cbn;
       [split; [intros ?? Hin; child_events|]; split; [done|]; by eexists
       |split; [intros ?? Hin; child_events|];
        intros ?? Hin; child_events; congruence]). }
  destruct (redir1 r); try (by apply Htarget).
  destruct (background g =? 0); cbn.
  - split; [intros ?? Hin; child_events|]. by intros ?? Hin; child_events.
  - unfold mbind, comp_bind, open, emit, ret, dup2.
    destruct (redir0 r); cbn;
      try (destruct (os_open _ _ w) as [fd w']; cbn);
      (split; [intros ?? Hin; child_events|]);
      intros ?? Hin; child_events; injection Hin as _ <- _; by right.
Qed.

Lemma load_fails {A} (a : list A) i :
  (∃ x, load a i = Ok x) ∨ (∃ why, load a i = Undefined why).
Proof. unfold load. repeat case_match; eauto. Qed.

Lemma string_at_fails g p :
  (∃ x, string_at g p = Ok x) ∨ (∃ why, string_at g p = Undefined why).
Proof. destruct p; cbn; eauto. Qed.

Lemma argv_fails g a :
  (∃ x, argv g a = Ok x) ∨ (∃ why, argv g a = Undefined why).
Proof.
  induction a as [|p a IH]; cbn; [eauto|].
  destruct p; cbn; eauto; destruct IH as [[l ->]|[why ->]]; cbn; eauto.
Qed.

Lemma child_exec_end a g (w : W) :
  child_end (child_exec a g w).1 (child_exec a g w).2 ∧
  targets_opened (child_exec a g w).1.
Proof.
  unfold child_exec, mbind, comp_bind, lift, execvp, perror, emit, exit, ret,
    signal_SIGINT_default.
  assert (targets_opened [] ∧ targets_opened [SigintDefault])
    as [Hfail0 Hfail1] by (by split; intros ?? Hin; child_events).
  destruct (load_fails a 0) as [[a0 ->]|[? ->]];
    [|destruct (background g =? 0); cbn; auto].
  destruct (string_at_fails g a0) as [[file Hfile]|[? Hfile]];
    [|destruct (background g =? 0); cbn; rewrite Hfile; cbn; auto].
  destruct (argv_fails g a) as [[av Hav]|[? Hav]];
    [|destruct (background g =? 0); cbn; rewrite Hfile; cbn; rewrite Hav;
      cbn; auto].
  destruct (background g =? 0); cbn; rewrite Hfile; cbn; rewrite Hav; cbn;
    destruct (os_execvp file av w); cbn;
    (split; [|by intros ?? Hin; child_events]); eauto.
Qed.

Lemma last_app_some {A} (l1 l2 : list A) x :
  last l2 = Some x → last (l1 ++ l2) = Some x.
Proof.
  intros Hx. rewrite last_app. by rewrite Hx.
Qed.

Lemma child_end_app {A B} t1 t2 (o : outcome A) (o' : outcome B) :
  child_end t2 o → 
  match o, o' with
  | Replaced, Replaced | NoFuel, NoFuel => True
  | Exited c, Exited c' => c = c'
  | Undefined y, Undefined y' => True
  | Ok _, _ => True
  | _, _ => False
  end →
  child_end (t1 ++ t2) o'.
Proof.
  destruct o, o'; cbn; try done.
  - intros [-> (msg & Hmsg)] <-. split; [done|].
    exists msg. by apply last_app_some.
  - intros (f & av & Hl) _. exists f, av. by apply last_app_some.
Qed.

(** X14: however [execChild] ends, it does not return: either the process
    image is replaced, the [execvp] being its last event; or it calls
    [exit(1)] right after a [perror]; or its behaviour is undefined (a null
    or unassigned pointer read).  And whenever it reaches [execvp], every
    [open] of a redirection target has succeeded: the only [open] whose
    failure goes unchecked is that of "/dev/null". *)
Theorem execChild_ends r a g i o (w : W) t out :
  execChild r a g i o w = (t, out) →
  child_end t out ∧ (∀ f av, Execvp f av ∈ t → targets_opened t).
Proof.
  rewrite execChild_parts, comp_bind_unfold.
  pose proof (child_stdin_part r g i w) as [Hno1 Hin].
  destruct (child_stdin r g i w) as [t1 o1]. cbn [fst snd] in Hno1, Hin.
  destruct o1 as [[i' w1]|why|c| |]; try done;
    try (intros [= <- <-]; split; [done|]; intros f av Hex;
         by apply Hno1 in Hex).
  rewrite comp_bind_unfold.
  pose proof (child_stdout_part r g i' w1) as [Hno2 Hout].
  destruct (child_stdout r g i' w1) as [t2 o2]. cbn [fst snd] in Hno2, Hout.
  assert (no_exec (t1 ++ t2)) as Hno.
  { intros f av [?|?]%elem_of_app; [by eapply Hno1|by eapply Hno2]. }
  destruct o2 as [[[] w2]|why|c| |]; try done; cbn [fst snd];
    try (intros [= <- <-]; split;
         [by eapply (child_end_app t1 t2 _ _ Hout)
         |intros f av Hex; by apply Hno in Hex]).
  pose proof (child_exec_end a g w2) as [Hend Hopen].
  destruct (child_exec a g w2) as [t3 o3]. cbn [fst snd] in *.
  intros [= <- <-]. split.
  - apply (child_end_app t1 (t2 ++ t3) o3 o3);
      [apply (child_end_app t2 t3 o3 o3)|]; try done; by destruct o3.
  - intros _ _ _ path mode [?|[?|?]%elem_of_app]%elem_of_app; eauto.
Qed.

Lemma argv_head g a file rest :
  argv g a = Ok (file :: rest) →
  ∃ a0, load a 0 = Ok a0 ∧ string_at g a0 = Ok file.
Proof.
  destruct a as [|p a]; [done|]. exists p. split; [done|].
  destruct p; cbn in *; try done;
    destruct (argv g a); cbn in *; congruence.
Qed.

(** X15: a child with no redirection and a non-empty argument vector: in the
    foreground it opens nothing and restores the default SIGINT
    disposition before [execvp]; in the background it opens "/dev/null"
    once, uses that one descriptor for both standard input and standard
    output and leaves SIGINT as inherited; if [execvp] fails it reports
    the command name with [perror] and exits with status 1. *)
Theorem execChild_without_redirections a g i o (w : W) file rest :
  argv g a = Ok (file :: rest) →
  let fd := (os_open "/dev/null" RdWr w).1 in
  let w' := if background g =? 0 then w
            else (os_open "/dev/null" RdWr w).2 in
  execChild (Redirs NULL NULL) a g i o w
  = ((if background g =? 0 then [SigintDefault]
      else [Open "/dev/null" RdWr fd; Dup2 fd 0; Dup2 fd 1])
     ++ Execvp file (file :: rest)
     :: (if os_execvp file (file :: rest) w' then [] else [Perror file]),
     if os_execvp file (file :: rest) w' then Replaced else Exited 1).
Proof.
  intros Hav. destruct (argv_head _ _ _ _ Hav) as (a0 & Ha0 & Hfile).
  unfold execChild, mbind, comp_bind, lift, open, execvp, perror, emit, exit,
    ret, dup2, signal_SIGINT_default. cbn [redir0 redir1].
  destruct (background g =? 0); cbn.
  - rewrite Ha0. cbn. rewrite Hfile. cbn. rewrite Hav. cbn.
    by destruct (os_execvp _ _ w).
  - destruct (os_open _ _ w) as [fd w1]. cbn.
    rewrite Ha0. cbn. rewrite Hfile. cbn. rewrite Hav. cbn.
    by destruct (os_execvp _ _ w1).
Qed.

End ChildProofs.

(** The child of "cat < in.txt". *)
Lemma execChild_ends_witness :
  child_end
    [Open "in.txt" RdOnly 3; Dup2 3 0; SigintDefault; Execvp "cat" ["cat"]]
    (@Replaced (unit * script)) ∧
  ∀ f av,
    Execvp f av
    ∈ [Open "in.txt" RdOnly 3; Dup2 3 0; SigintDefault;
       Execvp "cat" ["cat"]] →
    targets_opened
      [Open "in.txt" RdOnly 3; Dup2 3 0; SigintDefault; Execvp "cat" ["cat"]].
Proof.
  apply (execChild_ends (Redirs (Tok "in.txt") NULL) [Tok "cat"; NULL]
           globals_init (-5) (-5) (Script 1 [] [] [] [])).
  reflexivity.
Defined.

(** The child of "sleep 5 &". *)
Lemma execChild_without_redirections_witness :
  execChild (Redirs NULL NULL) [Tok "sleep"; Tok "5"; NULL]
    (Globals "" 1 0 0) (-5) (-5) (Script 1 [] [] [] [])
  = ([Open "/dev/null" RdWr 3; Dup2 3 0; Dup2 3 1;
      Execvp "sleep" ["sleep"; "5"]], Replaced).
Proof.
  exact (execChild_without_redirections [Tok "sleep"; Tok "5"; NULL]
           (Globals "" 1 0 0) (-5) (-5) (Script 1 [] [] [] []) "sleep" ["5"]
           eq_refl).
Defined.

(** ** Command lines, from the parse to the clean-up *)

Lemma parsed_command pid line a r g name :
  length a = Z.to_nat NUM_ARGS →
  within_capacity pid (tokens line) →
  head (arg_tokens (tokens line)) = Some name →
  expands name = false →
  name ≠ "&" →
  ∃ m t,
    parseCommand pid line a r g = Ok m ∧
    last (arg_tokens (tokens line)) = Some t ∧
    load (args m) 0 = Ok (Tok name) ∧
    (∀ (i : nat) x, arg_tokens (tokens line) !! i = Some x →
       (S i < length (arg_tokens (tokens line)))%nat ∨ x ≠ "&" →
       load (args m) (Z.of_nat i) = Ok (cell x)) ∧
    (∀ (i : nat), arg_tokens (tokens line) !! i = Some "&" →
       S i = length (arg_tokens (tokens line)) →
       load (args m) (Z.of_nat i) = Ok NULL) ∧
    glob m = (if streq t "&" then mark_background else id)
               (set_pidString
                  (pidString_after pid (arg_tokens (tokens line))
                     (pidString g)) g) ∧
    redir m = redir_after (tokens line) r ∧
    argCount m = Z.of_nat (length (arg_tokens (tokens line))) ∧
    0 < argCount m < NUM_ARGS ∧
    length (args m) = Z.to_nat NUM_ARGS.
Proof.
  intros Ha Hcap Hhead Hname Hamp.
  destruct (parseCommand_result pid line a r g Ha Hcap)
    as (m & init & t & Hats & Hparse & Hcount & Hredir & Hglob & Hinit
        & Hlast & _).
  exists m, t. split; [done|]. rewrite Hats.
  split; [by rewrite last_snoc|].
  destruct Hcap as [[_ Hhi] _]. rewrite Hats, length_app in Hhi.
  cbn in Hhi.
  assert (∀ (i : nat) x, (init ++ [t]) !! i = Some x →
            (S i < length (init ++ [t]))%nat ∨ x ≠ "&" →
            load (args m) (Z.of_nat i) = Ok (cell x)) as Hcells.
  { intros i x Hi Hx. apply load_Ok. rewrite length_app in Hx. cbn in Hx.
    destruct (decide (i < length init)%nat) as [Hlt|Hge].
    - rewrite lookup_app_l in Hi by done. by apply Hinit.
    - rewrite lookup_app_r in Hi by lia.
      destruct (i - length init)%nat as [|?] eqn:E; [|done].
      injection Hi as ->. assert (i = length init) as -> by lia.
      rewrite Hlast. destruct Hx as [?|Hx]; [lia|].
      destruct (streq x "&") eqn:Ex; [by apply streq_eq in Ex|done]. }
  split; [|split; [done|split; [|split; [done|split; [done|split]]]]].
  - change 0 with (Z.of_nat 0). change (Tok name) with (if false then PidStringPtr else Tok name).
    rewrite <- Hname. apply Hcells; [|by right].
    rewrite Hats in Hhead. by destruct init; cbn in *.
  - intros i Hi Hlen. apply load_Ok. rewrite length_app in Hlen.
    cbn in Hlen. assert (i = length init) as -> by lia.
    rewrite lookup_app_r, Nat.sub_diag in Hi by lia. injection Hi as ->.
    by rewrite Hlast.
  - rewrite Hcount, length_app. cbn. lia.
  - split; [unfold NUM_ARGS; lia|].
    rewrite <- Ha. by eapply parseCommand_length.
Qed.

Section Lines.
Context {W : Type} `{OS W}.

Lemma comp_bind_bind_Ok {A B C} (c : comp A) (f : A → comp B)
    (k : B → comp C) (w : W) t a w1 :
  c w = (t, Ok (a, w1)) →
  ((c ≫= f) ≫= k) w = (t ++ ((f a ≫= k) w1).1, ((f a ≫= k) w1).2).
Proof.
  intros Hc. unfold mbind, comp_bind. rewrite Hc.
  destruct (f a w1) as [t2 [[b w2]| | | |]]; try done.
  destruct (k b w2). cbn. by rewrite app_assoc.
Qed.

Lemma cleanup_returns a n g :
  0 ≤ n ≤ Z.of_nat (length a) →
  ∃ a', cleanup a n g = Ok (a', set_pidString "" (set_background 0 g)).
Proof.
  intros Hn. unfold cleanup.
  rewrite (cleanup_from_spec _ 0) by lia. rewrite bind_Ok. eauto.
Qed.

Lemma dispatch_parsed s line (w w1 : W) n m name :
  os_sigtstp w = (n, w1) →
  parseCommand (os_getpid w1) line (sh_args s) (sh_redir s)
    (Nat.iter n catchSIGTSTP (sh_glob s)) = Ok m →
  load (args m) 0 = Ok (Tok name) →
  dispatch s line w
  = (if streq name "exit" then
       exitShell (sh_pids s) (glob m);;
       ret (Returned 0)
     else
       '(g', pids', lastStat', spawnpid') ←
         (if streq name "status" then
            g' ← statusShell (sh_lastStat s) (glob m);
            ret (g', sh_pids s, sh_lastStat s, sh_spawnpid s)
          else if streq name "cd" then
            g' ← cdShell (args m) (argCount m) (glob m);
            ret (g', sh_pids s, sh_lastStat s, sh_spawnpid s)
          else
            spawnpid ← fork;
            if spawnpid =? -1 then perror "Fork() problem!";; exit 1
            else if spawnpid =? 0 then
              execChild (redir m) (args m) (glob m)
                (sh_inputFile s) (sh_outputFile s);;
              ret (glob m, sh_pids s, sh_lastStat s, spawnpid)
            else
              '(pids', lastStat') ←
                execParent spawnpid (sh_pids s) (sh_lastStat s) (glob m);
              ret (glob m, pids', lastStat', spawnpid));
       '(a', g'') ← lift (cleanup (args m) (argCount m) g');
       ret (AtLoop (Shell g'' a' (redir m) (argCount m) lastStat'
                      (sh_outputFile s) (sh_inputFile s) spawnpid' pids'))) w1.
Proof.
  intros Hsig Hparse Hload. unfold dispatch.
  rewrite (comp_bind_silent _ _ w (Nat.iter n catchSIGTSTP (sh_glob s)) w1)
    by (unfold deliver_signals; by rewrite Hsig).
  rewrite (comp_bind_silent _ _ w1 (os_getpid w1) w1) by done.
  rewrite (comp_bind_silent _ _ w1 m w1) by (unfold lift; by rewrite Hparse).
  rewrite (comp_bind_silent _ _ w1 (Tok name) w1)
    by (unfold lift; by rewrite Hload).
  by rewrite (comp_bind_silent _ _ w1 name w1).
Qed.

Lemma dispatch_finish g' pids' lastStat' spawnpid' s m (w : W) :
  0 < argCount m < NUM_ARGS →
  length (args m) = Z.to_nat NUM_ARGS →
  ∃ a',
    ('(a', g'') ← lift (cleanup (args m) (argCount m) g');
     ret (AtLoop (Shell g'' a' (redir m) (argCount m) lastStat'
                    (sh_outputFile s) (sh_inputFile s) spawnpid' pids'))) w
    = ([], Ok (AtLoop (Shell (set_pidString "" (set_background 0 g')) a'
                         (redir m) (argCount m) lastStat'
                         (sh_outputFile s) (sh_inputFile s) spawnpid' pids'),
               w)).
Proof.
  intros Hn Hlen.
  destruct (cleanup_returns (args m) (argCount m) g') as [a' Ha'].
  { rewrite Hlen. unfold NUM_ARGS in *. lia. }
  exists a'.
  by rewrite (comp_bind_silent _ _ w (a', set_pidString "" (set_background 0 g')) w)
    by (unfold lift; by rewrite Ha').
Qed.

(** X16: a line whose first argument is "exit", whatever follows it: [main]
    sends SIGKILL to every job in the table, in slot order, emits nothing
    else, forks nothing and returns 0. *)
Theorem exit_line s line (w w1 : W) n :
  length (sh_args s) = Z.to_nat NUM_ARGS →
  length (sh_pids s) = Z.to_nat BGPID_ARR_SIZE →
  os_sigtstp w = (n, w1) →
  within_capacity (os_getpid w1) (tokens line) →
  head (arg_tokens (tokens line)) = Some "exit" →
  dispatch s line w
  = (map (λ p, Kill p SIGKILL) (jobs (sh_pids s)),
     Ok (Returned 0, killed (jobs (sh_pids s)) w1)).
Proof.
  intros Ha Hp Hsig Hcap Hhead.
  destruct (parsed_command (os_getpid w1) line (sh_args s) (sh_redir s)
              (Nat.iter n catchSIGTSTP (sh_glob s)) "exit")
    as (m & t & Hparse & _ & Hload & _); try done.
  rewrite (dispatch_parsed s line w w1 n m "exit") by done.
  change (streq "exit" "exit") with true. cbv iota.
  unfold exitShell, killChildren.
  rewrite !comp_bind_unfold.
  rewrite (killChildren_from_spec _ 0) by (by rewrite Hp).
  cbn [fst snd drop take app]. unfold ret. cbn [fst snd].
  by rewrite !app_nil_r.
Qed.

Lemma glob_parsed_background g t text :
  background
    ((if streq t "&" then mark_background else id) (set_pidString text g))
  = if streq t "&" && (disallow_background g =? 0) then 1 else background g.
Proof.
  unfold mark_background. destruct (streq t "&"), g as [ps b d bi]; cbn;
    [by destruct (d =? 0)|done].
Qed.

Lemma dispatch_forked s line (w w1 w2 : W) n cmd p :
  length (sh_args s) = Z.to_nat NUM_ARGS →
  os_sigtstp w = (n, w1) →
  within_capacity (os_getpid w1) (tokens line) →
  head (arg_tokens (tokens line)) = Some cmd →
  expands cmd = false → cmd ≠ "&" → is_builtin cmd = false →
  os_fork w1 = (p, w2) → p ≠ -1 → p ≠ 0 →
  ∃ m t,
    last (arg_tokens (tokens line)) = Some t ∧
    background (glob m)
    = (if streq t "&" &&
          (disallow_background (Nat.iter n catchSIGTSTP (sh_glob s)) =? 0)
       then 1 else background (sh_glob s)) ∧
    0 < argCount m < NUM_ARGS ∧
    length (args m) = Z.to_nat NUM_ARGS ∧
    let x :=
      ('(g', pids', lastStat', spawnpid') ←
         ('(pids', lastStat') ←
            execParent p (sh_pids s) (sh_lastStat s) (glob m);
          ret (glob m, pids', lastStat', p));
       '(a', g'') ← lift (cleanup (args m) (argCount m) g');
       ret (AtLoop (Shell g'' a' (redir m) (argCount m) lastStat'
                      (sh_outputFile s) (sh_inputFile s) spawnpid' pids')))
        w2 in
    dispatch s line w = (Fork p :: x.1, x.2).
Proof.
  intros Ha Hsig Hcap Hhead Hexp Hamp Hbuiltin Hfork Hp1 Hp0.
  destruct (parsed_command (os_getpid w1) line (sh_args s) (sh_redir s)
              (Nat.iter n catchSIGTSTP (sh_glob s)) cmd)
    as (m & t & Hparse & Hlast & Hload & _ & _ & Hglob & _ & _ & Hn & Hlen);
    try done.
  exists m, t. split; [done|]. split.
  { by rewrite Hglob, glob_parsed_background, signals_background. }
  split; [done|]. split; [done|].
  rewrite (dispatch_parsed s line w w1 n m cmd) by done.
  unfold is_builtin in Hbuiltin.
  apply orb_false_iff in Hbuiltin as [[-> ->]%orb_false_iff ->].
  rewrite (comp_bind_bind_Ok fork _ _ w1 [Fork p] p w2)
    by (unfold fork; by rewrite Hfork).
  by rewrite (proj2 (Z.eqb_neq p (-1)) Hp1), (proj2 (Z.eqb_neq p 0) Hp0).
Qed.

Lemma execParent_background p pids pids' lastStat g (w : W) :
  background g ≠ 0 →
  placePID pids p w = ([], Ok (pids', w)) →
  execParent p pids lastStat g w
  = ([Printf "background pid is %d\n" [p]; Fflush],
     Ok (pids', lastStat, w)).
Proof.
  intros Hbg Hplace. unfold execParent.
  rewrite (proj2 (Z.eqb_neq _ 0) Hbg).
  by rewrite (comp_bind_silent _ _ w pids' w).
Qed.

Lemma execParent_foreground p pids lastStat g (w w' : W) r stat :
  background g = 0 →
  os_waitpid p 0 w = (r, stat, w') →
  execParent p pids lastStat g w
  = (Waitpid p 0 r stat
     :: (if WIFSIGNALED stat
         then [Printf "terminated by signal %d\n" [WTERMSIG stat]; Fflush]
         else []),
     Ok (pids, stat, w')).
Proof.
  intros Hbg Hwait. unfold execParent. rewrite Hbg. cbn [Z.eqb].
  rewrite (comp_bind_Ok _ _ w [Waitpid p 0 r stat] (r, stat) w')
    by (unfold waitpid; by rewrite Hwait).
  by destruct (WIFSIGNALED stat).
Qed.

Lemma dispatch_parent s m p pids' lastStat' (w w' : W) t :
  0 < argCount m < NUM_ARGS →
  length (args m) = Z.to_nat NUM_ARGS →
  execParent p (sh_pids s) (sh_lastStat s) (glob m) w
  = (t, Ok (pids', lastStat', w')) →
  ∃ a',
    ('(g', pids', lastStat', spawnpid') ←
       ('(pids', lastStat') ←
          execParent p (sh_pids s) (sh_lastStat s) (glob m);
        ret (glob m, pids', lastStat', p));
     '(a', g'') ← lift (cleanup (args m) (argCount m) g');
     ret (AtLoop (Shell g'' a' (redir m) (argCount m) lastStat'
                    (sh_outputFile s) (sh_inputFile s) spawnpid' pids'))) w
    = (t, Ok (AtLoop (Shell (set_pidString "" (set_background 0 (glob m)))
                        a' (redir m) (argCount m) lastStat'
                        (sh_outputFile s) (sh_inputFile s) p pids'),
              w')).
Proof.
  intros Hn Hlen Hpar.
  destruct (dispatch_finish (glob m) pids' lastStat' p s m w' Hn Hlen)
    as [a' Hfin].
  exists a'.
  rewrite (comp_bind_Ok _ _ w t (glob m, pids', lastStat', p) w').
  - rewrite Hfin. cbn [fst snd]. by rewrite app_nil_r.
  - rewrite (comp_bind_Ok _ _ w t (pids', lastStat') w') by done.
    cbn [ret fst snd]. by rewrite app_nil_r.
Qed.

(** X17: a command line other than a built-in whose last argument is "&",
    when background commands are allowed and [fork] succeeds in the parent:
    the shell does not wait; it stores the child's process identifier in the
    first empty slot of the job table, prints it, keeps the last foreground
    status and is back at the head of its loop with the background flag 0. *)
Theorem background_line s line (w w1 w2 : W) n cmd p (k : nat) :
  length (sh_args s) = Z.to_nat NUM_ARGS →
  length (sh_pids s) = Z.to_nat BGPID_ARR_SIZE →
  os_sigtstp w = (n, w1) →
  disallow_background (Nat.iter n catchSIGTSTP (sh_glob s)) = 0 →
  within_capacity (os_getpid w1) (tokens line) →
  head (arg_tokens (tokens line)) = Some cmd →
  expands cmd = false → cmd ≠ "&" → is_builtin cmd = false →
  last (arg_tokens (tokens line)) = Some "&" →
  os_fork w1 = (p, w2) → p ≠ -1 → p ≠ 0 →
  sh_pids s !! k = Some 0 →
  (∀ j, (j < k)%nat → sh_pids s !! j ≠ Some 0) →
  ∃ s',
    dispatch s line w
    = ([Fork p; Printf "background pid is %d\n" [p]; Fflush],
       Ok (AtLoop s', w2)) ∧
    sh_pids s' = <[k:=p]> (sh_pids s) ∧
    sh_lastStat s' = sh_lastStat s ∧
    sh_spawnpid s' = p ∧
    background (sh_glob s') = 0.
Proof.
  intros Ha Hp Hsig Hmode Hcap Hhead Hexp Hamp Hbuiltin Hlast Hfork Hp1 Hp0
    Hk Hfirst.
  destruct (dispatch_forked s line w w1 w2 n cmd p)
    as (m & t & Hlast' & Hbg & Hn & Hlen & Hrun); try done.
  rewrite Hlast in Hlast'. injection Hlast' as <-.
  rewrite Hmode in Hbg. cbn in Hbg.
  assert (placePID (sh_pids s) p w2 = ([], Ok (<[k:=p]> (sh_pids s), w2)))
    as Hplace.
  { unfold placePID, mbind, comp_bind, lift.
    rewrite (placePID_from_found _ 0 k);
      [done|by rewrite Hp|lia|done|intros j [_ Hj]; by apply Hfirst]. }
  destruct (dispatch_parent s m p (<[k:=p]> (sh_pids s)) (sh_lastStat s)
              w2 w2 _ Hn Hlen
              (execParent_background p _ _ (sh_lastStat s) (glob m) w2
                 ltac:(by rewrite Hbg) Hplace)) as [a' Hfin].
  cbv zeta in Hrun. rewrite Hfin in Hrun.
  eexists. split; [exact Hrun|]. cbn. by destruct (glob m).
Qed.

(** X18: a command line other than a built-in that does not end in "&", or
    any such line while foreground-only mode is on: the shell waits for the
    child with a blocking [waitpid], prints the signal number if the child
    was killed by a signal, records the status for [status], leaves the job
    table as it was and is back at the head of its loop. *)
Theorem foreground_line s line (w w1 w2 w3 : W) n cmd t p r stat :
  length (sh_args s) = Z.to_nat NUM_ARGS →
  background (sh_glob s) = 0 →
  os_sigtstp w = (n, w1) →
  within_capacity (os_getpid w1) (tokens line) →
  head (arg_tokens (tokens line)) = Some cmd →
  expands cmd = false → cmd ≠ "&" → is_builtin cmd = false →
  last (arg_tokens (tokens line)) = Some t →
  t ≠ "&" ∨ disallow_background (Nat.iter n catchSIGTSTP (sh_glob s)) ≠ 0 →
  os_fork w1 = (p, w2) → p ≠ -1 → p ≠ 0 →
  os_waitpid p 0 w2 = (r, stat, w3) →
  ∃ s',
    dispatch s line w
    = (Fork p :: Waitpid p 0 r stat
       :: (if WIFSIGNALED stat
           then [Printf "terminated by signal %d\n" [WTERMSIG stat]; Fflush]
           else []),
       Ok (AtLoop s', w3)) ∧
    sh_pids s' = sh_pids s ∧
    sh_lastStat s' = stat ∧
    sh_spawnpid s' = p ∧
    background (sh_glob s') = 0.
Proof.
  intros Ha Hflag Hsig Hcap Hhead Hexp Hamp Hbuiltin Hlast Hmode Hfork Hp1
    Hp0 Hwait.
  destruct (dispatch_forked s line w w1 w2 n cmd p)
    as (m & t' & Hlast' & Hbg & Hn & Hlen & Hrun); try done.
  rewrite Hlast in Hlast'. injection Hlast' as <-.
  assert (background (glob m) = 0) as Hbg0.
  { rewrite Hbg, Hflag. destruct Hmode as [Ht|Hmode].
    - destruct (streq t "&") eqn:E; [by apply streq_eq in E|done].
    - rewrite (proj2 (Z.eqb_neq _ 0) Hmode). by rewrite andb_false_r. }
  destruct (dispatch_parent s m p (sh_pids s) stat w2 w3 _ Hn Hlen
              (execParent_foreground p _ (sh_lastStat s) (glob m) w2 w3
                 r stat Hbg0 Hwait)) as [a' Hfin].
  cbv zeta in Hrun. rewrite Hfin in Hrun.
  eexists. split; [exact Hrun|]. cbn. by destruct (glob m).
Qed.

(** X19: when [fork] fails on a command line other than a built-in, the
    shell prints the [perror] message and exits with status 1; nothing is
    executed and nothing waited for. *)
Theorem fork_failure_exits s line (w w1 w2 : W) n cmd :
  length (sh_args s) = Z.to_nat NUM_ARGS →
  os_sigtstp w = (n, w1) →
  within_capacity (os_getpid w1) (tokens line) →
  head (arg_tokens (tokens line)) = Some cmd →
  expands cmd = false → cmd ≠ "&" → is_builtin cmd = false →
  os_fork w1 = (-1, w2) →
  dispatch s line w = ([Fork (-1); Perror "Fork() problem!"], Exited 1).
Proof.
  intros Ha Hsig Hcap Hhead Hexp Hamp Hbuiltin Hfork.
  destruct (parsed_command (os_getpid w1) line (sh_args s) (sh_redir s)
              (Nat.iter n catchSIGTSTP (sh_glob s)) cmd)
    as (m & t & Hparse & _ & Hload & _); try done.
  rewrite (dispatch_parsed s line w w1 n m cmd) by done.
  unfold is_builtin in Hbuiltin.
  apply orb_false_iff in Hbuiltin as [[-> ->]%orb_false_iff ->].
  rewrite (comp_bind_bind_Ok fork _ _ w1 [Fork (-1)] (-1) w2)
    by (unfold fork; by rewrite Hfork).
  reflexivity.
Qed.

(** X20: a line whose first argument is "status": the shell prints the exit
    value of the recorded status if it denotes a normal exit, its signal
    number otherwise, flushes, forks nothing and keeps the recorded status,
    the job table and the last child's process identifier. *)
Theorem status_line s line (w w1 : W) n :
  length (sh_args s) = Z.to_nat NUM_ARGS →
  os_sigtstp w = (n, w1) →
  within_capacity (os_getpid w1) (tokens line) →
  head (arg_tokens (tokens line)) = Some "status" →
  ∃ s',
    dispatch s line w
    = ([if WIFEXITED (sh_lastStat s)
        then Printf "exit value %d\n" [WEXITSTATUS (sh_lastStat s)]
        else Printf "terminated by signal %d\n" [WTERMSIG (sh_lastStat s)];
        Fflush],
       Ok (AtLoop s', w1)) ∧
    sh_pids s' = sh_pids s ∧
    sh_lastStat s' = sh_lastStat s ∧
    sh_spawnpid s' = sh_spawnpid s ∧
    background (sh_glob s') = 0.
Proof.
  intros Ha Hsig Hcap Hhead.
  destruct (parsed_command (os_getpid w1) line (sh_args s) (sh_redir s)
              (Nat.iter n catchSIGTSTP (sh_glob s)) "status")
    as (m & t & Hparse & _ & Hload & _ & _ & _ & _ & _ & Hn & Hlen);
    try done.
  rewrite (dispatch_parsed s line w w1 n m "status") by done.
  change (streq "status" "exit") with false.
  change (streq "status" "status") with true. cbv iota.
  destruct (dispatch_finish (set_background 0 (glob m)) (sh_pids s)
              (sh_lastStat s) (sh_spawnpid s) s m w1 Hn Hlen) as [a' Hfin].
  assert (statusShell (sh_lastStat s) (glob m) w1
          = ([if WIFEXITED (sh_lastStat s)
              then Printf "exit value %d\n" [WEXITSTATUS (sh_lastStat s)]
              else Printf "terminated by signal %d\n"
                     [WTERMSIG (sh_lastStat s)];
              Fflush],
             Ok (set_background 0 (glob m), w1))) as Hst.
  { unfold statusShell. by destruct (WIFEXITED (sh_lastStat s)). }
  eexists. split.
  - rewrite (comp_bind_Ok _ _ w1 _
               (set_background 0 (glob m), sh_pids s, sh_lastStat s,
                sh_spawnpid s) w1)
      by (rewrite (comp_bind_Ok _ _ _ _ _ _ Hst); cbn [ret fst snd];
          by rewrite app_nil_r).
    rewrite Hfin. cbn [fst snd]. rewrite app_nil_r. reflexivity.
  - cbn. by destruct (glob m).
Qed.

Lemma cdShell_runs a n g p dir (w : W) :
  (if n =? 1 then getenv "HOME" else lift (load a 1)) w = ([], Ok (p, w)) →
  string_at g p = Ok dir →
  cdShell a n g w
  = if bool_decide (Z.of_nat (String.length dir) < PATH_STR_SZ)
    then ([Chdir dir], Ok (set_background 0 g, os_chdir dir w))
    else ([], Undefined BufferOverflow).
Proof.
  intros Hp Hdir. unfold cdShell.
  rewrite (comp_bind_silent _ _ w p w) by done.
  rewrite (comp_bind_silent _ _ w dir w) by (unfold lift; by rewrite Hdir).
  unfold strcpy_path. case_bool_decide; [|done].
  by rewrite (comp_bind_silent _ _ w dir w).
Qed.

Lemma cdShell_null a n g (w : W) :
  (if n =? 1 then getenv "HOME" else lift (load a 1)) w
  = ([], Ok (NULL, w)) →
  cdShell a n g w = ([], Undefined NullDeref).
Proof.
  intros Hp. unfold cdShell. by rewrite (comp_bind_silent _ _ w NULL w).
Qed.

Lemma dispatch_cd s m (w : W) :
  0 < argCount m < NUM_ARGS →
  length (args m) = Z.to_nat NUM_ARGS →
  ('(g', pids', lastStat', spawnpid') ←
     (g' ← cdShell (args m) (argCount m) (glob m);
      ret (g', sh_pids s, sh_lastStat s, sh_spawnpid s));
   '(a', g'') ← lift (cleanup (args m) (argCount m) g');
   ret (AtLoop (Shell g'' a' (redir m) (argCount m) lastStat'
                  (sh_outputFile s) (sh_inputFile s) spawnpid' pids'))) w
  = match cdShell (args m) (argCount m) (glob m) w with
    | (t, Ok (g', w')) =>
        (t, Ok (AtLoop (Shell (Globals "" 0 (disallow_background g')
                                 (background_inform g'))
                          (replicate (Z.to_nat (argCount m)) NULL
                             ++ drop (Z.to_nat (argCount m)) (args m))
                          (redir m) (argCount m) (sh_lastStat s)
                          (sh_outputFile s) (sh_inputFile s) (sh_spawnpid s)
                          (sh_pids s)), w'))
    | (t, Undefined why) => (t, Undefined why)
    | (t, Exited code) => (t, Exited code)
    | (t, Replaced) => (t, Replaced)
    | (t, NoFuel) => (t, NoFuel)
    end.
Proof.
  intros Hn Hlen.
  destruct (cdShell _ _ _ w) as [t [[g' w']| | | |]] eqn:Hcd;
    try (unfold mbind, comp_bind; by rewrite Hcd).
  rewrite (comp_bind_Ok _ _ w t
             (g', sh_pids s, sh_lastStat s, sh_spawnpid s) w')
    by (rewrite (comp_bind_Ok _ _ _ _ _ _ Hcd); cbn [ret fst snd];
        by rewrite app_nil_r).
  unfold mbind, comp_bind, lift, cleanup.
  rewrite (cleanup_from_spec _ 0)
    by (rewrite Hlen; unfold NUM_ARGS in *; cbn; lia).
  cbn. rewrite app_nil_r. by destruct g'.
Qed.

(** X21: a line "cd dir ...", where [dir] has no "$$" and is not a trailing
    "&": if [dir] fits the 100 bytes of [path] the shell calls [chdir] on
    it and nothing else, the further arguments being ignored; if it does
    not fit, the [strcpy] overflows [path]. *)
Theorem cd_line s line (w w1 : W) n dir :
  length (sh_args s) = Z.to_nat NUM_ARGS →
  os_sigtstp w = (n, w1) →
  within_capacity (os_getpid w1) (tokens line) →
  head (arg_tokens (tokens line)) = Some "cd" →
  arg_tokens (tokens line) !! 1%nat = Some dir →
  expands dir = false →
  (2 < length (arg_tokens (tokens line)))%nat ∨ dir ≠ "&" →
  if bool_decide (Z.of_nat (String.length dir) < PATH_STR_SZ)
  then ∃ s',
    dispatch s line w = ([Chdir dir], Ok (AtLoop s', os_chdir dir w1)) ∧
    sh_pids s' = sh_pids s ∧
    sh_lastStat s' = sh_lastStat s ∧
    background (sh_glob s') = 0
  else dispatch s line w = ([], Undefined BufferOverflow).
Proof.
  intros Ha Hsig Hcap Hhead Hdir Hexp Hlast.
  destruct (parsed_command (os_getpid w1) line (sh_args s) (sh_redir s)
              (Nat.iter n catchSIGTSTP (sh_glob s)) "cd")
    as (m & t & Hparse & _ & Hload & Hcells & _ & _ & _ & Hcount & Hn & Hlen);
    try done.
  rewrite (dispatch_parsed s line w w1 n m "cd") by done.
  change (streq "cd" "exit") with false.
  change (streq "cd" "status") with false.
  change (streq "cd" "cd") with true. cbv iota.
  rewrite dispatch_cd by done.
  pose proof (lookup_lt_Some _ _ _ Hdir) as Hlt.
  rewrite (cdShell_runs _ _ _ (Tok dir) dir); [| |done].
  - case_bool_decide; [|done]. eexists. by split.
  - rewrite (proj2 (Z.eqb_neq (argCount m) 1)) by lia.
    pose proof (Hcells 1%nat dir Hdir) as H1.
    change (Z.of_nat 1) with 1 in H1. unfold lift.
    rewrite H1 by (destruct Hlast; auto).
    unfold cell. by rewrite Hexp.
Qed.

(** X22: "cd" with no other argument changes to the value of HOME when HOME
    is set and fits [path]; when HOME is not set, [getenv] returns a null
    pointer that [strcpy] reads; and on "cd &" the argument count is 2
    while [args[1]] has been set to null, which [strcpy] reads as well. *)
Theorem cd_without_destination s line (w w1 : W) n :
  length (sh_args s) = Z.to_nat NUM_ARGS →
  os_sigtstp w = (n, w1) →
  (arg_tokens (tokens line) = ["cd"] →
   match os_getenv "HOME" w1 with
   | Some home =>
       if bool_decide (Z.of_nat (String.length home) < PATH_STR_SZ)
       then ∃ s', dispatch s line w
                  = ([Chdir home], Ok (AtLoop s', os_chdir home w1))
       else dispatch s line w = ([], Undefined BufferOverflow)
   | None => dispatch s line w = ([], Undefined NullDeref)
   end) ∧
  (arg_tokens (tokens line) = ["cd"; "&"] →
   dispatch s line w = ([], Undefined NullDeref)).
Proof.
  intros Ha Hsig.
  assert (∀ ats, arg_tokens (tokens line) = "cd" :: ats →
            (ats = [] ∨ ats = ["&"]) →
            ∃ m, dispatch s line w
                 = match cdShell (args m) (argCount m) (glob m) w1 with
                   | (t, Ok (g', w')) =>
                       (t, Ok (AtLoop
                                 (Shell (Globals "" 0 (disallow_background g')
                                           (background_inform g'))
                                    (replicate (Z.to_nat (argCount m)) NULL
                                       ++ drop (Z.to_nat (argCount m))
                                            (args m))
                                    (redir m) (argCount m) (sh_lastStat s)
                                    (sh_outputFile s) (sh_inputFile s)
                                    (sh_spawnpid s) (sh_pids s)), w'))
                   | (t, Undefined why) => (t, Undefined why)
                   | (t, Exited code) => (t, Exited code)
                   | (t, Replaced) => (t, Replaced)
                   | (t, NoFuel) => (t, NoFuel)
                   end ∧
                 argCount m = Z.of_nat (S (length ats)) ∧
                 (ats = ["&"] → load (args m) 1 = Ok NULL)) as Hcd.
  { intros ats Hats Hshape.
    destruct (parsed_command (os_getpid w1) line (sh_args s) (sh_redir s)
                (Nat.iter n catchSIGTSTP (sh_glob s)) "cd")
      as (m & t & Hparse & _ & Hload & _ & Hamp & _ & _ & Hcount & Hn & Hlen);
      try done.
    { unfold within_capacity. rewrite Hats.
      split; [destruct Hshape as [-> | ->]; cbn; lia|].
      destruct Hshape as [-> | ->]; repeat constructor; by intros ?. }
    { by rewrite Hats. }
    exists m. rewrite (dispatch_parsed s line w w1 n m "cd") by done.
    change (streq "cd" "exit") with false.
    change (streq "cd" "status") with false.
    change (streq "cd" "cd") with true. cbv iota.
    rewrite dispatch_cd by done. split; [done|].
    rewrite Hcount, Hats. split; [done|]. intros ->.
    by apply (Hamp 1%nat); rewrite Hats. }
  split; intros Hats.
  - destruct (Hcd [] Hats) as (m & -> & Hcount & _); [by left|].
    rewrite Hcount. cbn [length]. change (Z.of_nat 1) with 1.
    destruct (os_getenv "HOME" w1) as [home|] eqn:Hhome.
    + rewrite (cdShell_runs _ _ _ (Tok home) home);
        [|by cbn; unfold getenv; rewrite Hhome|done].
      case_bool_decide; [|done]. by eexists.
    + rewrite cdShell_null; [done|]. cbn. unfold getenv. by rewrite Hhome.
  - destruct (Hcd ["&"] Hats) as (m & -> & Hcount & Hnull); [by right|].
    rewrite Hcount. cbn [length]. change (Z.of_nat 2) with 2.
    rewrite cdShell_null; [done|]. cbn. unfold lift.
    by rewrite (Hnull eq_refl).
Qed.

End Lines.

(** "exit now" with the jobs 77 and 88. *)
Lemma exit_line_witness :
  dispatch (idle_shell (0 :: 77 :: 0 :: 88 :: replicate 16 0)) "exit now"
    (Script 4242 [] [] [] [])
  = ([Kill 77 SIGKILL; Kill 88 SIGKILL],
     Ok (Returned 0, Script 4242 [] [] [] [])).
Proof.
  assert (within_capacity 4242 (tokens "exit now")) as Hcap.
  { split; [vm_compute; lia|].
    vm_compute. repeat constructor; intros [=]. }
  exact (exit_line (idle_shell (0 :: 77 :: 0 :: 88 :: replicate 16 0))
           "exit now" (Script 4242 [] [] [] []) (Script 4242 [] [] [] [])
           0%nat eq_refl eq_refl eq_refl Hcap eq_refl).
Defined.

(** "sleep 5 &" with the job 77 already tracked. *)
Lemma background_line_witness :
  ∃ s',
    dispatch (idle_shell (77 :: replicate 19 0)) "sleep 5 &"
      (Script 4242 [] [] [88] [])
    = ([Fork 88; Printf "background pid is %d\n" [88]; Fflush],
       Ok (AtLoop s', Script 4242 [] [] [] [])) ∧
    sh_pids s' = 77 :: 88 :: replicate 18 0 ∧
    sh_lastStat s' = -5 ∧
    sh_spawnpid s' = 88 ∧
    background (sh_glob s') = 0.
Proof.
  apply (background_line (idle_shell (77 :: replicate 19 0)) "sleep 5 &"
           (Script 4242 [] [] [88] []) (Script 4242 [] [] [88] [])
           (Script 4242 [] [] [] []) 0%nat "sleep" 88 1%nat);
    try reflexivity; try discriminate.
  - split; [vm_compute; lia|].
    vm_compute. repeat constructor; intros [=].
  - intros [|j] Hj; [discriminate|lia].
Defined.

(** "sleep 5 &" after one SIGTSTP; the child is killed by signal 2. *)
Lemma foreground_line_witness :
  ∃ s',
    dispatch (idle_shell (77 :: replicate 19 0)) "sleep 5 &"
      (Script 4242 [] [(88, 2)] [88] [1%nat])
    = ([Fork 88; Waitpid 88 0 88 2;
        Printf "terminated by signal %d\n" [2]; Fflush],
       Ok (AtLoop s', Script 4242 [] [] [] [])) ∧
    sh_pids s' = 77 :: replicate 19 0 ∧
    sh_lastStat s' = 2 ∧
    sh_spawnpid s' = 88 ∧
    background (sh_glob s') = 0.
Proof.
  apply (foreground_line (idle_shell (77 :: replicate 19 0)) "sleep 5 &"
           (Script 4242 [] [(88, 2)] [88] [1%nat])
           (Script 4242 [] [(88, 2)] [88] [])
           (Script 4242 [] [(88, 2)] [] [])
           (Script 4242 [] [] [] []) 1%nat "sleep" "&" 88 88 2);
    try reflexivity; try discriminate.
  - split; [vm_compute; lia|].
    vm_compute. repeat constructor; intros [=].
  - right. discriminate.
Defined.

(** "ls -la" when no process can be created. *)
Lemma fork_failure_exits_witness :
  dispatch (idle_shell (replicate 20 0)) "ls -la" (Script 4242 [] [] [] [])
  = ([Fork (-1); Perror "Fork() problem!"], Exited 1).
Proof.
  apply (fork_failure_exits (idle_shell (replicate 20 0)) "ls -la"
           (Script 4242 [] [] [] []) (Script 4242 [] [] [] [])
           (Script 4242 [] [] [] []) 0%nat "ls");
    try reflexivity; try discriminate.
  split; [vm_compute; lia|].
  vm_compute. repeat constructor; intros [=].
Defined.

(** "status" before any foreground command: the recorded status is -5. *)
Lemma status_line_witness :
  ∃ s',
    dispatch (idle_shell (replicate 20 0)) "status"
      (Script 4242 [] [] [] [])
    = ([Printf "terminated by signal %d\n" [123]; Fflush],
       Ok (AtLoop s', Script 4242 [] [] [] [])) ∧
    sh_pids s' = replicate 20 0 ∧
    sh_lastStat s' = -5 ∧
    sh_spawnpid s' = -5 ∧
    background (sh_glob s') = 0.
Proof.
  apply (status_line (idle_shell (replicate 20 0)) "status"
           (Script 4242 [] [] [] []) (Script 4242 [] [] [] []) 0%nat);
    try reflexivity.
  split; [vm_compute; lia|].
  vm_compute. repeat constructor; intros [=].
Defined.

(** "cd /tmp". *)
Lemma cd_line_witness :
  ∃ s',
    dispatch (idle_shell (replicate 20 0)) "cd /tmp"
      (Script 4242 [] [] [] [])
    = ([Chdir "/tmp"], Ok (AtLoop s', Script 4242 [] [] [] [])) ∧
    sh_pids s' = replicate 20 0 ∧
    sh_lastStat s' = -5 ∧
    background (sh_glob s') = 0.
Proof.
  assert (within_capacity 4242 (tokens "cd /tmp")) as Hcap.
  { split; [vm_compute; lia|].
    vm_compute. repeat constructor; intros [=]. }
  assert ("/tmp" ≠ "&") as Hdir by discriminate.
  exact (cd_line (idle_shell (replicate 20 0)) "cd /tmp"
           (Script 4242 [] [] [] []) (Script 4242 [] [] [] []) 0%nat "/tmp"
           eq_refl eq_refl Hcap eq_refl eq_refl eq_refl (or_intror Hdir)).
Defined.

(** "cd" with HOME set to "/", and "cd &". *)
Lemma cd_without_destination_witness :
  (∃ s', dispatch (idle_shell (replicate 20 0)) "cd"
           (Script 4242 [] [] [] [])
         = ([Chdir "/"], Ok (AtLoop s', Script 4242 [] [] [] []))) ∧
  dispatch (idle_shell (replicate 20 0)) "cd &" (Script 4242 [] [] [] [])
  = ([], Undefined NullDeref).
Proof.
  split.
  - destruct (cd_without_destination (idle_shell (replicate 20 0)) "cd"
                (Script 4242 [] [] [] []) (Script 4242 [] [] [] []) 0%nat)
      as [Hhome _]; [reflexivity..|].
    apply Hhome. reflexivity.
  - destruct (cd_without_destination (idle_shell (replicate 20 0)) "cd &"
                (Script 4242 [] [] [] []) (Script 4242 [] [] [] []) 0%nat)
      as [_ Hamp]; [reflexivity..|].
    apply Hamp. reflexivity.
Defined.

(** ** Redirection targets *)

Lemma redir_after_untouched toks r :
  ("<" ∉ toks → redir0 (redir_after toks r) = redir0 r) ∧
  (">" ∉ toks → redir1 (redir_after toks r) = redir1 r).
Proof.
  remember (length toks) as n eqn:Hn. revert toks r Hn.
  induction (lt_wf n) as [n _ IH]. intros toks r ->.
  destruct toks as [|t toks]; [done|]. cbn [redir_after].
  destruct (streq t "<") eqn:E1; [apply streq_eq in E1 as ->|].
  { split; [intros []%not_elem_of_cons; done|].
    intros [_ Hin]%not_elem_of_cons.
    destruct toks as [|t1 toks]; [done|].
    apply not_elem_of_cons in Hin as [_ Hin].
    by rewrite (proj2 (IH (length toks) ltac:(simpl; lia) toks _ eq_refl)). }
  destruct (streq t ">") eqn:E2; [apply streq_eq in E2 as ->|].
  { split; [|intros []%not_elem_of_cons; done].
    intros [_ Hin]%not_elem_of_cons.
    destruct toks as [|t1 toks]; [done|].
    apply not_elem_of_cons in Hin as [_ Hin].
    by rewrite (proj1 (IH (length toks) ltac:(simpl; lia) toks _ eq_refl)). }
  split; intros [_ Hin]%not_elem_of_cons;
    by apply (IH (length toks) ltac:(simpl; lia) toks r eq_refl).
Qed.

Lemma redir_after_app ts us r :
  awaits_target ts = false →
  redir_after (ts ++ us) r = redir_after us (redir_after ts r).
Proof.
  remember (length ts) as n eqn:Hn. revert ts r Hn.
  induction (lt_wf n) as [n _ IH]. intros ts r -> Hts.
  destruct ts as [|t ts]; [done|].
  cbn [app redir_after awaits_target] in *. unfold is_redirect in Hts.
  destruct (streq t "<").
  { destruct ts as [|t1 ts]; [done|]. cbn [app orb] in *.
    eapply IH; [|done..]. simpl. lia. }
  destruct (streq t ">").
  { destruct ts as [|t1 ts]; [done|]. cbn [app orb] in *.
    eapply IH; [|done..]. simpl. lia. }
  cbn [orb] in Hts. eapply IH; [|done..]. simpl. lia.
Qed.

(** X23: the token that follows a redirection operator is stored as the
    target as it stands, without "$$" expansion and whatever it is (also
    "&", "<" or ">"), and is not an argument; and of several "<" (or ">")
    operators on a line the last one's target is the one kept. *)
Theorem redirection_target_verbatim pid line a r g pre op f post :
  length a = Z.to_nat NUM_ARGS →
  within_capacity pid (tokens line) →
  tokens line = pre ++ op :: f :: post →
  awaits_target pre = false →
  is_redirect op = true →
  ∃ m, parseCommand pid line a r g = Ok m ∧
       (op = "<" → "<" ∉ post → redir0 (redir m) = Tok f) ∧
       (op = ">" → ">" ∉ post → redir1 (redir m) = Tok f) ∧
       arg_tokens (tokens line) = arg_tokens pre ++ arg_tokens post.
Proof.
  intros Ha Hcap Htoks Hpre Hop.
  destruct (parseCommand_result pid line a r g Ha Hcap)
    as (m & init & t & _ & Hparse & _ & Hredir & _).
  exists m. split; [done|]. rewrite Hredir, Htoks.
  rewrite redir_after_app, arg_tokens_app by done.
  cbn [arg_tokens redir_after]. rewrite Hop.
  split; [|split; [|done]].
  - intros -> Hpost. cbn.
    by rewrite (proj1 (redir_after_untouched post _) Hpost).
  - intros -> Hpost. cbn.
    by rewrite (proj2 (redir_after_untouched post _) Hpost).
Qed.

(** X24: [parseCommand] never clears a redirection pointer: on a line with
    no "<" operator [redir[0]] keeps the value it had on entry, and the
    same holds for ">" and [redir[1]]. *)
Theorem redirection_without_operator pid line a r g :
  length a = Z.to_nat NUM_ARGS →
  within_capacity pid (tokens line) →
  ∃ m, parseCommand pid line a r g = Ok m ∧
       ("<" ∉ tokens line → redir0 (redir m) = redir0 r) ∧
       (">" ∉ tokens line → redir1 (redir m) = redir1 r).
Proof.
  intros Ha Hcap.
  destruct (parseCommand_result pid line a r g Ha Hcap)
    as (m & init & t & _ & Hparse & _ & Hredir & _).
  exists m. split; [done|]. rewrite Hredir.
  apply redir_after_untouched.
Qed.

(** Two input redirections; the second target holds the marker. *)
Lemma redirection_target_verbatim_witness :
  ∃ m, parseCommand 4242 "cat < a.txt < in$$ > &" (replicate 513 Undef)
         (Redirs NULL NULL) globals_init = Ok m ∧
       redir0 (redir m) = Tok "in$$" ∧
       arg_tokens (tokens "cat < a.txt < in$$ > &") = ["cat"].
Proof.
  destruct (redirection_target_verbatim 4242 "cat < a.txt < in$$ > &"
              (replicate 513 Undef) (Redirs NULL NULL) globals_init
              ["cat"; "<"; "a.txt"] "<" "in$$" [">"; "&"] eq_refl)
    as (m & Hm & Hin & _ & Hargs); try reflexivity.
  { split; [vm_compute; lia|].
    vm_compute. repeat constructor; intros [=]. }
  exists m. split; [exact Hm|]. split; [|exact Hargs].
  apply Hin; [reflexivity|not_in_list].
Defined.

(** A stale input target survives a parse without "<". *)
Lemma redirection_without_operator_witness :
  ∃ m, parseCommand 4242 "ls > out" (replicate 513 Undef)
         (Redirs (Tok "stale") NULL) globals_init = Ok m ∧
       redir0 (redir m) = Tok "stale".
Proof.
  destruct (redirection_without_operator 4242 "ls > out"
              (replicate 513 Undef) (Redirs (Tok "stale") NULL) globals_init
              eq_refl)
    as (m & Hm & Hin & _).
  { split; [vm_compute; lia|].
    vm_compute. repeat constructor; intros [=]. }
  exists m. split; [exact Hm|]. apply Hin. vm_compute. not_in_list.
Defined.

(** ** Who comes back to the prompt *)

Section Parent.
Context {W : Type} `{OS W}.

Lemma no_fork_app t1 t2 : no_fork t1 → no_fork t2 → no_fork (t1 ++ t2).
Proof. intros H1 H2 r [?|?]%elem_of_app; [by eapply H1|by eapply H2]. Qed.

Lemma no_fork_nil : no_fork [].
Proof. intros r. not_in_list. Qed.

Lemma lift_trace {A} (o : outcome A) (w w' : W) t a :
  lift o w = (t, Ok (a, w')) → t = [].
Proof. unfold lift. destruct o; cbn; by intros [= <-]. Qed.

Lemma ret_trace {A} (a : A) (w : W) t x : ret a w = (t, Ok x) → t = [].
Proof. by intros [= <- _]. Qed.

Lemma emit_trace e (w : W) t x : emit e w = (t, Ok x) → t = [e].
Proof. by intros [= <- _]. Qed.

Lemma statusShell_no_fork lastStat g (w w' : W) t g' :
  statusShell lastStat g w = (t, Ok (g', w')) → no_fork t.
Proof.
  unfold statusShell, mbind, comp_bind, printf, fflush, emit, ret.
  destruct (WIFEXITED lastStat); intros [= <- _ _] r; not_in_list.
Qed.

Lemma cdShell_no_fork a n g (w w' : W) t g' :
  cdShell a n g w = (t, Ok (g', w')) → no_fork t.
Proof.
  unfold cdShell. intros Hrun.
  apply comp_bind_inv in Hrun as (t1 & p & w1 & ? & Hp & Hrun & ->).
  apply comp_bind_inv in Hrun
    as (t2 & src & w2 & ? & ->%lift_trace & Hrun & ->).
  apply comp_bind_inv in Hrun
    as (t3 & path & w3 & ? & ->%lift_trace & Hrun & ->).
  apply comp_bind_inv in Hrun as (t4 & [] & w4 & ? & Hch & ->%ret_trace & ->).
  unfold chdir in Hch. injection Hch as <- _.
  assert (t1 = []) as ->.
  { destruct (n =? 1); [by injection Hp as <-|by eapply lift_trace]. }
  intros r. not_in_list.
Qed.

Lemma placePID_trace pids p (w w' : W) t a :
  placePID pids p w = (t, Ok (a, w')) → t = [].
Proof.
  unfold placePID. intros Hplace.
  apply comp_bind_inv in Hplace
    as (? & [a' placed] & ? & ? & ->%lift_trace & Hplace & ->).
  destruct (placed =? 0).
  - apply comp_bind_inv in Hplace as (? & ? & ? & ? & _ & Hplace & _).
    discriminate.
  - by apply ret_trace in Hplace as ->.
Qed.

Lemma execParent_no_fork p pids lastStat g (w w' : W) t x :
  execParent p pids lastStat g w = (t, Ok (x, w')) → no_fork t.
Proof.
  unfold execParent. destruct (background g =? 0).
  - unfold mbind, comp_bind, waitpid, printf, fflush, emit, ret.
    destruct (os_waitpid p 0 w) as [[r stat] w1].
    destruct (WIFSIGNALED stat); intros [= <- _ _] q; not_in_list.
  - intros Hrun.
    apply comp_bind_inv in Hrun
      as (t1 & a & w1 & ? & ->%placePID_trace & Hrun & ->).
    unfold mbind, comp_bind, printf, fflush, emit, ret in Hrun.
    injection Hrun as <- _ _. intros q. not_in_list.
Qed.

Lemma killChildren_from_no_fork n i pids (w : W) t x :
  killChildren_from n i pids w = (t, Ok x) → no_fork t.
Proof.
  revert i pids w t x. induction n as [|n IH]; intros i pids w t [a w'];
    cbn [killChildren_from].
  - intros ->%ret_trace. apply no_fork_nil.
  - intros Hrun.
    apply comp_bind_inv in Hrun
      as (? & p & ? & ? & ->%lift_trace & Hrun & ->).
    apply comp_bind_inv in Hrun as (tk & a1 & ? & ? & Hk & Hrun & ->).
    apply IH in Hrun. cbn [app]. apply no_fork_app; [|done].
    destruct (p =? 0); [apply ret_trace in Hk as ->; apply no_fork_nil|].
    apply comp_bind_inv in Hk
      as (? & [] & ? & ? & Hkill & ->%lift_trace & ->).
    unfold kill in Hkill. injection Hkill as <- _.
    intros r. not_in_list.
Qed.

(** X25: whenever the handling of a line comes back to the loop of [main] (or
    to its [return]), every [fork] made on the way returned a value other
    than 0 and -1: neither the child nor a shell whose [fork] failed ever
    gets back to the prompt. *)
Theorem dispatch_returns_in_parent s line (w w' : W) t c :
  dispatch s line w = (t, Ok (c, w')) →
  ∀ r, Fork r ∈ t → r ≠ 0 ∧ r ≠ -1.
Proof.
  unfold dispatch. intros Hrun.
  apply comp_bind_inv in Hrun as (ts & g & w1 & ? & Hsig & Hrun & ->).
  assert (ts = []) as ->.
  { unfold deliver_signals in Hsig. destruct (os_sigtstp w).
    by injection Hsig as <-. }
  apply comp_bind_inv in Hrun as (tp & pid & ? & ? & Hpid & Hrun & ->).
  assert (tp = []) as -> by (by injection Hpid as <-).
  apply comp_bind_inv in Hrun
    as (? & m & ? & ? & ->%lift_trace & Hrun & ->).
  apply comp_bind_inv in Hrun
    as (? & a0 & ? & ? & ->%lift_trace & Hrun & ->).
  apply comp_bind_inv in Hrun
    as (? & name & ? & ? & ->%lift_trace & Hrun & ->).
  cbn [app].
  destruct (streq name "exit").
  { apply comp_bind_inv in Hrun
      as (tk & ? & ? & ? & Hexit & ->%ret_trace & ->).
    unfold exitShell in Hexit.
    apply comp_bind_inv in Hexit
      as (? & ? & ? & ? & Hkill%killChildren_from_no_fork & ->%ret_trace & ->).
    rewrite !app_nil_r. intros r Hin. by apply Hkill in Hin. }
  apply comp_bind_inv in Hrun
    as (tc & [[[g' pids'] lastStat'] spawnpid'] & ? & ? & Hcmd & Hrun & ->).
  apply comp_bind_inv in Hrun
    as (? & [a' g''] & ? & ? & ->%lift_trace & ->%ret_trace & ->).
  rewrite !app_nil_r.
  destruct (streq name "status").
  { apply comp_bind_inv in Hcmd
      as (? & ? & ? & ? & Hst%statusShell_no_fork & ->%ret_trace & ->).
    rewrite app_nil_r. intros r Hin. by apply Hst in Hin. }
  destruct (streq name "cd").
  { apply comp_bind_inv in Hcmd
      as (? & ? & ? & ? & Hcd%cdShell_no_fork & ->%ret_trace & ->).
    rewrite app_nil_r. intros r Hin. by apply Hcd in Hin. }
  apply comp_bind_inv in Hcmd as (tf & p & w2 & ? & Hfork & Hcmd & ->).
  assert (tf = [Fork p]) as ->.
  { unfold fork in Hfork. destruct (os_fork _). by injection Hfork as <- <-. }
  destruct (Z.eqb_spec p (-1)) as [->|Hp1].
  { apply comp_bind_inv in Hcmd as (? & ? & ? & ? & _ & Hcmd & _).
    discriminate. }
  destruct (Z.eqb_spec p 0) as [->|Hp0].
  { apply comp_bind_inv in Hcmd as (? & ? & ? & ? & Hchild & _).
    by apply execChild_stops in Hchild. }
  apply comp_bind_inv in Hcmd
    as (? & [q l] & ? & ? & Hparent%execParent_no_fork & ->%ret_trace & ->).
  rewrite app_nil_r. intros r [[= ->]|Hin]%elem_of_cons; [done|].
  by apply Hparent in Hin.
Qed.

End Parent.

(** The parent of "sleep 5 &". *)
Lemma dispatch_returns_in_parent_witness :
  dispatch (idle_shell (77 :: replicate 19 0)) "sleep 5 &"
    (Script 4242 [] [] [88] [])
  = ([Fork 88; Printf "background pid is %d\n" [88]; Fflush],
     Ok (AtLoop (Shell (Globals "" 0 0 0)
                   (replicate 4 NULL ++ replicate 509 Undef)
                   (Redirs NULL NULL) 3 (-5) (-5) (-5) 88
                   (77 :: 88 :: replicate 18 0)),
         Script 4242 [] [] [] [])) ∧
  88 ≠ 0 ∧ 88 ≠ -1.
Proof.
  assert (dispatch (idle_shell (77 :: replicate 19 0)) "sleep 5 &"
            (Script 4242 [] [] [88] [])
          = ([Fork 88; Printf "background pid is %d\n" [88]; Fflush],
             Ok (AtLoop (Shell (Globals "" 0 0 0)
                           (replicate 4 NULL ++ replicate 509 Undef)
                           (Redirs NULL NULL) 3 (-5) (-5) (-5) 88
                           (77 :: 88 :: replicate 18 0)),
                 Script 4242 [] [] [] []))) as Hrun
    by (vm_compute; reflexivity).
  split; [exact Hrun|].
  apply (dispatch_returns_in_parent _ _ _ _ _ _ Hrun 88). by left.
Defined.

(** ** The end of the input *)

Lemma script_cycle_eof g pid forks :
  getCommand_cycle g (replicate (Z.to_nat BGPID_ARR_SIZE) 0)
    (Script pid [] [] forks [])
  = (inform_trace g ++ [prompt; Fflush; Getline None],
     Ok (set_background_inform 0 g, replicate (Z.to_nat BGPID_ARR_SIZE) 0,
         None, Script pid [] [] forks [])).
Proof.
  unfold getCommand_cycle.
  rewrite (comp_bind_Ok _ _ _ _ _ _ (script_inform _ _ _ _ _)).
  rewrite (comp_bind_Ok _ _ _ _ _ _ (resolveBGPID_empty _)).
  reflexivity.
Qed.

(** X26: at the end of the input, when [getline] fails on every call,
    [getCommand] never leaves its loop: whatever the number of passes, it
    has printed the prompt once per pass, has got no line, and goes on. *)
Theorem getCommand_end_of_input fuel g pid forks :
  ∃ t,
    getCommand fuel g (replicate (Z.to_nat BGPID_ARR_SIZE) 0)
      (Script pid [] [] forks [])
    = (t, NoFuel) ∧
    prompts t = fuel ∧
    ∀ r, Getline r ∈ t → r = None.
Proof.
  revert g. induction fuel as [|fuel IH]; intros g.
  { exists []. split; [done|]. split; [done|]. intros r. not_in_list. }
  destruct (IH (set_background_inform 0 g)) as (t & Hrun & Hp & Hin).
  eexists. rewrite getCommand_S.
  rewrite (comp_bind_Ok _ _ _ _ _ _ (script_cycle_eof _ _ _)).
  cbv beta iota. rewrite Hrun. cbn [fst snd].
  split; [reflexivity|]. split.
  - rewrite !prompts_app, prompts_inform, Hp. done.
  - intros r [[Hi|Hi]%elem_of_app|Hi]%elem_of_app.
    + by apply no_getline_in_inform in Hi.
    + repeat (apply elem_of_cons in Hi as [Hi|Hi]; try discriminate).
      * by injection Hi as ->.
      * by apply elem_of_nil in Hi.
    + by apply Hin.
Qed.

(** ** The lines the parser is defined on *)

Lemma store_fails {A} (a : list A) i x :
  (∃ a', store a i x = Ok a') ∨ (∃ why, store a i x = Undefined why).
Proof. unfold store. case_bool_decide; eauto. Qed.

Lemma scan_fails pid toks m :
  (∃ m', scan pid toks m = Ok m') ∨ (∃ why, scan pid toks m = Undefined why).
Proof.
  remember (length toks) as n eqn:Hn. revert toks m Hn.
  induction (lt_wf n) as [n _ IH]. intros toks m ->.
  destruct toks as [|tok rest]; [left; by eexists|]. cbn [scan].
  assert (∀ m1, (∃ m', scan pid rest m1 = Ok m') ∨
                (∃ why, scan pid rest m1 = Undefined why)) as IH1.
  { intros m1. by apply (IH (length rest) ltac:(simpl; lia)). }
  destruct (strstr tok "$$").
  { unfold sprintf_pidString. case_bool_decide; [|right; by eexists].
    rewrite bind_Ok.
    destruct (store_fails (args m) (argCount m) PidStringPtr)
      as [[a' ->]|[why ->]]; [rewrite bind_Ok; apply IH1|right; by eexists]. }
  destruct (streq tok "<").
  { destruct rest as [|t1 rest]; [left; by eexists|].
    by apply (IH (length rest) ltac:(simpl; lia)). }
  destruct (streq tok ">").
  { destruct rest as [|t1 rest]; [left; by eexists|].
    by apply (IH (length rest) ltac:(simpl; lia)). }
  destruct (store_fails (args m) (argCount m) (Tok tok))
    as [[a' ->]|[why ->]]; [rewrite bind_Ok; apply IH1|right; by eexists].
Qed.

Lemma parse_finish_fails m :
  (∃ m', parse_finish m = Ok m') ∨ (∃ why, parse_finish m = Undefined why).
Proof.
  unfold parse_finish.
  destruct (store_fails (args m) (argCount m) NULL) as [[a1 ->]|[why ->]];
    [rewrite bind_Ok|right; by eexists].
  destruct (load_fails a1 (argCount m - 1)) as [[p ->]|[why ->]];
    [rewrite bind_Ok|right; by eexists].
  destruct (string_at_fails (glob m) p) as [[s ->]|[why ->]];
    [rewrite bind_Ok|right; by eexists].
  destruct (streq s "&"); [|left; by eexists].
  destruct (store_fails a1 (argCount m - 1) NULL) as [[a2 ->]|[why ->]];
    [rewrite bind_Ok; left; by eexists|right; by eexists].
Qed.

(** X27: on an array of 513 entries [parseCommand] returns exactly on the
    lines that have between 1 and 512 arguments, each expansion of which
    fits the 50 bytes of [pidString]; on every other line its behaviour is
    undefined (a write or a read outside [args], or an overflow of
    [pidString]). *)
Theorem parseCommand_defined_within_capacity pid line a r g :
  length a = Z.to_nat NUM_ARGS →
  (within_capacity pid (tokens line)
   ↔ ∃ m, parseCommand pid line a r g = Ok m) ∧
  (¬ within_capacity pid (tokens line) →
   ∃ why, parseCommand pid line a r g = Undefined why).
Proof.
  intros Ha.
  assert (within_capacity pid (tokens line)
          ↔ ∃ m, parseCommand pid line a r g = Ok m) as Hiff.
  { split.
    - intros Hcap.
      destruct (parseCommand_result pid line a r g Ha Hcap)
        as (m & _ & _ & _ & Hm & _). eauto.
    - intros [m Hm]. by eapply parseCommand_Ok_capacity. }
  split; [done|]. intros Hcap.
  assert ((∃ m, parseCommand pid line a r g = Ok m) ∨
          (∃ why, parseCommand pid line a r g = Undefined why)) as [Hok|?];
    [|by apply Hiff in Hok|done].
  rewrite parseCommand_tokens.
  destruct (scan_fails pid (tokens line) (Parser 0 a r g))
    as [[m1 ->]|[why ->]]; [|right; by eexists].
  rewrite bind_Ok. apply parse_finish_fails.
Qed.

(** A line with two arguments, and one with none. *)
Lemma parseCommand_defined_within_capacity_witness :
  (∃ m, parseCommand 4242 "ls -la" (replicate 513 Undef) (Redirs NULL NULL)
          globals_init = Ok m) ∧
  (∃ why, parseCommand 4242 "< in.txt" (replicate 513 Undef)
            (Redirs NULL NULL) globals_init = Undefined why).
Proof.
  split.
  - apply (parseCommand_defined_within_capacity 4242 "ls -la"
             (replicate 513 Undef) (Redirs NULL NULL) globals_init eq_refl).
    split; [vm_compute; lia|].
    vm_compute. repeat constructor; intros [=].
  - apply (parseCommand_defined_within_capacity 4242 "< in.txt"
             (replicate 513 Undef) (Redirs NULL NULL) globals_init eq_refl).
    intros [[Hlo _] _]. vm_compute in Hlo. lia.
Defined.
